(** * A shallow embedding of ADVISER's handcrafted dialogue policy

    Source: [adviser/services/policy/policy_handcrafted.py], class
    [HandcraftedPolicy].  Python objects are embedded as follows:

    - [dict]s are insertion-ordered association lists with unique keys
      (module [PyDict]); [d[k]] on a missing key raises [KeyError];
    - exceptions are the left summand of [Exc];
    - the instance fields of the policy ([turns], [first_turn],
      [current_suggestions], [s_index], [max_turns]) form the record
      [Policy], threaded explicitly through the methods that assign them;
    - the domain object is a record of functions; its persistent store is
      the list of writes ([DbWrite]) issued so far, which every read
      operation receives;
    - confidence scores (Python floats) are embedded as rationals: only
      their order is ever inspected. *)

From Stdlib Require Import List String Ascii ZArith QArith Bool Lia
  Permutation.
From Equations Require Import Equations.
Import ListNotations.

Local Open Scope string_scope.
Local Open Scope Z_scope.
Local Open Scope list_scope.

(** ** Exceptions *)

Inductive PyError : Type :=
| KeyError
| IndexError
| ValueError
| JSONDecodeError.

Definition Exc (A : Type) : Type := (PyError + A)%type.

Definition ret {A : Type} (a : A) : Exc A := inr a.
Definition raise {A : Type} (e : PyError) : Exc A := inl e.

Definition bind {A B : Type} (m : Exc A) (k : A -> Exc B) : Exc B :=
  match m with
  | inl e => inl e
  | inr a => k a
  end.

Notation "'let*' x ':=' m 'in' k" := (bind m (fun x => k))
  (at level 10, x pattern, m at level 100, k at level 200).

(** ** Python containers *)

Module PyDict.
Section Generic.
Context {K V : Type} (eqb : K -> K -> bool).

Fixpoint get (d : list (K * V)) (k : K) : option V :=
  match d with
  | [] => None
  | (k', v) :: d' => if eqb k' k then Some v else get d' k
  end.

Definition mem (d : list (K * V)) (k : K) : bool :=
  match get d k with Some _ => true | None => false end.

(** [d[k] = v]: overwrite in place, or append a new entry. *)
Fixpoint set (d : list (K * V)) (k : K) (v : V) : list (K * V) :=
  match d with
  | [] => [(k, v)]
  | (k', v') :: d' =>
      if eqb k' k then (k', v) :: d' else (k', v') :: set d' k v
  end.

Definition keys (d : list (K * V)) : list K := map fst d.
End Generic.
End PyDict.

Definition dict (V : Type) : Type := list (string * V).

Definition dict_get {V} (d : dict V) (k : string) : option V :=
  PyDict.get String.eqb d k.
Definition dict_mem {V} (d : dict V) (k : string) : bool :=
  PyDict.mem String.eqb d k.
Definition dict_set {V} (d : dict V) (k : string) (v : V) : dict V :=
  PyDict.set String.eqb d k v.
Definition dict_keys {V} (d : dict V) : list string := PyDict.keys d.

(** [d[k]], raising [KeyError] on a missing key. *)
Definition dict_item {V} (d : dict V) (k : string) : Exc V :=
  match dict_get d k with
  | Some v => ret v
  | None => raise KeyError
  end.

(** [x in l] for a list of strings. *)
Definition str_in (x : string) (l : list string) : bool :=
  existsb (String.eqb x) l.

(** [l[i]] with Python's negative indices. *)
Definition py_index {A} (l : list A) (i : Z) : Exc A :=
  let n := Z.of_nat (List.length l) in
  let j := if i <? 0 then i + n else i in
  if (0 <=? j) && (j <? n) then
    match nth_error l (Z.to_nat j) with
    | Some a => ret a
    | None => raise IndexError
    end
  else raise IndexError.

(** [sorted(l, key=...)]: a stable sort, here by insertion.  [le x y] is
    the order on keys ([key x <= key y], or [>=] under [reverse=True],
    which keeps equal keys in their original order as well). *)
Section Sorted.
Context {A : Type} (le : A -> A -> bool).

Fixpoint insert_sorted (x : A) (l : list A) : list A :=
  match l with
  | [] => [x]
  | y :: l' => if le x y then x :: y :: l' else y :: insert_sorted x l'
  end.

Definition py_sorted (l : list A) : list A :=
  fold_right insert_sorted [] l.
End Sorted.

(** ** Enumerations ([utils.useract], [utils.sysact]) *)

(** Modelled from the spec: the enumeration [UserActionType] is declared
    in [utils.useract], which is not among the sources at hand; its
    members are the user-action tags the policy tests for, and the
    remaining acts of the framework. *)
Inductive UserActionType : Type :=
| UInform | UNegativeInform | URequest | UHello | UBye | UThanks
| UAffirm | UDeny | URequestAlternatives | UAck | UBad | UConfirm
| USelectDomain | UNewDialogue | UGiveRating | UWriteReview
| UWrittenReview | UAskDistance | UInformStartPoint
| UInformDistanceManner | UAskOpeningDay | UAskManner.

Definition uact_eq_dec (a b : UserActionType) : {a = b} + {a <> b}.
Proof. decide equality. Defined.

Definition uact_eqb (a b : UserActionType) : bool :=
  if uact_eq_dec a b then true else false.

(** [a in user_acts] *)
Definition act_in (a : UserActionType) (l : list UserActionType) : bool :=
  existsb (uact_eqb a) l.

(** Modelled from the spec: the enumeration [SysActionType] of
    [utils.sysact], with the tags the spec lists for a system action. *)
Inductive SysActionType : Type :=
| Welcome | Bye | RequestMore | Bad | GuideUser | Request
| InformByName | InformByAlternatives | ConfirmGiveRating
| AskWriteReview | ConfirmWriteReview | AskStartPoint
| AskDistanceManner | InformDistance | BadTravelManner | BadAddress
| InformOpeningDay | InformManner | WhatDoYouWant.

Definition sact_eq_dec (a b : SysActionType) : {a = b} + {a <> b}.
Proof. decide equality. Defined.

(** ** System actions *)

(** A slot value of a system action: a string, or (for echoed
    constraints) the list of all values informed for the slot. *)
Inductive Value : Type :=
| VStr (s : string)
| VList (l : list string).

Record SysAct : Type := mkSysAct {
  act_type : option SysActionType;
  slot_values : dict (list Value)
}.

(** [SysAct()] *)
Definition new_SysAct : SysAct := mkSysAct None [].

Definition set_type (a : SysAct) (t : SysActionType) : SysAct :=
  mkSysAct (Some t) (slot_values a).

(** Modelled from the spec: the class [SysAct] lives in [utils.sysact],
    which is not part of the sources at hand.  A system action is "a tag
    plus an ordered mapping from slot name to one or more values";
    [add_value slot value] makes sure the slot is present and, when a
    value is given (not [None]), appends it to the slot's values. *)
Definition add_value (a : SysAct) (slot : string) (value : option Value)
  : SysAct :=
  let sv := if dict_mem (slot_values a) slot then slot_values a
            else dict_set (slot_values a) slot [] in
  match value with
  | None => mkSysAct (act_type a) sv
  | Some v =>
      match dict_get sv slot with
      | Some vs => mkSysAct (act_type a) (dict_set sv slot (vs ++ [v]))
      | None => mkSysAct (act_type a) sv
      end
  end.

(** Modelled from the spec: [get_values slot] of [utils.sysact.SysAct];
    the values recorded for the slot, none if the slot is absent. *)
Definition get_values (a : SysAct) (slot : string) : list Value :=
  match dict_get (slot_values a) slot with
  | Some vs => vs
  | None => []
  end.

(** ** Belief state, rows and the domain *)

(** A database cell: a string, or [None] for NULL. *)
Definition Cell : Type := option string.
Definition Row : Type := dict Cell.

Definition cell_eq_dec (a b : Cell) : {a = b} + {a <> b}.
Proof. decide equality. apply string_dec. Defined.

Definition cell_eqb (a b : Cell) : bool :=
  if cell_eq_dec a b then true else false.

(** Modelled from the spec: the belief state ([utils.beliefstate]) as
    the policy reads it: the user-action tags of the turn, the informs
    (slot to value to confidence), the requested slots, and the scalar
    fields of the auxiliary flows, each possibly [None]. *)
Record BeliefState : Type := mkBeliefState {
  user_acts : list UserActionType;
  informs : dict (dict Q);
  requests : list string;
  given_rating : option string;
  review : option string;
  start_point : option string;
  distance_manner : option string;
  req_openingday : option string;
  req_manner : option string
}.

Definition set_user_acts (bs : BeliefState) (l : list UserActionType)
  : BeliefState :=
  mkBeliefState l (informs bs) (requests bs) (given_rating bs) (review bs)
    (start_point bs) (distance_manner bs) (req_openingday bs)
    (req_manner bs).

(** Truth value of an optional string ([None] and the empty string are
    false). *)
Definition truthy (o : option string) : bool :=
  match o with
  | Some s => negb (String.eqb s "")
  | None => false
  end.

(** Writes issued to the domain's store. *)
Inductive DbWrite : Type :=
| EnterRating (rating : Q) (name : option string)
| EnterReview (text : string) (name : option string).

Definition Db : Type := list DbWrite.

(** Modelled from the spec: the domain capability
    ([utils.domain.jsonlookupdomain]), by the operations the policy
    calls.  Reads receive the writes issued so far. *)
Record Domain : Type := mkDomain {
  get_primary_key : string;
  get_system_requestable_slots : list string;
  get_possible_values : string -> list string;
  find_entities : Db -> dict (list string) -> list Row;
  find_info_about_entity : Db -> option string -> list string -> list Row;
  distance_duration :
    Db -> option string -> option string -> option string
    -> option string * option string;
  query_opening_info : Db -> option string -> option string -> option string;
  query_manner_info : Db -> option string -> option string -> option string
}.

(** What the policy uses of the Python runtime: [float(s)] and
    [json.loads(s)], the latter already rendered with [str.format] as the
    policy does ([items] of an object, elements of an array). *)
Record Runtime : Type := mkRuntime {
  py_float : string -> Exc Q;
  json_items : string -> Exc (list (string * string));
  json_elems : string -> Exc (list string)
}.

(** ** The policy object *)

Record Policy : Type := mkPolicy {
  turns : Z;
  first_turn : bool;
  current_suggestions : list Row;
  s_index : Z;
  max_turns : Z
}.

(** ** String helpers *)

Definition nl : string := String (ascii_of_nat 10) EmptyString.
Definition squote : ascii := ascii_of_nat 39.
Definition dquote : ascii := ascii_of_nat 34.
Definition space : ascii := ascii_of_nat 32.

(** [s.replace(old, new)] for one-character [old] and [new]. *)
Fixpoint str_replace (old new : ascii) (s : string) : string :=
  match s with
  | EmptyString => EmptyString
  | String c s' =>
      String (if Ascii.eqb c old then new else c) (str_replace old new s')
  end.

(** [sep.join(l)] *)
Fixpoint str_join (sep : string) (l : list string) : string :=
  match l with
  | [] => EmptyString
  | [x] => x
  | x :: l' => String.append x (String.append sep (str_join sep l'))
  end.

(** ** Filler suppression *)

(** [l.remove(a)]: drops the first occurrence.  (Python raises
    [ValueError] when there is none; every call below is guarded by
    [a in l].) *)
Fixpoint list_remove (a : UserActionType) (l : list UserActionType)
  : list UserActionType :=
  match l with
  | [] => []
  | x :: l' => if uact_eqb x a then l' else x :: list_remove a l'
  end.

Definition inspect {A} (a : A) : {b : A | a = b} := exist _ a eq_refl.

(** The [while] loop of [_remove_gen_actions], on the collection held in
    [beliefstate["user_acts"]] (a list here; the framework's set is a
    list without duplicates); the result is the collection as the loop
    leaves it. *)
Equations? _remove_gen_actions (l : list UserActionType)
  : list UserActionType by wf (List.length l) lt :=
  _remove_gen_actions l with inspect (1 <? List.length l)%nat => {
    | exist _ false _ := l
    | exist _ true _ with inspect (act_in UThanks l) => {
      | exist _ true _ := _remove_gen_actions (list_remove UThanks l)
      | exist _ false _ with inspect (act_in UBad l) => {
        | exist _ true _ := _remove_gen_actions (list_remove UBad l)
        | exist _ false _ with inspect (act_in UHello l) => {
          | exist _ true _ := _remove_gen_actions (list_remove UHello l)
          | exist _ false _ := l } } } }.
Proof.
  all: match goal with
       | E : act_in ?a _ = true |- _ =>
           assert (Hlen : forall l0,
                      act_in a l0 = true ->
                      (List.length (list_remove a l0) < List.length l0)%nat);
           [ induction l0 as [|x l0 IH]; simpl; [discriminate|];
             unfold uact_eqb at 1 2;
             destruct (uact_eq_dec a x) as [Heq|Hne];
             [ subst x; destruct (uact_eq_dec a a); [lia|congruence]
             | destruct (uact_eq_dec x a); [congruence|];
               simpl; intros H; apply IH in H; lia ]
           | apply Hlen; exact E ]
       end.
Qed.

(** ** Methods of [HandcraftedPolicy] *)

(** [for x in l: acc = f(acc, x)] where the body may raise. *)
Fixpoint foldM {A B : Type} (f : A -> B -> Exc A) (l : list B) (a : A)
  : Exc A :=
  match l with
  | [] => ret a
  | x :: l' => let* a' := f a x in foldM f l' a'
  end.

(** [d[k].append(v)], raising [KeyError] when [k] is missing. *)
Definition dict_append {V} (d : dict (list V)) (k : string) (v : V)
  : Exc (dict (list V)) :=
  let* vs := dict_item d k in ret (dict_set d k (vs ++ [v])).

(** What [sys_state] holds besides ["last_act"], which is always the
    very action object that is returned. *)
Record SysState : Type := mkSysState {
  lastRequestSlot : option string;
  lastInformedPrimKeyVal : option Value
}.

Definition empty_sys_state : SysState := mkSysState None None.

Section Methods.
Variable domain : Domain.
Variable rt : Runtime.

(** [self.domain_key], assigned once in [__init__] from
    [domain.get_primary_key()]. *)
Definition domain_key : string := get_primary_key domain.

Definition dialog_start (self : Policy) : Policy :=
  mkPolicy 0 true [] 0 (max_turns self).

Definition dontcare_slots (bs : BeliefState) : list string :=
  map fst (filter (fun kv => dict_mem (snd kv) "dontcare") (informs bs)).

(** The body of the inner loop of [_get_constraints]. *)
Definition add_constraint (slot : string) (slots : dict (list string))
    (value : string) : dict (list string) :=
  let slots' := if dict_mem slots slot then slots
                else dict_set slots slot [] in
  match dict_get slots' slot with
  | Some vs => dict_set slots' slot (vs ++ [value])
  | None => slots'
  end.

Definition _get_constraints (bs : BeliefState)
  : dict (list string) * list string :=
  let dontcare := dontcare_slots bs in
  let slots :=
    fold_left
      (fun slots kv =>
         if str_in (fst kv) dontcare then slots
         else fold_left (add_constraint (fst kv)) (dict_keys (snd kv)) slots)
      (informs bs) [] in
  (slots, dontcare).

Definition score_ge (x y : string * Q) : bool := Qle_bool (snd y) (snd x).

Definition _get_name (self : Policy) (bs : BeliefState)
  : Exc (option string) :=
  match dict_get (informs bs) (get_primary_key domain) with
  | Some possible_names =>
      match possible_names with
      | [] => ret None
      | _ =>
          let* best := py_index (py_sorted score_ge possible_names) 0 in
          ret (Some (fst best))
      end
  | None =>
      if s_index self <? Z.of_nat (List.length (current_suggestions self))
      then
        let* current_suggestion :=
          py_index (current_suggestions self) (s_index self) in
        match current_suggestion with
        | [] => ret None
        | _ => dict_item current_suggestion domain_key
        end
      else ret None
  end.

Definition _modfiy_db (self : Policy) (bs : BeliefState) (db : Db)
  : Exc Db :=
  let* db1 :=
    if truthy (given_rating bs) then
      let* given := py_float rt (match given_rating bs with
                                 | Some s => s | None => "" end) in
      let* name := _get_name self bs in
      ret (db ++ [EnterRating given name])
    else ret db in
  if truthy (review bs) then
    let r0 := match review bs with Some s => s | None => "" end in
    let r1 := str_replace dquote space (str_replace squote space r0) in
    let* name := _get_name self bs in
    ret (db1 ++ [EnterReview r1 name])
  else ret db1.

Definition _save_start_point (bs : BeliefState) : option string :=
  start_point bs.

Definition _calculate_distance_duration (self : Policy)
    (bs : BeliefState) (db : Db) : Exc (option string * option string) :=
  let sp := _save_start_point bs in
  let manner := distance_manner bs in
  let* name := _get_name self bs in
  ret (distance_duration domain db sp name manner).

Definition _query_opening_info (self : Policy) (bs : BeliefState)
    (db : Db) : Exc (option string) :=
  let* name := _get_name self bs in
  ret (query_opening_info domain db (req_openingday bs) name).

Definition _query_manner_info (self : Policy) (bs : BeliefState)
    (db : Db) : Exc (option string) :=
  let* name := _get_name self bs in
  ret (query_manner_info domain db (req_manner bs) name).

Definition nonempty {A} (l : list A) : bool :=
  match l with [] => false | _ => true end.

Definition _query_db (self : Policy) (bs : BeliefState) (db : Db)
  : Exc (list Row) :=
  let* name := _get_name self bs in
  if truthy name && nonempty (requests bs) then
    ret (find_info_about_entity domain db name (requests bs))
  else
    ret (find_entities domain db (fst (_get_constraints bs))).

Definition _get_open_slot (bs : BeliefState) : option string :=
  let filled_slots := fst (_get_constraints bs) in
  find (fun slot => negb (dict_mem filled_slots slot))
       (get_system_requestable_slots domain).

(** [values_dic[val] += 1] on a [defaultdict(int)]. *)
Definition count_incr (values_dic : list (Cell * Z)) (val : Cell)
  : list (Cell * Z) :=
  match PyDict.get cell_eqb values_dic val with
  | Some n => PyDict.set cell_eqb values_dic val (n + 1)
  | None => PyDict.set cell_eqb values_dic val (0 + 1)
  end.

Definition count_of (values_dic : list (Cell * Z)) (val : Cell) : Z :=
  match PyDict.get cell_eqb values_dic val with
  | Some n => n
  | None => 0
  end.

(** The body of the loop over [bin_slots] in [_highest_info_gain]. *)
Definition info_gain_step (temp : dict (list Cell)) (diffs : dict Z)
    (slot : string) : Exc (dict Z) :=
  match get_possible_values domain slot with
  | [val1; val2] =>
      let* column := dict_item temp slot in
      let values_dic := fold_left count_incr column [] in
      if PyDict.mem cell_eqb values_dic (Some val1)
         && PyDict.mem cell_eqb values_dic (Some val2)
      then ret (dict_set diffs slot
                  (Z.abs (count_of values_dic (Some val1)
                          - count_of values_dic (Some val2))))
      else ret diffs
  | _ => raise ValueError
  end.

Definition diff_le (x y : string * Z) : bool := snd x <=? snd y.

Definition _highest_info_gain (bin_slots : list string)
    (temp : dict (list Cell)) : Exc string :=
  let* diffs := foldM (info_gain_step temp) bin_slots [] in
  match diffs with
  | [] => ret ""
  | _ => let* best := py_index (py_sorted diff_le diffs) 0 in
         ret (fst best)
  end.

(** [len(set(l))] *)
Definition distinct_count (l : list Cell) : nat :=
  List.length (nodup cell_eq_dec l).

(** The loop over [non_bin_slots] in [_gen_next_request]: [Some slot]
    when it returns from inside the loop. *)
Fixpoint first_varying (temp : dict (list Cell)) (slots : list string)
  : Exc (option string) :=
  match slots with
  | [] => ret None
  | slot :: rest =>
      let* column := dict_item temp slot in
      if (1 <? distinct_count column)%nat then ret (Some slot)
      else first_varying temp rest
  end.

Definition open_req_slots (bs : BeliefState) : list string :=
  let '(constraints, dontcare) := _get_constraints bs in
  filter (fun s => negb (str_in s dontcare) && negb (dict_mem constraints s))
         (get_system_requestable_slots domain).

Definition bin_slots_of (bs : BeliefState) : list string :=
  filter (fun slot =>
            (List.length (get_possible_values domain slot) =? 2)%nat)
         (open_req_slots bs).

Definition non_bin_slots_of (bs : BeliefState) : list string :=
  filter (fun slot => negb (str_in slot (bin_slots_of bs)))
         (open_req_slots bs).

Definition _gen_next_request (temp : dict (list Cell)) (bs : BeliefState)
  : Exc string :=
  let bin_slots := bin_slots_of bs in
  let non_bin_slots := non_bin_slots_of bs in
  let* found := first_varying temp non_bin_slots in
  match found with
  | Some slot => ret slot
  | None => _highest_info_gain bin_slots temp
  end.

(** The column table [temp] of [_raw_action]: one (initially empty)
    column per key of the first row, filled row by row and key by key,
    the primary key left out. *)
Definition add_row (temp : dict (list Cell)) (result : Row)
  : Exc (dict (list Cell)) :=
  foldM (fun temp kv =>
           if negb (String.eqb (fst kv) domain_key)
           then dict_append temp (fst kv) (snd kv)
           else ret temp)
        result temp.

Definition empty_columns (row : Row) : dict (list Cell) :=
  fold_left (fun temp key => dict_set temp key []) (dict_keys row) [].

Definition build_temp (q_res : list Row) : Exc (dict (list Cell)) :=
  let* first := py_index q_res 0 in
  foldM add_row q_res (empty_columns first).

Definition _raw_action (q_res : list Row) (bs : BeliefState)
  : Exc SysAct :=
  let sys_act := new_SysAct in
  let* requested :=
    if (1 <? List.length q_res)%nat && negb (nonempty (requests bs)) then
      let* temp := build_temp q_res in
      let* next_req := _gen_next_request temp bs in
      if negb (String.eqb next_req "") then
        ret (Some (add_value (set_type sys_act Request) next_req None))
      else ret None
    else ret None in
  match requested with
  | Some act => ret act
  | None => ret (set_type sys_act InformByName)
  end.

(** *** The inform builder *)

(** [for c in constraints: sys_act.add_value(c, constraints[c])] *)
Definition add_constraints (sys_act : SysAct) (bs : BeliefState)
  : SysAct :=
  fold_left (fun act cv => add_value act (fst cv) (Some (VList (snd cv))))
            (fst (_get_constraints bs)) sys_act.

(** [result[k] and result[k] != 'None'] *)
Definition available (c : Cell) : bool :=
  match c with
  | Some s => negb (String.eqb s "") && negb (String.eqb s "None")
  | None => false
  end.

(** One iteration of the loop over [keys] in
    [_convert_inform_by_primkey]. *)
Definition primkey_step (sys_act : SysAct) (kv : string * Cell)
  : Exc SysAct :=
  let k := fst kv in
  let na := "not available" in
  let res := if available (snd kv)
             then match snd kv with Some s => s | None => na end
             else na in
  let* res :=
    if String.eqb k "opening_hours" && negb (String.eqb res na) then
      let* opening_hours := json_items rt res in
      ret (String.append nl
             (str_join nl
                (map (fun kv' =>
                        String.append (fst kv')
                          (String.append ": " (snd kv')))
                     opening_hours)))
    else ret res in
  let* res :=
    if String.eqb k "reviews" && negb (String.eqb res na) then
      let* reviews := json_elems rt (str_replace squote dquote res) in
      ret (String.append nl (str_join nl reviews))
    else ret res in
  let res :=
    if String.eqb k "parking_lot" && negb (String.eqb res na) then
      let res := if String.eqb res "0" then "no" else res in
      if String.eqb res "1" then "a" else res
    else res in
  let* res :=
    if String.eqb k "manner" && negb (String.eqb res na) then
      let* manner := json_elems rt res in
      ret (str_join ", " manner)
    else ret res in
  let res :=
    if String.eqb k "description" && negb (String.eqb res na) then
      String.append nl res
    else res in
  ret (add_value sys_act k (Some (VStr res))).

Definition opt_value (o : option string) : option Value :=
  match o with Some s => Some (VStr s) | None => None end.

Definition _convert_inform_by_primkey (self : Policy)
    (q_results : list Row) (sys_act : SysAct) (bs : BeliefState)
  : Exc SysAct :=
  let sys_act := set_type sys_act InformByName in
  match q_results with
  | result :: _ =>
      let keys := firstn 4 result in
      let* sys_act := foldM primkey_step keys sys_act in
      if negb (str_in domain_key (dict_keys keys)) then
        let* name := _get_name self bs in
        ret (add_value sys_act domain_key (opt_value name))
      else ret sys_act
  | [] => ret (add_value sys_act domain_key (Some (VStr "none")))
  end.

Definition _convert_inform_by_alternatives (self : Policy)
    (sys_act : SysAct) (q_res : list Row) (bs : BeliefState)
  : Exc (SysAct * Policy) :=
  let self :=
    if nonempty q_res && negb (nonempty (current_suggestions self)) then
      mkPolicy (turns self) (first_turn self) ([] ++ q_res) (-1)
               (max_turns self)
    else self in
  let self :=
    mkPolicy (turns self) (first_turn self) (current_suggestions self)
             (s_index self + 1) (max_turns self) in
  let* (sys_act, self) :=
    if s_index self <=? Z.of_nat (List.length (current_suggestions self)) - 1
    then
      let sys_act :=
        if s_index self =? 0 then set_type sys_act InformByName
        else set_type sys_act InformByAlternatives in
      let* result := py_index (current_suggestions self) (s_index self) in
      let* name := dict_item result domain_key in
      ret (add_value sys_act domain_key (opt_value name), self)
    else
      let sys_act := set_type sys_act InformByAlternatives in
      let self :=
        mkPolicy (turns self) (first_turn self) (current_suggestions self)
                 (Z.of_nat (List.length (current_suggestions self)) - 1)
                 (max_turns self) in
      ret (add_value sys_act (get_primary_key domain) (Some (VStr "none")),
           self) in
  ret (add_constraints sys_act bs, self).

Definition _convert_inform_by_constraints (self : Policy)
    (q_results : list Row) (sys_act : SysAct) (bs : BeliefState)
  : Exc (SysAct * Policy) :=
  let* (sys_act, self) :=
    if nonempty q_results then
      let self :=
        mkPolicy (turns self) (first_turn self) ([] ++ q_results) 0
                 (max_turns self) in
      let* result := py_index (current_suggestions self) 0 in
      let* name := dict_item result domain_key in
      ret (add_value sys_act domain_key (opt_value name), self)
    else
      ret (add_value sys_act domain_key (Some (VStr "none")), self) in
  let sys_act := set_type sys_act InformByName in
  ret (add_constraints sys_act bs, self).

Definition _convert_inform (self : Policy) (q_results : list Row)
    (sys_act : SysAct) (bs : BeliefState) : Exc (SysAct * Policy) :=
  if nonempty (requests bs)
     || dict_mem (informs bs) (get_primary_key domain) then
    let* sys_act := _convert_inform_by_primkey self q_results sys_act bs in
    ret (sys_act, self)
  else if act_in URequestAlternatives (user_acts bs) then
    _convert_inform_by_alternatives self sys_act q_results bs
  else
    _convert_inform_by_constraints self q_results sys_act bs.

(** *** The domain-specific decision *)

Definition is_type (a : SysAct) (t : SysActionType) : bool :=
  match act_type a with
  | Some t' => if sact_eq_dec t' t then true else false
  | None => false
  end.

Definition _next_action (self : Policy) (bs : BeliefState) (db : Db)
  : Exc (SysAct * SysState * Policy) :=
  let sys_state := empty_sys_state in
  let* reject :=
    if act_in UBad (user_acts bs) then ret true
    else if nonempty (requests bs) then
      let* name := _get_name self bs in ret (negb (truthy name))
    else ret false in
  if reject then
    ret (set_type new_SysAct Bad, sys_state, self)
  else if act_in URequestAlternatives (user_acts bs)
          && negb (nonempty (fst (_get_constraints bs))) then
    ret (set_type new_SysAct Bad, sys_state, self)
  else if dict_mem (informs bs) (get_primary_key domain)
          && negb (nonempty (requests bs)) then
    let* name := _get_name self bs in
    ret (add_value (set_type new_SysAct InformByName)
           (get_primary_key domain) (opt_value name),
         sys_state, self)
  else
    let* results := _query_db self bs db in
    let* sys_act := _raw_action results bs in
    if is_type sys_act Request then
      match dict_keys (slot_values sys_act) with
      | slot :: _ =>
          ret (sys_act, mkSysState (Some slot) None, self)
      | [] => ret (sys_act, sys_state, self)
      end
    else if is_type sys_act InformByName then
      let* (sys_act, self) := _convert_inform self results sys_act bs in
      match get_values sys_act (get_primary_key domain) with
      | v :: _ => ret (sys_act, mkSysState None (Some v), self)
      | [] =>
          ret (add_value sys_act (get_primary_key domain)
                 (Some (VStr "none")),
               sys_state, self)
      end
    else ret (sys_act, sys_state, self).

(** *** The turn dispatcher *)

Definition set_turns (self : Policy) (n : Z) : Policy :=
  mkPolicy n (first_turn self) (current_suggestions self) (s_index self)
           (max_turns self).

Definition set_first_turn (self : Policy) (b : bool) : Policy :=
  mkPolicy (turns self) b (current_suggestions self) (s_index self)
           (max_turns self).

(** [sys_act.type = SysActionType.Request; sys_act.add_value(slot='name')] *)
Definition request_name : SysAct :=
  add_value (set_type new_SysAct Request) "name" None.

Definition is_str (o : option string) (s : string) : bool :=
  match o with Some s' => String.eqb s' s | None => false end.

Definition is_none (o : option string) : bool :=
  match o with Some _ => false | None => true end.

(** [choose_sys_act]: the returned dictionary is the pair of the action
    and [sys_state]; the policy object and the store are returned as
    they are left.  [_get_name] reads but never assigns, so within a
    branch one evaluation stands for its repeated calls.  Logging and
    clearing the terminal are left out. *)
Definition choose_sys_act (self : Policy) (bs : BeliefState) (db : Db)
  : Exc (SysAct * SysState * Policy * Db) :=
  let self := set_turns self (turns self + 1) in
  let sys_state := empty_sys_state in
  if first_turn self && negb (nonempty (user_acts bs)) then
    ret (set_type new_SysAct Welcome, sys_state,
         set_first_turn self false, db)
  else if first_turn self && act_in UNewDialogue (user_acts bs) then
    ret (set_type new_SysAct Welcome, sys_state,
         set_first_turn self false, db)
  else
    let self := if first_turn self then set_first_turn self false
                else self in
    if max_turns self <=? turns self then
      ret (set_type new_SysAct Bye, sys_state, self, db)
    else
      let bs := set_user_acts bs (_remove_gen_actions (user_acts bs)) in
      let acts := user_acts bs in
      if act_in UBad acts then
        ret (set_type new_SysAct Bad, sys_state, self, db)
      else if act_in UBye acts then
        ret (set_type new_SysAct Bye, sys_state, self, db)
      else if act_in UThanks acts then
        ret (set_type new_SysAct RequestMore, sys_state, self, db)
      else if act_in UNewDialogue acts then
        ret (set_type new_SysAct Welcome, sys_state, dialog_start self, db)
      else if act_in UHello acts || act_in USelectDomain acts then
        ret (set_type new_SysAct GuideUser, sys_state, self, db)
      else if act_in UGiveRating acts then
        let* name := _get_name self bs in
        if truthy name then
          let sys_act :=
            add_value new_SysAct (get_primary_key domain) (opt_value name) in
          let sys_act :=
            add_value sys_act "ratings_givable"
                      (opt_value (given_rating bs)) in
          let sys_act := set_type sys_act ConfirmGiveRating in
          let* db := _modfiy_db self bs db in
          ret (sys_act, sys_state, self, db)
        else ret (request_name, sys_state, self, db)
      else if act_in UWriteReview acts then
        let* name := _get_name self bs in
        if truthy name then
          let sys_act :=
            add_value new_SysAct (get_primary_key domain) (opt_value name) in
          ret (set_type sys_act AskWriteReview, sys_state, self, db)
        else ret (request_name, sys_state, self, db)
      else if act_in UWrittenReview acts then
        let* name := _get_name self bs in
        let sys_act :=
          add_value new_SysAct (get_primary_key domain) (opt_value name) in
        let sys_act := add_value sys_act "review" (opt_value (review bs)) in
        let sys_act := set_type sys_act ConfirmWriteReview in
        let* db := _modfiy_db self bs db in
        ret (sys_act, sys_state, self, db)
      else if act_in UAskDistance acts then
        let* name := _get_name self bs in
        if truthy name then
          ret (set_type new_SysAct AskStartPoint, sys_state, self, db)
        else ret (request_name, sys_state, self, db)
      else if act_in UInformStartPoint acts then
        ret (set_type new_SysAct AskDistanceManner, sys_state, self, db)
      else if act_in UInformDistanceManner acts then
        let* (distance, duration) :=
          _calculate_distance_duration self bs db in
        if is_str distance "BadTravelManner"
           && is_str duration "BadTravelManner" then
          ret (set_type new_SysAct BadTravelManner, sys_state, self, db)
        else if is_none distance && is_none duration then
          ret (set_type new_SysAct BadAddress, sys_state, self, db)
        else
          let* name := _get_name self bs in
          let sys_act :=
            add_value new_SysAct (get_primary_key domain) (opt_value name) in
          let sys_act :=
            add_value sys_act "distance_manner"
                      (opt_value (distance_manner bs)) in
          let sys_act := add_value sys_act "distance" (opt_value distance) in
          let sys_act := add_value sys_act "duration" (opt_value duration) in
          ret (set_type sys_act InformDistance, sys_state, self, db)
      else if act_in UAskOpeningDay acts then
        let* name := _get_name self bs in
        if truthy name then
          let* opening_info := _query_opening_info self bs db in
          let sys_act :=
            add_value new_SysAct (get_primary_key domain) (opt_value name) in
          let sys_act :=
            add_value sys_act "opening_day"
                      (opt_value (req_openingday bs)) in
          let sys_act :=
            add_value sys_act "opening_info" (opt_value opening_info) in
          ret (set_type sys_act InformOpeningDay, sys_state, self, db)
        else ret (request_name, sys_state, self, db)
      else if act_in UAskManner acts then
        let* name := _get_name self bs in
        if truthy name then
          let* manner_info := _query_manner_info self bs db in
          let sys_act :=
            add_value new_SysAct (get_primary_key domain) (opt_value name) in
          let sys_act :=
            add_value sys_act "manner_info" (opt_value manner_info) in
          ret (set_type sys_act InformManner, sys_state, self, db)
        else ret (request_name, sys_state, self, db)
      else if act_in UNegativeInform acts then
        ret (set_type new_SysAct WhatDoYouWant, sys_state, self, db)
      else if act_in UHello acts || act_in USelectDomain acts then
        let sys_act :=
          match _get_open_slot bs with
          | Some slot =>
              if negb (String.eqb slot "") then
                add_value (set_type new_SysAct Request) slot None
              else set_type new_SysAct RequestMore
          | None => set_type new_SysAct RequestMore
          end in
        let self := if act_in USelectDomain acts then dialog_start self
                    else self in
        ret (sys_act, sys_state, set_first_turn self false, db)
      else
        let* (sys_act, sys_state, self) := _next_action self bs db in
        ret (sys_act, sys_state, self, db).
End Methods.

(** ** Sessions *)

(** The policy object as [__init__] and the framework's first
    [dialog_start] leave it. *)
Definition new_policy (max_turns : Z) : Policy := mkPolicy 0 true [] 0 max_turns.

(** A session: one call of [choose_sys_act] per incoming belief state;
    the actions are collected in order. *)
Fixpoint run (domain : Domain) (rt : Runtime) (self : Policy) (db : Db)
    (inputs : list BeliefState) : Exc (list SysAct * Policy * Db) :=
  match inputs with
  | [] => ret ([], self, db)
  | bs :: rest =>
      let* (sys_act, _, self, db) := choose_sys_act domain rt self bs db in
      let* (acts, self, db) := run domain rt self db rest in
      ret (sys_act :: acts, self, db)
  end.

(** ** A small domain to run the policy on *)

Module Demo.
Definition venue (name food area parking : string) : Row :=
  [("name", Some name); ("food", Some food); ("area", Some area);
   ("parking_lot", Some parking)].

Definition venues : list Row :=
  [venue "Alpha" "thai" "north" "1";
   venue "Beta" "thai" "north" "1";
   venue "Gamma" "greek" "south" "0"].

Definition matches (constraints : dict (list string)) (row : Row) : bool :=
  forallb
    (fun c : string * list string =>
       match dict_get row (fst c) with
       | Some (Some v) => str_in v (snd c)
       | _ => false
       end)
    constraints.

Definition domain : Domain := {|
  get_primary_key := "name";
  get_system_requestable_slots := ["food"; "area"; "parking_lot"];
  get_possible_values := fun slot =>
    if String.eqb slot "parking_lot" then ["0"; "1"]
    else if String.eqb slot "food" then ["thai"; "greek"; "pizza"]
    else if String.eqb slot "area" then ["north"; "south"; "east"]
    else [];
  find_entities := fun _ constraints => filter (matches constraints) venues;
  find_info_about_entity := fun _ name slots =>
    map (fun row => filter (fun kv => str_in (fst kv) slots) row)
        (filter (fun row =>
                   match dict_get row "name", name with
                   | Some (Some n), Some n' => String.eqb n n'
                   | _, _ => false
                   end) venues);
  distance_duration := fun _ _ _ _ => (None, None);
  query_opening_info := fun _ _ _ => None;
  query_manner_info := fun _ _ _ => None
|}.

Definition runtime : Runtime := {|
  py_float := fun s => if String.eqb s "4" then ret (4 # 1)
                       else raise ValueError;
  json_items := fun _ => raise JSONDecodeError;
  json_elems := fun _ => raise JSONDecodeError
|}.

Definition belief (acts : list UserActionType) (informs : dict (dict Q))
    (requests : list string) : BeliefState :=
  mkBeliefState acts informs requests None None None None None None.

Definition wants_thai : dict (dict Q) := [("food", [("thai", 1 # 1)])].

(** A second store, with two binary slots: all five cafes have wifi,
    three of them have a terrace. *)
Definition cafe (name kind wifi terrace : string) : Row :=
  [("name", Some name); ("kind", Some kind); ("wifi", Some wifi);
   ("terrace", Some terrace)].

Definition cafes : list Row :=
  [cafe "Uno" "bar" "yes" "yes"; cafe "Due" "bar" "yes" "yes";
   cafe "Tre" "bar" "yes" "yes"; cafe "Quattro" "bar" "yes" "no";
   cafe "Cinque" "bar" "yes" "no"].

Definition binary_values (slot : string) : list string :=
  if String.eqb slot "wifi" || String.eqb slot "terrace"
  then ["yes"; "no"] else [].

Definition cafe_domain : Domain := {|
  get_primary_key := "name";
  get_system_requestable_slots := ["kind"; "wifi"; "terrace"];
  get_possible_values := binary_values;
  find_entities := fun _ _ => cafes;
  find_info_about_entity := fun _ _ _ => [];
  distance_duration := fun _ _ _ _ => (None, None);
  query_opening_info := fun _ _ _ => None;
  query_manner_info := fun _ _ _ => None
|}.

(** A store whose primary key is a system-requestable slot. *)
Definition named_domain : Domain := {|
  get_primary_key := "name";
  get_system_requestable_slots := ["name"; "food"];
  get_possible_values := fun _ => [];
  find_entities := fun _ _ =>
    [venue "Alpha" "thai" "north" "1"; venue "Beta" "thai" "north" "1"];
  find_info_about_entity := fun _ _ _ => [];
  distance_duration := fun _ _ _ _ => (None, None);
  query_opening_info := fun _ _ _ => None;
  query_manner_info := fun _ _ _ => None
|}.
End Demo.

(** * Vocabulary of the properties *)

(** ** Filler suppression *)

(** The condition under which the loop of [_remove_gen_actions] stops. *)
Definition loop_done (l : list UserActionType) : Prop :=
  (List.length l <= 1)%nat \/
  (act_in UThanks l = false /\ act_in UBad l = false
   /\ act_in UHello l = false).

(** ** Constraints *)

(** What [_get_constraints] computes on a well-formed [informs]
    dictionary, as a comprehension. *)
Definition constraint_of (dontcare : list string) (kv : string * dict Q)
  : dict (list string) :=
  if str_in (fst kv) dontcare then []
  else match snd kv with
       | [] => []
       | _ => [(fst kv, dict_keys (snd kv))]
       end.

(** ** The scroll cursor and the turn budget *)

Definition cursor_valid (self : Policy) : Prop :=
  current_suggestions self <> [] ->
  0 <= s_index self < Z.of_nat (List.length (current_suggestions self)).

(** Rows as the store hands them out carry the primary key. *)
Definition has_key (k : string) (row : Row) : Prop := dict_mem row k = true.

(** The first two branches of [choose_sys_act]: whether the call is
    answered with the first-turn [Welcome]. *)
Definition welcomes (self : Policy) (bs : BeliefState) : bool :=
  first_turn self
  && (negb (nonempty (user_acts bs)) || act_in UNewDialogue (user_acts bs)).

Definition bye : SysAct := set_type new_SysAct Bye.

(** ** Reviews *)

(** The review "with every single-quote and double-quote character
    replaced by a space". *)
Fixpoint blank_quotes (s : string) : string :=
  match s with
  | EmptyString => EmptyString
  | String c s' =>
      String (if Ascii.eqb c squote || Ascii.eqb c dquote then space else c)
             (blank_quotes s')
  end.

Fixpoint occurs (c : ascii) (s : string) : Prop :=
  match s with
  | EmptyString => False
  | String c' s' => c' = c \/ occurs c s'
  end.

Definition quote_free (s : string) : Prop :=
  ~ occurs squote s /\ ~ occurs dquote s.

(** ** Entity details *)

Definition not_available : Value := VStr "not available".

(** The JSON-valued attributes of a cell decode. *)
Definition decodes (rt : Runtime) (k s : string) : Prop :=
  (k = "opening_hours" -> exists l, json_items rt s = inr l)
  /\ (k = "reviews" ->
      exists l, json_elems rt (str_replace squote dquote s) = inr l)
  /\ (k = "manner" -> exists l, json_elems rt s = inr l).

(** ** The column table and the binary slots *)

Section TableVocabulary.
Variable domain : Domain.
Variable temp : dict (list Cell).

Definition column_of (slot : string) : list Cell :=
match dict_get temp slot with Some c => c | None => [] end.

(** How many result rows hold value [v] for [slot]. *)
Definition occurrences (slot v : string) : Z :=
Z.of_nat (count_occ cell_eq_dec (column_of slot) (Some v)).

(** Both possible values of the slot occur among the rows. *)
Definition splits (slot : string) : bool :=
match get_possible_values domain slot with
| [v1; v2] => (0 <? occurrences slot v1) && (0 <? occurrences slot v2)
| _ => false
end.

(** The absolute difference between the two value counts. *)
Definition imbalance (slot : string) : Z :=
match get_possible_values domain slot with
| [v1; v2] => Z.abs (occurrences slot v1 - occurrences slot v2)
| _ => 0
end.

(** A binary slot that is a column of the table. *)
Definition binary_column (slot : string) : Prop :=
List.length (get_possible_values domain slot) = 2%nat
/\ dict_mem temp slot = true.

Definition record_split (diffs : dict Z) (slot : string) : dict Z :=
if splits slot then dict_set diffs slot (imbalance slot) else diffs.

(** The entries of [diffs] are slots that split, with their
  imbalance. *)
Definition faithful (diffs : dict Z) : Prop :=
NoDup (dict_keys diffs)
/\ forall k z, In (k, z) diffs -> z = imbalance k /\ splits k = true.

(** The column of [k] after one more row. *)
Definition column_after (temp : dict (list Cell)) (row : Row) (k : string)
: option (list Cell) :=
match dict_get row k with
| Some c =>
    if String.eqb k (get_primary_key domain) then dict_get temp k
    else option_map (fun col => col ++ [c]) (dict_get temp k)
| None => dict_get temp k
end.
End TableVocabulary.

(** The cells the rows hold under key [k], in row order. *)
Definition cells_of (k : string) (rows : list Row) : list Cell :=
  flat_map (fun row => match dict_get row k with
                       | Some c => [c]
                       | None => []
                       end) rows.

(** Rows of a query result: dictionaries over the keys of the first
    row. *)
Definition uniform_rows (first : Row) (rows : list Row) : Prop :=
  forall row, In row rows ->
              NoDup (dict_keys row)
              /\ forall k, In k (dict_keys row) <-> In k (dict_keys first).

(** All rows hold the same cell under key [k]. *)
Definition same_on (k : string) (rows : list Row) : Prop :=
  forall r1 r2, In r1 rows -> In r2 rows -> dict_get r1 k = dict_get r2 k.

(** ** Vocabulary of the further properties *)

(** The three acts [_remove_gen_actions] may delete. *)
Definition is_filler (a : UserActionType) : bool :=
  match a with
  | UThanks | UBad | UHello => true
  | _ => false
  end.

(** What is left of a list of fillers: one act, the last in the order
    in which the loop deletes them. *)
Definition surviving_filler (l : list UserActionType)
  : list UserActionType :=
  if act_in UHello l then [UHello]
  else if act_in UBad l then [UBad]
  else [UThanks].



(** ** Templates of the text generator

    Source: [adviser/services/nlg/templates/data/commands/template.py],
    class [Template].  Of a template only the slot names and the free
    parameter matter here; the variables of a [Memory] are taken by
    their names, in order. *)

Module Template.
(** [l.remove(x)] on a list of names: drops the first occurrence. *)
Fixpoint remove_name (x : string) (l : list string) : list string :=
  match l with
  | [] => []
  | y :: l' => if String.eqb y x then l' else y :: remove_name x l'
  end.

(** The loop of [is_applicable]: [None] when it returns [False] from
    inside, else the names left to check. *)
Fixpoint check_slots (slot_names slot_names_to_check : list string)
  : option (list string) :=
  match slot_names with
  | [] => Some slot_names_to_check
  | template_slot :: rest =>
      if negb (str_in template_slot slot_names_to_check) then None
      else check_slots rest (remove_name template_slot slot_names_to_check)
  end.

Definition is_applicable (slot_names : list string)
    (free_parameter : option string) (variables : list string) : bool :=
  match check_slots slot_names variables with
  | None => false
  | Some slot_names_to_check =>
      (List.length slot_names_to_check =? 0)%nat
      || match free_parameter with Some _ => true | None => false end
  end.
End Template.

(** * Properties *)

(** ** Filler suppression *)

Lemma remove_gen_actions_done l : loop_done (_remove_gen_actions l).
Proof.
  funelim (_remove_gen_actions l); try assumption.
  - left. apply Nat.ltb_ge. assumption.
  - right. auto.
Qed.

Lemma remove_gen_actions_fixed l :
  loop_done l -> _remove_gen_actions l = l.
Proof.
  intros Hdone.
  funelim (_remove_gen_actions l); try reflexivity; exfalso;
    destruct Hdone as [Hlen | (Ht & Hb & Hh)]; try congruence;
    match goal with
    | E : (1 <? _)%nat = true |- _ =>
        pose proof (proj1 (Nat.ltb_lt _ _) E); lia
    end.
Qed.

Lemma list_remove_nonempty a l :
  (1 < List.length l)%nat -> list_remove a l <> [].
Proof.
  destruct l as [|x [|y l]]; simpl; try lia.
  intros _. destruct (uact_eqb x a); discriminate.
Qed.

Lemma remove_gen_actions_nonempty l :
  l <> [] -> _remove_gen_actions l <> [].
Proof.
  funelim (_remove_gen_actions l); intros Hne; try assumption;
    match goal with
    | IH : _ -> _remove_gen_actions _ <> [] |- _ =>
        apply IH; apply list_remove_nonempty; apply Nat.ltb_lt; assumption
    end.
Qed.

(** C4.  Filler suppression is idempotent, and it leaves a non-empty
    action list non-empty. *)
Theorem remove_gen_actions_idempotent (l : list UserActionType) :
  _remove_gen_actions (_remove_gen_actions l) = _remove_gen_actions l
  /\ (l <> [] -> _remove_gen_actions l <> []).
Proof.
  split.
  - apply remove_gen_actions_fixed, remove_gen_actions_done.
  - apply remove_gen_actions_nonempty.
Qed.

Lemma remove_gen_actions_idempotent_witness :
  _remove_gen_actions [UHello; UInform; UThanks] <> [].
Proof.
  apply (proj2 (remove_gen_actions_idempotent [UHello; UInform; UThanks])).
  discriminate.
Defined.

(** ** Dictionaries and system actions *)

Section DictFacts.
Context {K V : Type} (eqb : K -> K -> bool).
Hypothesis eqb_eq : forall x y, eqb x y = true <-> x = y.

Lemma eqb_refl' x : eqb x x = true.
Proof. apply eqb_eq. reflexivity. Qed.

Lemma eqb_neq' x y : x <> y -> eqb x y = false.
Proof.
  intros H. destruct (eqb x y) eqn:E; [|reflexivity].
  apply eqb_eq in E. contradiction.
Qed.

Lemma get_set_same (d : list (K * V)) k v :
  PyDict.get eqb (PyDict.set eqb d k v) k = Some v.
Proof.
  induction d as [|[k' v'] d IH]; simpl.
  - rewrite eqb_refl'. reflexivity.
  - destruct (eqb k' k) eqn:E; simpl; rewrite E; auto.
Qed.

Lemma get_set_other (d : list (K * V)) k k' v :
  k <> k' ->
  PyDict.get eqb (PyDict.set eqb d k v) k' = PyDict.get eqb d k'.
Proof.
  intros Hne. induction d as [|[k0 v0] d IH]; simpl.
  - rewrite eqb_neq'; auto.
  - destruct (eqb k0 k) eqn:E; simpl.
    + apply eqb_eq in E. subst k0. rewrite eqb_neq'; auto.
    + rewrite IH. reflexivity.
Qed.

Lemma get_in (d : list (K * V)) k v :
  PyDict.get eqb d k = Some v -> In (k, v) d.
Proof.
  induction d as [|[k0 v0] d IH]; simpl; [discriminate|].
  destruct (eqb k0 k) eqn:E.
  - apply eqb_eq in E. intros [= ->]. subst. auto.
  - auto.
Qed.

Lemma get_none_notin (d : list (K * V)) k :
  PyDict.get eqb d k = None <-> ~ In k (PyDict.keys d).
Proof.
  induction d as [|[k0 v0] d IH]; simpl.
  - tauto.
  - destruct (eqb k0 k) eqn:E.
    + apply eqb_eq in E. split; [discriminate|]. intros H. tauto.
    + rewrite IH. split.
      * intros H [H1|H1]; [|tauto].
        subst. rewrite eqb_refl' in E. discriminate.
      * tauto.
Qed.

Lemma in_get_nodup (d : list (K * V)) k v :
  NoDup (PyDict.keys d) -> In (k, v) d -> PyDict.get eqb d k = Some v.
Proof.
  induction d as [|[k0 v0] d IH]; simpl; [tauto|].
  intros Hnd [H|H].
  - inversion H; subst. rewrite eqb_refl'. reflexivity.
  - inversion Hnd as [|? ? Hni Hnd']; subst.
    destruct (eqb k0 k) eqn:E.
    + apply eqb_eq in E. subst. exfalso. apply Hni.
      change k with (fst (k, v)). apply in_map. assumption.
    + auto.
Qed.

Lemma set_absent (d : list (K * V)) k v :
  PyDict.get eqb d k = None -> PyDict.set eqb d k v = d ++ [(k, v)].
Proof.
  induction d as [|[k0 v0] d IH]; simpl; [reflexivity|].
  destruct (eqb k0 k); [discriminate|].
  intros H. rewrite IH; auto.
Qed.

Lemma set_last (d : list (K * V)) k v v' :
  PyDict.get eqb d k = None ->
  PyDict.set eqb (d ++ [(k, v)]) k v' = d ++ [(k, v')].
Proof.
  induction d as [|[k0 v0] d IH]; simpl.
  - rewrite eqb_refl'. reflexivity.
  - destruct (eqb k0 k); [discriminate|].
    intros H. rewrite IH; auto.
Qed.

Lemma get_last (d : list (K * V)) k v :
  PyDict.get eqb d k = None -> PyDict.get eqb (d ++ [(k, v)]) k = Some v.
Proof.
  induction d as [|[k0 v0] d IH]; simpl.
  - rewrite eqb_refl'. reflexivity.
  - destruct (eqb k0 k); [discriminate|]. auto.
Qed.

Lemma keys_set (d : list (K * V)) k v :
  PyDict.keys (PyDict.set eqb d k v)
  = if PyDict.mem eqb d k then PyDict.keys d else PyDict.keys d ++ [k].
Proof.
  unfold PyDict.mem.
  induction d as [|[k0 v0] d IH]; simpl; [reflexivity|].
  destruct (eqb k0 k) eqn:E; simpl; [reflexivity|].
  rewrite IH. destruct (PyDict.get eqb d k); reflexivity.
Qed.
End DictFacts.

Lemma cell_eqb_eq (x y : Cell) : cell_eqb x y = true <-> x = y.
Proof.
  unfold cell_eqb. destruct (cell_eq_dec x y); split; congruence.
Qed.

Lemma uact_eqb_eq (x y : UserActionType) : uact_eqb x y = true <-> x = y.
Proof.
  unfold uact_eqb. destruct (uact_eq_dec x y); split; congruence.
Qed.

Lemma str_in_iff x l : str_in x l = true <-> In x l.
Proof.
  unfold str_in. rewrite existsb_exists. split.
  - intros (y & Hy & E). apply String.eqb_eq in E. subst. assumption.
  - intros H. exists x. split; [assumption|apply String.eqb_refl].
Qed.

Lemma act_in_iff a l : act_in a l = true <-> In a l.
Proof.
  unfold act_in. rewrite existsb_exists. split.
  - intros (y & Hy & E). apply uact_eqb_eq in E. subst. assumption.
  - intros H. exists a. split; [assumption|]. apply uact_eqb_eq. reflexivity.
Qed.

Lemma get_values_add_same a k v :
  get_values (add_value a k (Some v)) k = get_values a k ++ [v].
Proof.
  unfold get_values, add_value, dict_mem, dict_get, dict_set, PyDict.mem.
  destruct (PyDict.get String.eqb (slot_values a) k) as [vs|] eqn:E; simpl.
  - rewrite E. simpl. rewrite (get_set_same _ String.eqb_eq). reflexivity.
  - rewrite (get_set_same _ String.eqb_eq). simpl.
    rewrite (get_set_same _ String.eqb_eq). reflexivity.
Qed.

Lemma get_values_add_other a k k' v :
  k <> k' -> get_values (add_value a k v) k' = get_values a k'.
Proof.
  intros Hne.
  unfold get_values, add_value, dict_mem, dict_get, dict_set, PyDict.mem.
  destruct (PyDict.get String.eqb (slot_values a) k) as [vs|] eqn:E;
    destruct v as [v|]; simpl;
    repeat first
      [ rewrite E
      | rewrite (get_set_same _ String.eqb_eq)
      | rewrite (get_set_other _ String.eqb_eq) by assumption
      | progress simpl ];
    reflexivity.
Qed.

Lemma get_values_add_none a k :
  get_values (add_value a k None) k = get_values a k.
Proof.
  unfold get_values, add_value, dict_mem, dict_get, dict_set, PyDict.mem.
  destruct (PyDict.get String.eqb (slot_values a) k) as [vs|] eqn:E; simpl.
  - rewrite E. reflexivity.
  - rewrite (get_set_same _ String.eqb_eq). reflexivity.
Qed.

Lemma get_values_add_keeps a k k' v x :
  In x (get_values a k) -> In x (get_values (add_value a k' v) k).
Proof.
  intros H. destruct (string_dec k' k) as [->|Hne].
  - destruct v as [v|].
    + rewrite get_values_add_same. apply in_or_app. auto.
    + rewrite get_values_add_none. assumption.
  - rewrite get_values_add_other by assumption. assumption.
Qed.

Lemma get_values_set_type a t k :
  get_values (set_type a t) k = get_values a k.
Proof. reflexivity. Qed.

Lemma act_type_add_value a k v : act_type (add_value a k v) = act_type a.
Proof.
  unfold add_value. destruct v; [|reflexivity].
  destruct (dict_get _ k); reflexivity.
Qed.

(** ** Constraints *)

Section ConstraintFacts.

Lemma add_constraint_step slot (d : dict (list string)) acc v :
  dict_get d slot = None ->
  add_constraint slot (d ++ [(slot, acc)]) v = d ++ [(slot, acc ++ [v])].
Proof.
  intros Hd. unfold add_constraint, dict_mem, PyDict.mem, dict_get, dict_set.
  rewrite (get_last _ String.eqb_eq) by exact Hd.
  rewrite (get_last _ String.eqb_eq) by exact Hd.
  apply (set_last _ String.eqb_eq). exact Hd.
Qed.

Lemma add_constraint_fresh slot (d : dict (list string)) v :
  dict_get d slot = None ->
  add_constraint slot d v = d ++ [(slot, [v])].
Proof.
  intros Hd. unfold add_constraint, dict_mem, PyDict.mem.
  unfold dict_get in *. rewrite Hd. unfold dict_set.
  rewrite (set_absent String.eqb) by exact Hd.
  rewrite (get_last _ String.eqb_eq) by exact Hd.
  apply (set_last _ String.eqb_eq). exact Hd.
Qed.

Lemma add_constraint_more slot (d : dict (list string)) acc vs :
  dict_get d slot = None ->
  fold_left (add_constraint slot) vs (d ++ [(slot, acc)])
  = d ++ [(slot, acc ++ vs)].
Proof.
  intros Hd. revert acc.
  induction vs as [|v vs IH]; intros acc; simpl.
  - rewrite app_nil_r. reflexivity.
  - rewrite add_constraint_step by exact Hd.
    rewrite IH. rewrite <- app_assoc. reflexivity.
Qed.

Lemma add_constraint_first slot (d : dict (list string)) v vs :
  dict_get d slot = None ->
  fold_left (add_constraint slot) (v :: vs) d = d ++ [(slot, v :: vs)].
Proof.
  intros Hd. simpl. rewrite add_constraint_fresh by exact Hd.
  apply add_constraint_more. exact Hd.
Qed.

Lemma constraints_fold dontcare (l : dict (dict Q)) (d : dict (list string)) :
  NoDup (dict_keys l) ->
  (forall k, In k (dict_keys l) -> dict_get d k = None) ->
  fold_left
    (fun slots kv =>
       if str_in (fst kv) dontcare then slots
       else fold_left (add_constraint (fst kv)) (dict_keys (snd kv)) slots)
    l d
  = d ++ flat_map (constraint_of dontcare) l.
Proof.
  revert d. induction l as [|[k vals] l IH]; intros d Hnd Hfresh; simpl.
  - rewrite app_nil_r. reflexivity.
  - inversion Hnd as [|? ? Hni Hnd']; subst.
    assert (Hk : dict_get d k = None) by (apply Hfresh; simpl; auto).
    unfold constraint_of at 1. simpl.
    destruct (str_in k dontcare).
    + simpl. apply IH; [assumption|]. intros k' Hk'. apply Hfresh.
      simpl. auto.
    + destruct vals as [|[v q] vals].
      * simpl. apply IH; [assumption|]. intros k' Hk'. apply Hfresh.
        simpl. auto.
      * change (dict_keys ((v, q) :: vals)) with (v :: dict_keys vals).
        rewrite add_constraint_first by exact Hk.
        rewrite IH; [rewrite <- app_assoc; reflexivity|assumption|].
        intros k' Hk'.
        assert (Hne : k <> k') by (intros ->; contradiction).
        unfold dict_get.
        apply (get_none_notin _ String.eqb_eq).
        unfold PyDict.keys. rewrite map_app, in_app_iff. simpl.
        intros [H|[H|[]]]; [|contradiction].
        assert (Hd : dict_get d k' = None) by (apply Hfresh; simpl; auto).
        apply (get_none_notin _ String.eqb_eq) in Hd. contradiction.
Qed.

Lemma get_constraints_comprehension bs :
  NoDup (dict_keys (informs bs)) ->
  fst (_get_constraints bs)
  = flat_map (constraint_of (dontcare_slots bs)) (informs bs).
Proof.
  intros Hnd. unfold _get_constraints. simpl.
  rewrite constraints_fold; auto.
Qed.

Lemma dontcare_slots_iff bs slot :
  In slot (dontcare_slots bs) <->
  exists vals, In (slot, vals) (informs bs)
               /\ dict_mem vals "dontcare" = true.
Proof.
  unfold dontcare_slots. rewrite in_map_iff. split.
  - intros ([k vals] & Hk & Hin). simpl in Hk. subst.
    apply filter_In in Hin. destruct Hin as [Hin Hdc]. eauto.
  - intros (vals & Hin & Hdc). exists (slot, vals). split; [reflexivity|].
    apply filter_In. auto.
Qed.

Lemma in_keys_unique {V} (d : dict V) k v v' :
  NoDup (dict_keys d) -> In (k, v) d -> In (k, v') d -> v = v'.
Proof.
  intros Hnd H1 H2.
  apply (in_get_nodup _ String.eqb_eq _ _ _ Hnd) in H1.
  apply (in_get_nodup _ String.eqb_eq _ _ _ Hnd) in H2.
  congruence.
Qed.

(** The active constraints are the informed slots that have a value
    and no ["dontcare"] among their values, each with all its values. *)
Lemma get_constraints_iff bs slot vs :
  NoDup (dict_keys (informs bs)) ->
  In (slot, vs) (fst (_get_constraints bs)) <->
  exists vals, In (slot, vals) (informs bs) /\ vals <> []
               /\ dict_mem vals "dontcare" = false
               /\ vs = dict_keys vals.
Proof.
  intros Hnd. rewrite get_constraints_comprehension by assumption.
  rewrite in_flat_map. split.
  - intros ([k vals] & Hin & Hc). unfold constraint_of in Hc. simpl in Hc.
    destruct (str_in k (dontcare_slots bs)) eqn:Edc; [contradiction|].
    destruct vals as [|x vals]; [contradiction|].
    destruct Hc as [Hc|[]]. inversion Hc; subst.
    exists (x :: vals). repeat split; try assumption; try discriminate.
    destruct (dict_mem (x :: vals) "dontcare") eqn:E; [|reflexivity].
    assert (In slot (dontcare_slots bs))
      by (apply dontcare_slots_iff; eauto).
    apply str_in_iff in H. congruence.
  - intros (vals & Hin & Hne & Hdc & ->). exists (slot, vals).
    split; [assumption|]. unfold constraint_of. simpl.
    destruct (str_in slot (dontcare_slots bs)) eqn:Edc.
    + apply str_in_iff, dontcare_slots_iff in Edc.
      destruct Edc as (vals' & Hin' & Hdc').
      rewrite (in_keys_unique _ _ _ _ Hnd Hin Hin') in Hdc. congruence.
    + destruct vals; [congruence|]. simpl. auto.
Qed.
End ConstraintFacts.

(** ** Echoing the constraints *)

Lemma fold_add_keeps (cs : dict (list string)) a k x :
  In x (get_values a k) ->
  In x (get_values
          (fold_left
             (fun act cv => add_value act (fst cv) (Some (VList (snd cv))))
             cs a) k).
Proof.
  revert a. induction cs as [|[c vs] cs IH]; intros a H; cbn [fold_left];
    [assumption|].
  apply IH. apply get_values_add_keeps. assumption.
Qed.

Lemma fold_add_in (cs : dict (list string)) a c vs :
  In (c, vs) cs ->
  In (VList vs)
     (get_values
        (fold_left
           (fun act cv => add_value act (fst cv) (Some (VList (snd cv))))
           cs a) c).
Proof.
  revert a. induction cs as [|[c' vs'] cs IH]; intros a H; cbn [fold_left];
    [contradiction|].
  destruct H as [H|H].
  - inversion H; subst. apply fold_add_keeps. cbn [fst snd].
    rewrite get_values_add_same. apply in_or_app. right. left. reflexivity.
  - apply IH. assumption.
Qed.

Lemma fold_add_type (cs : dict (list string)) a :
  act_type
    (fold_left
       (fun act cv => add_value act (fst cv) (Some (VList (snd cv))))
       cs a)
  = act_type a.
Proof.
  revert a. induction cs as [|[c vs] cs IH]; intros a; cbn [fold_left];
    [reflexivity|].
  rewrite IH. apply act_type_add_value.
Qed.

Lemma add_constraints_spec a bs :
  act_type (add_constraints a bs) = act_type a
  /\ (forall k x, In x (get_values a k) ->
                  In x (get_values (add_constraints a bs) k))
  /\ (forall c vs, In (c, vs) (fst (_get_constraints bs)) ->
                   In (VList vs) (get_values (add_constraints a bs) c)).
Proof.
  unfold add_constraints. repeat split.
  - apply fold_add_type.
  - intros. apply fold_add_keeps. assumption.
  - intros. apply fold_add_in. assumption.
Qed.

(** C8.  A constraint-based inform on an empty query result is an
    [InformByName] whose primary-key slot carries ["none"] and which
    carries, for every informed slot that has a value and is not marked
    ["dontcare"], the list of all values informed for it; the policy
    object is left as it was. *)
Theorem inform_by_constraints_no_rows
    (domain : Domain) (self : Policy) (sys_act : SysAct) (bs : BeliefState) :
  NoDup (dict_keys (informs bs)) ->
  exists act,
    _convert_inform_by_constraints domain self [] sys_act bs
    = inr (act, self)
    /\ act_type act = Some InformByName
    /\ In (VStr "none") (get_values act (get_primary_key domain))
    /\ (forall slot vals,
          In (slot, vals) (informs bs) -> vals <> [] ->
          dict_mem vals "dontcare" = false ->
          In (VList (dict_keys vals)) (get_values act slot)).
Proof.
  intros Hnd. eexists. split; [reflexivity|].
  destruct (add_constraints_spec
              (set_type (add_value sys_act (domain_key domain)
                           (Some (VStr "none"))) InformByName) bs)
    as (Ht & Hkeep & Hin).
  split; [|split].
  - rewrite Ht. reflexivity.
  - apply Hkeep. rewrite get_values_set_type.
    unfold domain_key. rewrite get_values_add_same.
    apply in_or_app. right. left. reflexivity.
  - intros slot vals Hslot Hne Hdc. apply Hin.
    apply get_constraints_iff; [assumption|]. eauto.
Qed.

(** ** The scroll cursor *)

Lemma nonempty_length {A} (l : list A) :
  nonempty l = true <-> (0 < List.length l)%nat.
Proof. destruct l; simpl; split; intros; try lia; congruence. Qed.

Lemma nonempty_false {A} (l : list A) : nonempty l = false <-> l = [].
Proof. destruct l; simpl; split; intros; congruence. Qed.

Arguments add_value : simpl never.
Arguments set_type : simpl never.
Arguments add_constraints : simpl never.
Arguments py_index : simpl never.
Arguments dict_item : simpl never.

(** Inversion of a computation that returned. *)
Ltac exc_inv :=
  repeat match goal with
    | H : bind ?m _ = inr _ |- _ =>
        let E := fresh "E" in destruct m eqn:E; cbn [bind] in H; [discriminate|]
    | H : ret _ = inr _ |- _ => unfold ret in H
    | H : inr _ = inr _ |- _ => inversion H; subst; clear H
    | H : inl _ = inr _ |- _ => discriminate
    | H : (let (_, _) := ?p in _) = inr _ |- _ => destruct p
    | H : (if ?c then _ else _) = inr _ |- _ =>
        let E := fresh "E" in destruct c eqn:E
    | H : match ?x with [] => _ | _ :: _ => _ end = inr _ |- _ =>
        let E := fresh "E" in destruct x eqn:E
    end.

Lemma alternatives_cursor domain self sys_act q_res bs act self' :
  cursor_valid self ->
  _convert_inform_by_alternatives domain self sys_act q_res bs
  = inr (act, self') ->
  cursor_valid self'.
Proof.
  unfold _convert_inform_by_alternatives, cursor_valid.
  intros Hv H.
  destruct (nonempty q_res && negb (nonempty (current_suggestions self)))
    eqn:Efresh; cbn [current_suggestions s_index turns first_turn max_turns] in H.
  - apply andb_true_iff in Efresh. destruct Efresh as [Hq _].
    apply nonempty_length in Hq. cbn [app] in H.
    exc_inv; cbn [current_suggestions s_index]; intros _; lia.
  - exc_inv; cbn [current_suggestions s_index]; intros Hne.
    + specialize (Hv Hne). lia.
    + assert (0 < List.length (current_suggestions self))%nat
        by (destruct (current_suggestions self); simpl; [congruence|lia]).
      lia.
Qed.

Lemma constraints_cursor domain self sys_act q_results bs act self' :
  cursor_valid self ->
  _convert_inform_by_constraints domain self q_results sys_act bs
  = inr (act, self') ->
  cursor_valid self'.
Proof.
  unfold _convert_inform_by_constraints, cursor_valid.
  intros Hv H.
  destruct (nonempty q_results) eqn:Eq;
    cbn [current_suggestions s_index turns first_turn max_turns app] in H.
  - apply nonempty_length in Eq.
    exc_inv; cbn [current_suggestions s_index]; intros _; lia.
  - exc_inv. assumption.
Qed.

Lemma convert_inform_cursor domain rt self q_results sys_act bs act self' :
  cursor_valid self ->
  _convert_inform domain rt self q_results sys_act bs = inr (act, self') ->
  cursor_valid self'.
Proof.
  unfold _convert_inform. intros Hv H.
  destruct (nonempty (requests bs) || dict_mem (informs bs) (get_primary_key domain)).
  - exc_inv. assumption.
  - destruct (act_in URequestAlternatives (user_acts bs)).
    + eapply alternatives_cursor; eassumption.
    + eapply constraints_cursor; eassumption.
Qed.

Lemma next_action_cursor domain rt self bs db act st self' :
  cursor_valid self ->
  _next_action domain rt self bs db = inr (act, st, self') ->
  cursor_valid self'.
Proof.
  unfold _next_action. intros Hv H.
  exc_inv; try assumption;
    eapply convert_inform_cursor; eassumption.
Qed.

Lemma cursor_valid_fields self self' :
  current_suggestions self' = current_suggestions self ->
  s_index self' = s_index self ->
  cursor_valid self -> cursor_valid self'.
Proof. unfold cursor_valid. intros -> ->. auto. Qed.

Lemma dialog_start_cursor self : cursor_valid (dialog_start self).
Proof. unfold cursor_valid, dialog_start. simpl. congruence. Qed.

Lemma choose_sys_act_cursor domain rt self bs db act st self' db' :
  cursor_valid self ->
  choose_sys_act domain rt self bs db = inr (act, st, self', db') ->
  cursor_valid self'.
Proof.
  unfold choose_sys_act. intros Hv H.
  assert (Hv1 : cursor_valid (set_turns self (turns self + 1)))
    by (eapply cursor_valid_fields; [| |exact Hv]; reflexivity).
  remember (set_turns self (turns self + 1)) as self1.
  assert (Hv2 : cursor_valid
                  (if first_turn self1 then set_first_turn self1 false
                   else self1))
    by (destruct (first_turn self1); [|assumption];
        eapply cursor_valid_fields; [| |exact Hv1]; reflexivity).
  remember (if first_turn self1 then set_first_turn self1 false else self1)
    as self2.
  clear Heqself1 Heqself2.
  exc_inv;
    first
      [ assumption
      | apply dialog_start_cursor
      | eapply next_action_cursor; eassumption
      | eapply cursor_valid_fields; [| |eassumption]; reflexivity
      | eapply cursor_valid_fields; [| |apply dialog_start_cursor]; reflexivity ].
Qed.

Lemma run_cursor domain rt inputs :
  forall self db acts self' db',
    cursor_valid self ->
    run domain rt self db inputs = inr (acts, self', db') ->
    cursor_valid self'.
Proof.
  induction inputs as [|bs inputs IH]; intros self db acts self' db' Hv H;
    cbn [run] in H.
  - exc_inv. assumption.
  - destruct (choose_sys_act domain rt self bs db)
      as [e|[[[a st] self1] db1]] eqn:E1; cbn [bind] in H; [discriminate|].
    destruct (run domain rt self1 db1 inputs)
      as [e|[[acts2 self2] db2]] eqn:E2; cbn [bind] in H; [discriminate|].
    exc_inv. eapply IH; [|eassumption].
    eapply choose_sys_act_cursor; eassumption.
Qed.

Lemma py_index_in_range {A} (l : list A) i :
  0 <= i < Z.of_nat (List.length l) ->
  exists a, py_index l i = inr a /\ In a l.
Proof.
  intros Hi. unfold py_index.
  replace (i <? 0) with false by (symmetry; apply Z.ltb_ge; lia).
  replace ((0 <=? i) && (i <? Z.of_nat (List.length l))) with true
    by (symmetry; apply andb_true_iff; split;
        [apply Z.leb_le|apply Z.ltb_lt]; lia).
  destruct (nth_error l (Z.to_nat i)) as [a|] eqn:E.
  - exists a. split; [reflexivity|]. eapply nth_error_In; eassumption.
  - apply nth_error_None in E. lia.
Qed.

Lemma dict_item_has_key (row : Row) k :
  has_key k row -> exists c, dict_item row k = inr c.
Proof.
  unfold has_key, dict_item, dict_mem, PyDict.mem, dict_get.
  destruct (PyDict.get String.eqb row k); [eauto|discriminate].
Qed.

Lemma alternatives_returns domain self sys_act q_res bs :
  cursor_valid self ->
  -1 <= s_index self ->
  Forall (has_key (get_primary_key domain)) (current_suggestions self) ->
  Forall (has_key (get_primary_key domain)) q_res ->
  exists act self',
    _convert_inform_by_alternatives domain self sys_act q_res bs
    = inr (act, self').
Proof.
  unfold _convert_inform_by_alternatives, cursor_valid.
  intros Hv Hlow Hcur Hq.
  destruct (nonempty q_res && negb (nonempty (current_suggestions self)))
    eqn:Efresh; cbn [current_suggestions s_index turns first_turn max_turns app].
  - apply andb_true_iff in Efresh. destruct Efresh as [Hne _].
    apply nonempty_length in Hne.
    replace (-1 + 1 <=? Z.of_nat (List.length q_res) - 1) with true
      by (symmetry; apply Z.leb_le; lia).
    destruct (py_index_in_range q_res (-1 + 1)) as (row & -> & Hin); [lia|].
    rewrite Forall_forall in Hq.
    destruct (dict_item_has_key row _ (Hq row Hin)) as (c & Hc).
    cbn [bind]. unfold domain_key. rewrite Hc. cbn [bind ret]. eauto.
  - destruct (s_index self + 1
              <=? Z.of_nat (List.length (current_suggestions self)) - 1)
      eqn:Ele; [|cbn [bind ret]; eauto].
    apply Z.leb_le in Ele.
    destruct (py_index_in_range (current_suggestions self) (s_index self + 1))
      as (row & -> & Hin); [lia|].
    rewrite Forall_forall in Hcur.
    destruct (dict_item_has_key row _ (Hcur row Hin)) as (c & Hc).
    cbn [bind]. unfold domain_key. rewrite Hc. cbn [bind ret]. eauto.
Qed.

Lemma constraints_returns domain self sys_act q_results bs :
  Forall (has_key (get_primary_key domain)) q_results ->
  exists act self',
    _convert_inform_by_constraints domain self q_results sys_act bs
    = inr (act, self').
Proof.
  unfold _convert_inform_by_constraints. intros Hq.
  destruct (nonempty q_results) eqn:Eq;
    cbn [current_suggestions s_index turns first_turn max_turns app];
    [|cbn [bind ret]; eauto].
  apply nonempty_length in Eq.
  destruct (py_index_in_range q_results 0) as (row & -> & Hin); [lia|].
  rewrite Forall_forall in Hq.
  destruct (dict_item_has_key row _ (Hq row Hin)) as (c & Hc).
  cbn [bind]. unfold domain_key. rewrite Hc. cbn [bind ret]. eauto.
Qed.

(** C7.  The scroll cursor is an index into the candidate list whenever
    that list is non-empty: this holds of a fresh policy and after
    [dialog_start], and alternative scrolling, the constraint-based
    inform, a whole turn and a whole session keep it; on rows that
    carry the primary key the two inform builders do return. *)
Theorem cursor_stays_valid :
  (forall m, cursor_valid (new_policy m))
  /\ (forall self, cursor_valid (dialog_start self))
  /\ (forall domain self sys_act q_res bs act self',
        cursor_valid self ->
        _convert_inform_by_alternatives domain self sys_act q_res bs
        = inr (act, self') ->
        cursor_valid self')
  /\ (forall domain self sys_act q_results bs act self',
        cursor_valid self ->
        _convert_inform_by_constraints domain self q_results sys_act bs
        = inr (act, self') ->
        cursor_valid self')
  /\ (forall domain rt self bs db act st self' db',
        cursor_valid self ->
        choose_sys_act domain rt self bs db = inr (act, st, self', db') ->
        cursor_valid self')
  /\ (forall domain rt inputs self db acts self' db',
        cursor_valid self ->
        run domain rt self db inputs = inr (acts, self', db') ->
        cursor_valid self')
  /\ (forall domain self sys_act q_res bs,
        cursor_valid self ->
        -1 <= s_index self ->
        Forall (has_key (get_primary_key domain)) (current_suggestions self) ->
        Forall (has_key (get_primary_key domain)) q_res ->
        exists act self',
          _convert_inform_by_alternatives domain self sys_act q_res bs
          = inr (act, self'))
  /\ (forall domain self sys_act q_results bs,
        Forall (has_key (get_primary_key domain)) q_results ->
        exists act self',
          _convert_inform_by_constraints domain self q_results sys_act bs
          = inr (act, self')).
Proof.
  split; [intros m Hne; exfalso; apply Hne; reflexivity|].
  split; [exact dialog_start_cursor|].
  split; [exact alternatives_cursor|].
  split; [exact constraints_cursor|].
  split; [exact choose_sys_act_cursor|].
  split; [exact run_cursor|].
  split; [exact alternatives_returns|exact constraints_returns].
Qed.

Lemma cursor_stays_valid_witness :
  cursor_valid
    (mkPolicy 3 false
       [Demo.venue "Alpha" "thai" "north" "1";
        Demo.venue "Beta" "thai" "north" "1"] 1 25).
Proof.
  destruct cursor_stays_valid as (Hnew & _ & _ & _ & _ & Hrun & _).
  apply (Hrun Demo.domain Demo.runtime
           [Demo.belief [UInform] Demo.wants_thai [];
            Demo.belief [URequestAlternatives] Demo.wants_thai [];
            Demo.belief [URequestAlternatives] Demo.wants_thai []]
           (new_policy 25) []
           [mkSysAct (Some InformByName)
              [("name", [VStr "Alpha"]); ("food", [VList ["thai"]])];
            mkSysAct (Some InformByAlternatives)
              [("name", [VStr "Beta"]); ("food", [VList ["thai"]])];
            mkSysAct (Some InformByAlternatives)
              [("name", [VStr "none"]); ("food", [VList ["thai"]])]]
           _ []).
  - apply Hnew.
  - vm_compute. reflexivity.
Defined.

(** ** Scrolling past the last candidate *)

Lemma alternatives_past_end domain self sys_act q_res bs :
  current_suggestions self <> [] ->
  Z.of_nat (List.length (current_suggestions self)) - 1 <= s_index self ->
  _convert_inform_by_alternatives domain self sys_act q_res bs
  = inr (add_constraints
           (add_value (set_type sys_act InformByAlternatives)
              (get_primary_key domain) (Some (VStr "none"))) bs,
         mkPolicy (turns self) (first_turn self) (current_suggestions self)
           (Z.of_nat (List.length (current_suggestions self)) - 1)
           (max_turns self)).
Proof.
  intros Hne Hend. unfold _convert_inform_by_alternatives.
  replace (nonempty (current_suggestions self)) with true
    by (destruct (current_suggestions self); [congruence|reflexivity]).
  rewrite andb_false_r.
  cbn [current_suggestions s_index turns first_turn max_turns].
  replace (s_index self + 1
           <=? Z.of_nat (List.length (current_suggestions self)) - 1)
    with false by (symmetry; apply Z.leb_gt; lia).
  reflexivity.
Qed.

(** C2.  Scrolling past the last candidate: in a session that offered
    Alpha and then Beta, the last of the two matching candidates, every
    further request for alternatives is answered with ["none"] in the
    primary-key slot, while the cursor stays on Beta. *)
Theorem alternatives_past_end_emit_none :
  run Demo.domain Demo.runtime (new_policy 25) []
    [Demo.belief [UInform] Demo.wants_thai [];
     Demo.belief [URequestAlternatives] Demo.wants_thai [];
     Demo.belief [URequestAlternatives] Demo.wants_thai [];
     Demo.belief [URequestAlternatives] Demo.wants_thai []]
  = inr ([mkSysAct (Some InformByName)
            [("name", [VStr "Alpha"]); ("food", [VList ["thai"]])];
          mkSysAct (Some InformByAlternatives)
            [("name", [VStr "Beta"]); ("food", [VList ["thai"]])];
          mkSysAct (Some InformByAlternatives)
            [("name", [VStr "none"]); ("food", [VList ["thai"]])];
          mkSysAct (Some InformByAlternatives)
            [("name", [VStr "none"]); ("food", [VList ["thai"]])]],
         mkPolicy 4 false
           [Demo.venue "Alpha" "thai" "north" "1";
            Demo.venue "Beta" "thai" "north" "1"] 1 25,
         []).
Proof. vm_compute. reflexivity. Qed.

(** ** The turn budget *)

Lemma cutoff_step domain rt self bs db :
  welcomes self bs = false ->
  max_turns self <= turns self + 1 ->
  choose_sys_act domain rt self bs db
  = inr (bye, empty_sys_state,
         mkPolicy (turns self + 1) false (current_suggestions self)
           (s_index self) (max_turns self),
         db).
Proof.
  unfold welcomes, choose_sys_act, set_turns, set_first_turn.
  intros Hw Hmax.
  cbn [first_turn turns max_turns current_suggestions s_index].
  destruct (first_turn self); cbn [andb] in *.
  - apply orb_false_iff in Hw. destruct Hw as [-> ->].
    cbn [first_turn turns max_turns current_suggestions s_index].
    replace (max_turns self <=? turns self + 1) with true
      by (symmetry; apply Z.leb_le; assumption).
    reflexivity.
  - cbn [first_turn turns max_turns current_suggestions s_index].
    replace (max_turns self <=? turns self + 1) with true
      by (symmetry; apply Z.leb_le; assumption).
    reflexivity.
Qed.

(** C1 as stated fails: with a budget of 0 (or 1) turns the count has
    reached the maximum on the first turn, and an empty user-action set
    is still answered with [Welcome]. *)
Lemma cutoff_first_turn_welcome :
  max_turns (new_policy 0) <= turns (new_policy 0)
  /\ choose_sys_act Demo.domain Demo.runtime (new_policy 0)
       (Demo.belief [] [] []) []
     = inr (set_type new_SysAct Welcome, empty_sys_state,
            mkPolicy 1 false [] 0 0, [])
  /\ choose_sys_act Demo.domain Demo.runtime (new_policy 1)
       (Demo.belief [] [] []) []
     = inr (set_type new_SysAct Welcome, empty_sys_state,
            mkPolicy 1 false [] 0 1, [])
  /\ act_type (set_type new_SysAct Welcome) <> Some Bye.
Proof.
  split; [vm_compute; discriminate|].
  split; [reflexivity|]. split; [reflexivity|]. discriminate.
Qed.

(** C1 (amended).  A call that is not answered with the first-turn
    [Welcome] and whose turn count has reached the budget returns [Bye]
    and changes nothing but the turn count and the first-turn flag; so
    once the flag is cleared and the budget is reached, a session
    returns [Bye] on every call, whatever the belief states hold. *)
Theorem cutoff_forces_bye (domain : Domain) (rt : Runtime) :
  (forall self bs db,
      welcomes self bs = false ->
      max_turns self <= turns self + 1 ->
      choose_sys_act domain rt self bs db
      = inr (bye, empty_sys_state,
             mkPolicy (turns self + 1) false (current_suggestions self)
               (s_index self) (max_turns self),
             db))
  /\ (forall inputs self db,
        first_turn self = false ->
        max_turns self <= turns self + 1 ->
        run domain rt self db inputs
        = inr (map (fun _ => bye) inputs,
               mkPolicy (turns self + Z.of_nat (List.length inputs)) false
                 (current_suggestions self) (s_index self) (max_turns self),
               db)).
Proof.
  split; [intros; apply cutoff_step; assumption|].
  induction inputs as [|bs inputs IH]; intros self db Hft Hmax.
  - cbn [run map List.length]. unfold ret. rewrite Z.add_0_r.
    destruct self; simpl in *. subst. reflexivity.
  - cbn [run]. rewrite cutoff_step;
      [|unfold welcomes; rewrite Hft; reflexivity|assumption].
    cbn [bind]. rewrite IH; cbn [first_turn turns max_turns]; [|reflexivity|lia].
    cbn [bind ret map current_suggestions s_index max_turns turns].
    change (List.length (bs :: inputs)) with (S (List.length inputs)).
    rewrite Nat2Z.inj_succ.
    replace (turns self + Z.succ (Z.of_nat (List.length inputs)))
      with (turns self + 1 + Z.of_nat (List.length inputs)) by lia.
    reflexivity.
Qed.

Lemma cutoff_forces_bye_witness :
  run Demo.domain Demo.runtime (mkPolicy 24 false [] 0 25) []
    [Demo.belief [] [] []; Demo.belief [UHello] [] [];
     Demo.belief [UNewDialogue] [] []]
  = inr ([bye; bye; bye], mkPolicy 27 false [] 0 25, []).
Proof.
  apply (proj2 (cutoff_forces_bye Demo.domain Demo.runtime)
           [Demo.belief [] [] []; Demo.belief [UHello] [] [];
            Demo.belief [UNewDialogue] [] []]
           (mkPolicy 24 false [] 0 25) []).
  - reflexivity.
  - vm_compute. discriminate.
Defined.

(** ** Greetings *)

Lemma find_split {A} (f : A -> bool) (l : list A) x :
  find f l = Some x <->
  exists pre post, l = pre ++ x :: post /\ f x = true
                   /\ forall y, In y pre -> f y = false.
Proof.
  split.
  - induction l as [|a l IH]; simpl; [discriminate|].
    destruct (f a) eqn:E.
    + intros [= ->]. exists [], l. repeat split; auto. intros y [].
    + intros H. destruct (IH H) as (pre & post & -> & Hx & Hpre).
      exists (a :: pre), post. repeat split; auto.
      intros y [<-|Hy]; auto.
  - intros (pre & post & -> & Hx & Hpre).
    induction pre as [|a pre IH]; simpl.
    + rewrite Hx. reflexivity.
    + rewrite (Hpre a) by (simpl; auto). apply IH.
      intros y Hy. apply Hpre. simpl. auto.
Qed.

(** The slot [_get_open_slot] picks: the first system-requestable slot
    that is no key of the constraints. *)
Lemma get_open_slot_first domain bs :
  (forall slot,
      _get_open_slot domain bs = Some slot <->
      exists pre post,
        get_system_requestable_slots domain = pre ++ slot :: post
        /\ dict_mem (fst (_get_constraints bs)) slot = false
        /\ forall s, In s pre ->
                     dict_mem (fst (_get_constraints bs)) s = true)
  /\ (_get_open_slot domain bs = None <->
      forall s, In s (get_system_requestable_slots domain) ->
                dict_mem (fst (_get_constraints bs)) s = true).
Proof.
  unfold _get_open_slot. split.
  - intros slot. rewrite find_split. split;
      intros (pre & post & Hl & Hx & Hpre); exists pre, post;
      (split; [assumption|]); split.
    + apply negb_true_iff. assumption.
    + intros s Hs. apply negb_false_iff. auto.
    + apply negb_true_iff. assumption.
    + intros s Hs. apply negb_false_iff. auto.
  - split.
    + intros H s Hs. apply negb_false_iff.
      exact (find_none _ _ H s Hs).
    + intros H.
      destruct (find _ _) as [x|] eqn:E; [|reflexivity].
      apply find_some in E. destruct E as [Hin Hx].
      rewrite (H x Hin) in Hx. discriminate.
Qed.

(** C3 as stated fails: a lone [Hello] is answered with [GuideUser]
    although a requestable slot, ["food"], is still open. *)
Lemma hello_is_not_a_request :
  choose_sys_act Demo.domain Demo.runtime (mkPolicy 1 false [] 0 25)
    (Demo.belief [UHello] [] []) []
  = inr (mkSysAct (Some GuideUser) [], empty_sys_state,
         mkPolicy 2 false [] 0 25, [])
  /\ _get_open_slot Demo.domain (Demo.belief [UHello] [] []) = Some "food"
  /\ Some GuideUser <> Some Request.
Proof.
  split; [reflexivity|]. split; [reflexivity|]. discriminate.
Qed.

Lemma hello_branch
    (domain : Domain) (rt : Runtime) (self : Policy) (bs : BeliefState)
    (db : Db) :
  welcomes self bs = false ->
  turns self + 1 < max_turns self ->
  act_in UBad (_remove_gen_actions (user_acts bs)) = false ->
  act_in UBye (_remove_gen_actions (user_acts bs)) = false ->
  act_in UThanks (_remove_gen_actions (user_acts bs)) = false ->
  act_in UNewDialogue (_remove_gen_actions (user_acts bs)) = false ->
  act_in UHello (_remove_gen_actions (user_acts bs))
  || act_in USelectDomain (_remove_gen_actions (user_acts bs)) = true ->
  choose_sys_act domain rt self bs db
  = inr (mkSysAct (Some GuideUser) [], empty_sys_state,
         mkPolicy (turns self + 1) false (current_suggestions self)
           (s_index self) (max_turns self),
         db).
Proof.
  unfold welcomes, choose_sys_act, set_turns, set_first_turn.
  intros Hw Hmax Hbad Hbye Hthanks Hnew Hhello.
  cbn [first_turn turns max_turns current_suggestions s_index user_acts
       set_user_acts].
  assert (Hle : (max_turns self <=? turns self + 1) = false)
    by (apply Z.leb_gt; assumption).
  destruct (first_turn self); cbn [andb] in *.
  - apply orb_false_iff in Hw. destruct Hw as [-> ->].
    cbn [first_turn turns max_turns current_suggestions s_index].
    rewrite Hle, Hbad, Hbye, Hthanks, Hnew, Hhello. reflexivity.
  - cbn [first_turn turns max_turns current_suggestions s_index].
    rewrite Hle, Hbad, Hbye, Hthanks, Hnew, Hhello. reflexivity.
Qed.


(** C3 (amended).  When the call is not answered with the first-turn
    [Welcome], the turn budget is not reached, and the user actions left
    by filler suppression contain [Hello] or [SelectDomain] but none of
    [Bad], [Bye], [Thanks] and [NewDialogue], the dispatcher returns a
    [GuideUser] action without slots and leaves candidate list and
    cursor alone.  The later branch on the same condition is thereby
    never reached; the slot it would request, [_get_open_slot], is the
    first system-requestable slot, in the domain's order, that is no key
    of the constraints, and there is none exactly when all are. *)
Theorem hello_guides_user (domain : Domain) (rt : Runtime) :
  (forall self bs db,
      welcomes self bs = false ->
      turns self + 1 < max_turns self ->
      act_in UBad (_remove_gen_actions (user_acts bs)) = false ->
      act_in UBye (_remove_gen_actions (user_acts bs)) = false ->
      act_in UThanks (_remove_gen_actions (user_acts bs)) = false ->
      act_in UNewDialogue (_remove_gen_actions (user_acts bs)) = false ->
      act_in UHello (_remove_gen_actions (user_acts bs))
      || act_in USelectDomain (_remove_gen_actions (user_acts bs)) = true ->
      choose_sys_act domain rt self bs db
      = inr (mkSysAct (Some GuideUser) [], empty_sys_state,
             mkPolicy (turns self + 1) false (current_suggestions self)
               (s_index self) (max_turns self),
             db))
  /\ (forall bs slot,
        _get_open_slot domain bs = Some slot <->
        exists pre post,
          get_system_requestable_slots domain = pre ++ slot :: post
          /\ dict_mem (fst (_get_constraints bs)) slot = false
          /\ forall s, In s pre ->
                       dict_mem (fst (_get_constraints bs)) s = true)
  /\ (forall bs,
        _get_open_slot domain bs = None <->
        forall s, In s (get_system_requestable_slots domain) ->
                  dict_mem (fst (_get_constraints bs)) s = true).
Proof.
  split; [exact (hello_branch domain rt)|].
  split; intros bs; apply get_open_slot_first.
Qed.

Lemma hello_guides_user_witness :
  choose_sys_act Demo.domain Demo.runtime (mkPolicy 1 false [] 0 25)
    (Demo.belief [USelectDomain; UHello] Demo.wants_thai []) []
  = inr (mkSysAct (Some GuideUser) [], empty_sys_state,
         mkPolicy 2 false [] 0 25, []).
Proof.
  apply (proj1 (hello_guides_user Demo.domain Demo.runtime)
           (mkPolicy 1 false [] 0 25)
           (Demo.belief [USelectDomain; UHello] Demo.wants_thai []) []);
    reflexivity.
Defined.

Lemma inform_by_constraints_no_rows_witness :
  exists act,
    _convert_inform_by_constraints Demo.domain (new_policy 25) []
      (set_type new_SysAct InformByName)
      (Demo.belief [UInform]
         [("food", [("pizza", 1 # 1)]); ("area", [("dontcare", 1 # 1)])] [])
    = inr (act, new_policy 25)
    /\ act_type act = Some InformByName
    /\ In (VStr "none") (get_values act "name")
    /\ In (VList ["pizza"]) (get_values act "food").
Proof.
  destruct (inform_by_constraints_no_rows Demo.domain (new_policy 25)
              (set_type new_SysAct InformByName)
              (Demo.belief [UInform]
                 [("food", [("pizza", 1 # 1)]);
                  ("area", [("dontcare", 1 # 1)])] []))
    as (act & Heq & Ht & Hnone & Hall).
  - repeat constructor; simpl; intuition discriminate.
  - exists act. repeat split; try assumption.
    apply (Hall "food" [("pizza", 1 # 1)]).
    + simpl. auto.
    + discriminate.
    + reflexivity.
Defined.

(** ** Reviews written to the store *)

Lemma replace_twice_blank_quotes s :
  str_replace dquote space (str_replace squote space s) = blank_quotes s.
Proof.
  induction s as [|c s IH]; simpl; [reflexivity|].
  rewrite IH. f_equal.
  destruct (Ascii.eqb c squote) eqn:E1; simpl.
  - reflexivity.
  - destruct (Ascii.eqb c dquote); reflexivity.
Qed.

Lemma blank_quotes_quote_free s : quote_free (blank_quotes s).
Proof.
  unfold quote_free. induction s as [|c s [IH1 IH2]]; simpl; [tauto|].
  split; intros [H|H]; try contradiction;
    destruct (Ascii.eqb c squote) eqn:E1;
    destruct (Ascii.eqb c dquote) eqn:E2; simpl in H;
    try discriminate;
    subst; first [ rewrite Ascii.eqb_refl in E1 | rewrite Ascii.eqb_refl in E2 ];
    discriminate.
Qed.

Lemma truthy_some o : truthy o = true <-> exists s, o = Some s /\ s <> "".
Proof.
  destruct o as [s|]; simpl.
  - rewrite negb_true_iff. split.
    + intros H. exists s. split; [reflexivity|].
      intros ->. discriminate.
    + intros (s' & [= <-] & Hne). apply String.eqb_neq. assumption.
  - split; [discriminate|]. intros (s & H & _). discriminate.
Qed.

(** C10.  Whatever [_modfiy_db] writes is appended to the store; every
    review it enters is the belief state's review with both quote
    characters replaced by spaces, hence free of quotes, and a non-empty
    review is entered; the call returns whenever the focused entity can
    be read and the rating, if given, parses as a float. *)
Theorem review_is_stripped_of_quotes
    (domain : Domain) (rt : Runtime) (self : Policy) (bs : BeliefState)
    (db : Db) :
  (forall db',
      _modfiy_db domain rt self bs db = inr db' ->
      exists new,
        db' = db ++ new
        /\ (forall text name,
              In (EnterReview text name) new ->
              quote_free text
              /\ exists r, review bs = Some r /\ text = blank_quotes r)
        /\ (forall r, review bs = Some r -> r <> "" ->
                      exists name, In (EnterReview (blank_quotes r) name) new))
  /\ (forall name,
        _get_name domain self bs = inr name ->
        (truthy (given_rating bs) = false
         \/ exists s q, given_rating bs = Some s /\ py_float rt s = inr q) ->
        exists db', _modfiy_db domain rt self bs db = inr db').
Proof.
  unfold _modfiy_db. split.
  - intros db' H.
    assert (Hrev : truthy (review bs) = true ->
                   exists r, review bs = Some r /\ r <> "")
      by (apply truthy_some).
    assert (Hnone : truthy (review bs) = false ->
                    forall r, review bs = Some r -> r <> "" -> False).
    { intros Hf r Hr Hne.
      assert (truthy (review bs) = true) by (apply truthy_some; eauto).
      congruence. }
    rewrite replace_twice_blank_quotes in H.
    destruct (truthy (given_rating bs)); destruct (truthy (review bs));
      cbn [bind ret] in H;
      try (destruct (py_float rt _) as [e|q]; cbn [bind] in H;
           [discriminate|]);
      try (destruct (_get_name domain self bs) as [e'|name];
           cbn [bind ret] in H; [discriminate|]);
      inversion H; subst; clear H.
    + destruct (Hrev eq_refl) as (r & Hr & Hne). rewrite Hr.
      exists [EnterRating q name; EnterReview (blank_quotes r) name].
      rewrite <- app_assoc. split; [reflexivity|]. split.
      * intros text name' [Hin|[Hin|[]]]; [discriminate|].
        inversion Hin; subst. split; [apply blank_quotes_quote_free|eauto].
      * intros r' [= <-] _. exists name. simpl. auto.
    + exists [EnterRating q name]. split; [reflexivity|]. split.
      * intros text name' [Hin|[]]. discriminate.
      * intros r Hr Hne. destruct (Hnone eq_refl r Hr Hne).
    + destruct (Hrev eq_refl) as (r & Hr & Hne). rewrite Hr.
      exists [EnterReview (blank_quotes r) name].
      split; [reflexivity|]. split.
      * intros text name' [Hin|[]].
        inversion Hin; subst. split; [apply blank_quotes_quote_free|eauto].
      * intros r' [= <-] _. exists name. simpl. auto.
    + exists []. rewrite app_nil_r. split; [reflexivity|]. split.
      * intros text name [].
      * intros r Hr Hne. destruct (Hnone eq_refl r Hr Hne).
  - intros name Hname Hrating. rewrite Hname.
    destruct Hrating as [->|(s & q & Hs & Hq)].
    + cbn [bind ret]. destruct (truthy (review bs)); cbn [bind ret]; eauto.
    + rewrite Hs, Hq. destruct (truthy (Some s)); cbn [bind ret];
        destruct (truthy (review bs)); cbn [bind ret]; eauto.
Qed.

Lemma review_is_stripped_of_quotes_witness :
  quote_free "I d say: great"
  /\ exists db',
      _modfiy_db Demo.domain Demo.runtime
        (mkPolicy 3 false [Demo.venue "Alpha" "thai" "north" "1"] 0 25)
        (mkBeliefState [UWrittenReview] [] [] None
           (Some (String "I" (String squote "d say: great")))
           None None None None)
        []
      = inr db'.
Proof.
  pose proof (review_is_stripped_of_quotes Demo.domain Demo.runtime
                (mkPolicy 3 false [Demo.venue "Alpha" "thai" "north" "1"]
                   0 25)
                (mkBeliefState [UWrittenReview] [] [] None
                   (Some (String "I" (String squote "d say: great")))
                   None None None None)
                []) as [Hwrites Hreturns].
  split.
  - destruct (Hwrites [EnterReview "I d say: great" (Some "Alpha")] eq_refl)
      as (new & Hdb & Hall & _).
    simpl in Hdb. subst new.
    apply (Hall "I d say: great" (Some "Alpha")). simpl. auto.
  - apply (Hreturns (Some "Alpha")).
    + reflexivity.
    + left. reflexivity.
Defined.

(** ** Entity details *)

Lemma primkey_step_missing rt a k c :
  available c = false ->
  primkey_step rt a (k, c) = inr (add_value a k (Some not_available)).
Proof.
  intros Hc. unfold primkey_step. cbn [fst snd]. rewrite Hc.
  repeat (rewrite ?String.eqb_refl; cbn [negb bind ret];
          rewrite ?andb_false_r).
  reflexivity.
Qed.

Lemma primkey_step_shape rt a kv a' :
  primkey_step rt a kv = inr a' ->
  exists res, a' = add_value a (fst kv) (Some (VStr res)).
Proof.
  unfold primkey_step. intros H. exc_inv; eexists; reflexivity.
Qed.

(** Comparisons of string literals, evaluated. *)
Ltac eqb_ground :=
  match goal with
  | |- context [String.eqb ?x ?y] =>
      let v := eval vm_compute in (String.eqb x y) in
      lazymatch v with
      | true => change (String.eqb x y) with true
      | false => change (String.eqb x y) with false
      end
  end.

Ltac json_case Hdec :=
  match goal with
  | |- context [if String.eqb ?k ?lit && ?b then bind _ _ else _] =>
      let E := fresh "E" in
      let Hk := fresh "Hk" in
      destruct (String.eqb k lit && b) eqn:E;
      [ apply andb_true_iff in E; destruct E as [Hk _];
        apply String.eqb_eq in Hk; subst k;
        repeat first [ progress eqb_ground | progress cbn [andb negb] ];
        let l := fresh "l" in
        let Hl := fresh "Hl" in
        first [ destruct (proj1 Hdec eq_refl) as (l & Hl)
              | destruct (proj1 (proj2 Hdec) eq_refl) as (l & Hl)
              | destruct (proj2 (proj2 Hdec) eq_refl) as (l & Hl) ];
        rewrite Hl
      | ]
  end.

Lemma primkey_step_returns rt a k c :
  (forall s, c = Some s -> available c = true -> decodes rt k s) ->
  exists a', primkey_step rt a (k, c) = inr a'.
Proof.
  intros Hdec. destruct (available c) eqn:Hc.
  - destruct c as [s|]; [|discriminate].
    specialize (Hdec s eq_refl eq_refl).
    unfold primkey_step. cbn [fst snd]. rewrite Hc.
    repeat first [ progress cbn [bind ret andb negb]
                 | progress eqb_ground
                 | json_case Hdec ];
      eexists; reflexivity.
  - rewrite primkey_step_missing by assumption. eauto.
Qed.

Lemma available_false c :
  available c = false <-> c = None \/ c = Some "" \/ c = Some "None".
Proof.
  destruct c as [s|]; simpl.
  - rewrite andb_false_iff, !negb_false_iff, !String.eqb_eq. split.
    + intros [->| ->]; auto.
    + intros [H|[H|H]]; inversion H; auto.
  - split; auto.
Qed.

Section PrimkeyFold.
Variable rt : Runtime.

Lemma primkey_fold_keeps keys : forall a a' k x,
  foldM (primkey_step rt) keys a = inr a' ->
  In x (get_values a k) -> In x (get_values a' k).
Proof.
  induction keys as [|kv keys IH]; intros a a' k x H Hin; cbn [foldM] in H.
  - exc_inv. assumption.
  - destruct (primkey_step rt a kv) as [e|a1] eqn:E1; cbn [bind] in H;
      [discriminate|].
    apply primkey_step_shape in E1. destruct E1 as (res & ->).
    eapply IH; [eassumption|]. apply get_values_add_keeps. assumption.
Qed.

Lemma primkey_fold_other keys : forall a a' k,
  foldM (primkey_step rt) keys a = inr a' ->
  ~ In k (dict_keys keys) -> get_values a' k = get_values a k.
Proof.
  induction keys as [|kv keys IH]; intros a a' k H Hni; cbn [foldM] in H.
  - exc_inv. reflexivity.
  - destruct (primkey_step rt a kv) as [e|a1] eqn:E1; cbn [bind] in H;
      [discriminate|].
    apply primkey_step_shape in E1. destruct E1 as (res & ->).
    rewrite (IH _ _ _ H) by (intros Hin; apply Hni; right; assumption).
    apply get_values_add_other. intros Heq. apply Hni. left. assumption.
Qed.

Lemma primkey_fold_missing keys : forall a a' k c,
  foldM (primkey_step rt) keys a = inr a' ->
  In (k, c) keys -> available c = false ->
  In not_available (get_values a' k).
Proof.
  induction keys as [|kv keys IH]; intros a a' k c H Hin Hc;
    cbn [foldM] in H; [contradiction|].
  destruct (primkey_step rt a kv) as [e|a1] eqn:E1; cbn [bind] in H;
    [discriminate|].
  destruct Hin as [->|Hin].
  - rewrite primkey_step_missing in E1 by assumption.
    inversion E1; subst. eapply primkey_fold_keeps; [eassumption|].
    rewrite get_values_add_same. apply in_or_app. right. left. reflexivity.
  - eapply IH; eassumption.
Qed.

Lemma primkey_fold_exact keys : forall a a' k c,
  NoDup (dict_keys keys) ->
  foldM (primkey_step rt) keys a = inr a' ->
  In (k, c) keys -> available c = false ->
  get_values a' k = get_values a k ++ [not_available].
Proof.
  induction keys as [|kv keys IH]; intros a a' k c Hnd H Hin Hc;
    cbn [foldM] in H; [contradiction|].
  inversion Hnd as [|? ? Hni Hnd']; subst.
  destruct (primkey_step rt a kv) as [e|a1] eqn:E1; cbn [bind] in H;
    [discriminate|].
  destruct Hin as [->|Hin].
  - rewrite primkey_step_missing in E1 by assumption.
    inversion E1; subst.
    rewrite (primkey_fold_other _ _ _ _ H) by exact Hni.
    apply get_values_add_same.
  - rewrite (IH _ _ _ _ Hnd' H Hin Hc).
    apply primkey_step_shape in E1. destruct E1 as (res & ->).
    rewrite get_values_add_other; [reflexivity|].
    intros Heq. apply Hni. rewrite Heq.
    change k with (fst (k, c)). apply in_map. assumption.
Qed.

Lemma primkey_fold_returns keys : forall a,
  (forall k s, In (k, Some s) keys -> available (Some s) = true ->
               decodes rt k s) ->
  exists a', foldM (primkey_step rt) keys a = inr a'.
Proof.
  induction keys as [|[k c] keys IH]; intros a Hdec; cbn [foldM].
  - eexists. reflexivity.
  - destruct (primkey_step_returns rt a k c) as (a1 & ->).
    + intros s -> Hs. apply Hdec; [left; reflexivity|assumption].
    + cbn [bind]. apply IH. intros k' s' Hin. apply Hdec. right. assumption.
Qed.
End PrimkeyFold.

Lemma firstn_in {A} (l : list A) n x : In x (firstn n l) -> In x l.
Proof.
  revert n. induction l as [|a l IH]; intros [|n]; simpl; try tauto.
  intros [H|H]; eauto.
Qed.

Lemma firstn_keys_nodup {V} (d : dict V) n :
  NoDup (dict_keys d) -> NoDup (dict_keys (firstn n d)).
Proof.
  unfold dict_keys, PyDict.keys. rewrite <- firstn_map.
  generalize (map fst d). clear d. intros l. revert n.
  induction l as [|a l IH]; intros [|n] Hnd; simpl; try constructor.
  - inversion Hnd; subst. intros Hin. apply firstn_in in Hin. contradiction.
  - inversion Hnd; subst. apply IH. assumption.
Qed.

Lemma primkey_fold_type rt keys : forall a a',
  foldM (primkey_step rt) keys a = inr a' -> act_type a' = act_type a.
Proof.
  induction keys as [|kv keys IH]; intros a a' Hf; cbn [foldM] in Hf.
  - exc_inv. reflexivity.
  - destruct (primkey_step rt a kv) as [e|a2] eqn:E1; cbn [bind] in Hf;
      [discriminate|].
    apply primkey_step_shape in E1. destruct E1 as (res & ->).
    rewrite (IH _ _ Hf). apply act_type_add_value.
Qed.

(** C9.  An entity-detail inform built from a non-empty result: every
    attribute among the first four of the first row whose cell is NULL,
    empty or the text ["None"] is emitted as a slot of the action that
    carries ["not available"] (as its only value when the action had no
    value for that slot and the row is a dictionary); the builder
    returns whenever the JSON-valued cells it renders decode and the
    focused entity can be read in case the primary key is not among
    those attributes. *)
Theorem primkey_inform_not_available
    (domain : Domain) (rt : Runtime) (self : Policy) (result : Row)
    (rest : list Row) (sys_act : SysAct) (bs : BeliefState) :
  (forall k s, In (k, Some s) (firstn 4 result) ->
               available (Some s) = true -> decodes rt k s) ->
  (In (get_primary_key domain) (dict_keys (firstn 4 result))
   \/ exists name, _get_name domain self bs = inr name) ->
  exists act,
    _convert_inform_by_primkey domain rt self (result :: rest) sys_act bs
    = inr act
    /\ act_type act = Some InformByName
    /\ forall k c,
        In (k, c) (firstn 4 result) ->
        c = None \/ c = Some "" \/ c = Some "None" ->
        In not_available (get_values act k)
        /\ (NoDup (dict_keys result) -> get_values sys_act k = [] ->
            get_values act k = [not_available]).
Proof.
  intros Hdec Hname. unfold _convert_inform_by_primkey.
  destruct (primkey_fold_returns rt (firstn 4 result)
              (set_type sys_act InformByName) Hdec) as (a1 & Ha1).
  rewrite Ha1. cbn [bind].
  pose proof (primkey_fold_type rt _ _ _ Ha1) as Htype.
  assert (Hfold : forall k c,
             In (k, c) (firstn 4 result) ->
             c = None \/ c = Some "" \/ c = Some "None" ->
             In not_available (get_values a1 k)
             /\ (NoDup (dict_keys result) -> get_values sys_act k = [] ->
                 get_values a1 k = [not_available])).
  { intros k c Hin Hc. apply available_false in Hc. split.
    - eapply primkey_fold_missing; eassumption.
    - intros Hnd Hempty.
      rewrite (primkey_fold_exact rt _ _ _ k c
                 (firstn_keys_nodup _ 4 Hnd) Ha1 Hin Hc).
      rewrite get_values_set_type, Hempty. reflexivity. }
  destruct (str_in (domain_key domain) (dict_keys (firstn 4 result))) eqn:Ekey;
    cbn [negb].
  - exists a1. split; [reflexivity|]. split; [exact Htype|exact Hfold].
  - destruct Hname as [Hin|(name & Hn)].
    + apply str_in_iff in Hin. unfold domain_key in Ekey. congruence.
    + rewrite Hn. cbn [bind ret]. eexists. split; [reflexivity|].
      split; [rewrite act_type_add_value; exact Htype|].
      intros k c Hin Hc. destruct (Hfold k c Hin Hc) as [H1 H2]. split.
      * apply get_values_add_keeps. assumption.
      * intros Hnd Hempty. rewrite get_values_add_other; [auto|].
        intros Heq. subst k.
        assert (In (domain_key domain) (dict_keys (firstn 4 result))).
        { change (domain_key domain) with (fst (domain_key domain, c)).
          apply in_map. assumption. }
        apply str_in_iff in H. congruence.
Qed.

Lemma primkey_inform_not_available_witness :
  exists act,
    _convert_inform_by_primkey Demo.domain Demo.runtime (new_policy 25)
      [[("name", Some "Alpha"); ("phone", None); ("address", Some "");
        ("parking_lot", Some "1"); ("food", Some "thai")]]
      new_SysAct (Demo.belief [URequest] [] ["phone"])
    = inr act
    /\ get_values act "phone" = [not_available]
    /\ get_values act "address" = [not_available].
Proof.
  destruct (primkey_inform_not_available Demo.domain Demo.runtime
              (new_policy 25)
              [("name", Some "Alpha"); ("phone", None); ("address", Some "");
               ("parking_lot", Some "1"); ("food", Some "thai")]
              [] new_SysAct (Demo.belief [URequest] [] ["phone"]))
    as (act & Heq & _ & Hall).
  - intros k s Hin _. unfold decodes.
    simpl in Hin.
    destruct Hin as [H|[H|[H|[H|[]]]]]; inversion H; subst;
      repeat split; discriminate.
  - left. simpl. auto.
  - exists act. split; [exact Heq|]. split.
    + apply (Hall "phone" None); simpl; auto.
      repeat constructor; simpl; intuition discriminate.
    + apply (Hall "address" (Some "")); simpl; auto.
      repeat constructor; simpl; intuition discriminate.
Defined.

(** ** The next question: binary slots *)

Section Counting.
(** [values_dic] after the counting loop holds, for each cell value,
    the number of its occurrences in the column. *)
Lemma count_incr_get values_dic x v :
  PyDict.get cell_eqb (count_incr values_dic x) v
  = if cell_eqb x v then Some (count_of values_dic x + 1)
    else PyDict.get cell_eqb values_dic v.
Proof.
  unfold count_incr, count_of.
  destruct (cell_eqb x v) eqn:E.
  - apply cell_eqb_eq in E. subst v.
    destruct (PyDict.get cell_eqb values_dic x);
      apply (get_set_same _ cell_eqb_eq).
  - assert (x <> v) by (intros ->; rewrite (eqb_refl' _ cell_eqb_eq) in E;
                        discriminate).
    destruct (PyDict.get cell_eqb values_dic x);
      apply (get_set_other _ cell_eqb_eq); assumption.
Qed.

Lemma count_loop_get column : forall values_dic v,
  PyDict.get cell_eqb (fold_left count_incr column values_dic) v
  = match PyDict.get cell_eqb values_dic v, count_occ cell_eq_dec column v with
    | None, O => None
    | o, n => Some (match o with Some z => z | None => 0 end + Z.of_nat n)
    end.
Proof.
  induction column as [|x column IH]; intros values_dic v; cbn [fold_left].
  - simpl. destruct (PyDict.get cell_eqb values_dic v); [|reflexivity].
    rewrite Z.add_0_r. reflexivity.
  - rewrite IH, count_incr_get. cbn [count_occ].
    destruct (cell_eq_dec x v) as [->|Hne].
    + rewrite (eqb_refl' _ cell_eqb_eq). unfold count_of.
      destruct (PyDict.get cell_eqb values_dic v) as [z|];
        destruct (count_occ cell_eq_dec column v); f_equal; lia.
    + rewrite (eqb_neq' _ cell_eqb_eq) by assumption. reflexivity.
Qed.

Lemma count_loop_mem column v :
  PyDict.mem cell_eqb (fold_left count_incr column []) v
  = (0 <? count_occ cell_eq_dec column v)%nat.
Proof.
  unfold PyDict.mem. rewrite count_loop_get. simpl.
  destruct (count_occ cell_eq_dec column v); reflexivity.
Qed.

Lemma count_loop_count column v :
  count_of (fold_left count_incr column []) v
  = Z.of_nat (count_occ cell_eq_dec column v).
Proof.
  unfold count_of. rewrite count_loop_get. simpl.
  destruct (count_occ cell_eq_dec column v); reflexivity.
Qed.
End Counting.

(** The head of [sorted(diffs.items(), key=lambda kv: kv[1])]: the first
    entry, in the order of the dictionary, with the smallest value. *)
Lemma py_index_head {A} (x : A) l : py_index (x :: l) 0 = inr x.
Proof.
  unfold py_index. cbn [List.length].
  replace (0 <? 0) with false by reflexivity.
  replace ((0 <=? 0) && (0 <? Z.of_nat (S (List.length l)))) with true
    by (symmetry; apply andb_true_iff; split;
        [reflexivity|apply Z.ltb_lt; lia]).
  reflexivity.
Qed.

Lemma sorted_head_first_min (d : dict Z) :
  match py_sorted diff_le d with
  | [] => d = []
  | x :: _ =>
      exists d1 d2, d = d1 ++ x :: d2
                    /\ (forall y, In y d1 -> snd x < snd y)
                    /\ (forall y, In y d2 -> snd x <= snd y)
  end.
Proof.
  induction d as [|a d IH]; cbn [py_sorted fold_right]; [reflexivity|].
  fold (py_sorted diff_le d).
  destruct (py_sorted diff_le d) as [|h t]; cbn [insert_sorted].
  - subst d. exists [], []. repeat split; intros y [].
  - destruct IH as (d1 & d2 & -> & Hlt & Hle).
    unfold diff_le at 1. destruct (snd a <=? snd h) eqn:E.
    + apply Z.leb_le in E. exists [], (d1 ++ h :: d2).
      repeat split; [intros y []|].
      intros y Hy. apply in_app_iff in Hy.
      destruct Hy as [Hy|[<-|Hy]]; [apply Hlt in Hy|..|apply Hle in Hy]; lia.
    + apply Z.leb_gt in E. exists (a :: d1), d2.
      repeat split; [|assumption].
      intros y [<-|Hy]; [lia|auto].
Qed.

Lemma in_split_first (x : string) l :
  In x l -> exists pre post, l = pre ++ x :: post /\ ~ In x pre.
Proof.
  induction l as [|a l IH]; [intros []|].
  intros Hin. destruct (string_dec a x) as [->|Hne].
  - exists [], l. split; [reflexivity|]. intros [].
  - destruct Hin as [Heq|Hin]; [contradiction|].
    destruct (IH Hin) as (pre & post & -> & Hni).
    exists (a :: pre), post. split; [reflexivity|].
    intros [H|H]; contradiction.
Qed.

Lemma split_unique {V} (a a' b b' : dict V) k v v' :
  NoDup (dict_keys (a ++ (k, v) :: b)) ->
  a ++ (k, v) :: b = a' ++ (k, v') :: b' ->
  a = a' /\ v = v'.
Proof.
  revert a'. induction a as [|[k0 v0] a IH]; intros [|[k1 v1] a'] Hnd Heq;
    cbn [app] in *.
  - inversion Heq. auto.
  - inversion Heq; subst. exfalso.
    inversion Hnd as [|? ? Hni _]; subst. apply Hni.
    unfold dict_keys, PyDict.keys. rewrite map_app, in_app_iff.
    right. left. reflexivity.
  - inversion Heq; subst. exfalso.
    inversion Hnd as [|? ? Hni _]; subst. apply Hni.
    unfold dict_keys, PyDict.keys. rewrite map_app, in_app_iff.
    right. left. reflexivity.
  - inversion Heq; subst.
    inversion Hnd as [|? ? _ Hnd']; subst.
    destruct (IH a' Hnd' H2) as [-> ->]. auto.
Qed.

Lemma dict_set_same_value {V} (d : dict V) k v :
  dict_get d k = Some v -> dict_set d k v = d.
Proof.
  unfold dict_get, dict_set.
  induction d as [|[k0 v0] d IH]; simpl; [discriminate|].
  destruct (String.eqb k0 k) eqn:E.
  - intros [= ->]. reflexivity.
  - intros H. rewrite IH; auto.
Qed.

Section InfoGain.
Variable domain : Domain.
Variable temp : dict (list Cell).

Lemma info_gain_step_spec diffs slot :
  binary_column domain temp slot ->
  info_gain_step domain temp diffs slot = inr (record_split domain temp diffs slot).
Proof.
  intros [Hlen Hmem]. unfold info_gain_step, record_split, splits, imbalance,
    occurrences, column_of.
  destruct (get_possible_values domain slot) as [|v1 [|v2 [|v3 l]]];
    try discriminate.
  unfold dict_mem, PyDict.mem in Hmem. unfold dict_item, dict_get in *.
  destruct (PyDict.get String.eqb temp slot) as [column|]; [|discriminate].
  cbn [bind ret]. rewrite !count_loop_mem, !count_loop_count.
  replace (0 <? count_occ cell_eq_dec column (Some v1))%nat
    with (0 <? Z.of_nat (count_occ cell_eq_dec column (Some v1))).
  2:{ destruct (count_occ cell_eq_dec column (Some v1)); reflexivity. }
  replace (0 <? count_occ cell_eq_dec column (Some v2))%nat
    with (0 <? Z.of_nat (count_occ cell_eq_dec column (Some v2))).
  2:{ destruct (count_occ cell_eq_dec column (Some v2)); reflexivity. }
  destruct (_ && _); reflexivity.
Qed.

Lemma info_gain_loop_spec slots : forall diffs,
  Forall (binary_column domain temp) slots ->
  foldM (info_gain_step domain temp) slots diffs
  = inr (fold_left (record_split domain temp) slots diffs).
Proof.
  induction slots as [|s slots IH]; intros diffs Hall; cbn [foldM fold_left].
  - reflexivity.
  - inversion Hall; subst. rewrite info_gain_step_spec by assumption.
    cbn [bind]. apply IH. assumption.
Qed.

Lemma record_split_extends diffs slot :
  faithful domain temp diffs ->
  exists ext,
    record_split domain temp diffs slot = diffs ++ ext
    /\ faithful domain temp (diffs ++ ext)
    /\ (forall k, In k (dict_keys (diffs ++ ext)) <->
                  In k (dict_keys diffs)
                  \/ (k = slot /\ splits domain temp slot = true)).
Proof.
  intros [Hnd Hval]. unfold record_split.
  destruct (splits domain temp slot) eqn:Es.
  - destruct (dict_get diffs slot) as [z|] eqn:Eg.
    + pose proof (get_in _ String.eqb_eq _ _ _ Eg) as Hin.
      destruct (Hval _ _ Hin) as [-> _].
      rewrite dict_set_same_value by assumption.
      exists []. rewrite app_nil_r. split; [reflexivity|].
      split; [split; assumption|].
      intros k. split; [auto|]. intros [H|[-> _]]; [assumption|].
      change slot with (fst (slot, imbalance domain temp slot)). apply in_map.
      assumption.
    + exists [(slot, imbalance domain temp slot)].
      split; [apply (set_absent String.eqb); assumption|].
      split; [split|].
      * unfold dict_keys, PyDict.keys. rewrite map_app. cbn [map fst].
        apply NoDup_app; [assumption|repeat constructor; intros []|].
        intros k Hk [<-|[]].
        apply (get_none_notin _ String.eqb_eq) in Eg. contradiction.
      * intros k z Hin. apply in_app_iff in Hin.
        destruct Hin as [Hin|[Hin|[]]]; [auto|].
        inversion Hin; subst. auto.
      * intros k. unfold dict_keys, PyDict.keys.
        rewrite map_app, in_app_iff. cbn [map fst In].
        split; [intros [H|[<-|[]]]; auto|].
        intros [H|[-> _]]; auto.
  - exists []. rewrite app_nil_r. split; [reflexivity|].
    split; [split; assumption|].
    intros k. split; [auto|]. intros [H|[_ H]]; [assumption|discriminate].
Qed.

Lemma record_splits_extend slots : forall diffs,
  faithful domain temp diffs ->
  exists ext,
    fold_left (record_split domain temp) slots diffs = diffs ++ ext
    /\ faithful domain temp (diffs ++ ext)
    /\ (forall k, In k (dict_keys (diffs ++ ext)) <->
                  In k (dict_keys diffs)
                  \/ (In k slots /\ splits domain temp k = true)).
Proof.
  induction slots as [|s slots IH]; intros diffs Hf; cbn [fold_left].
  - exists []. rewrite app_nil_r. split; [reflexivity|].
    split; [assumption|]. intros k. split; [auto|].
    intros [H|[[] _]]. assumption.
  - destruct (record_split_extends diffs s Hf) as (e1 & -> & Hf1 & Hk1).
    destruct (IH _ Hf1) as (e2 & -> & Hf2 & Hk2).
    exists (e1 ++ e2). rewrite app_assoc. split; [reflexivity|].
    split; [assumption|].
    intros k. rewrite Hk2, Hk1. cbn [In]. split.
    + intros [[H|[-> H]]|[H1 H2]]; auto.
    + intros [H|[[<-|H1] H2]]; auto.
Qed.
End InfoGain.

Lemma faithful_nil domain temp : faithful domain temp [].
Proof. split; [constructor|]. intros k z []. Qed.

(** What [_highest_info_gain] returns on binary slots that are columns
    of the table. *)
Lemma highest_info_gain_spec domain temp bin_slots :
  Forall (binary_column domain temp) bin_slots ->
  exists r,
    _highest_info_gain domain bin_slots temp = inr r
    /\ ((r = "" /\ forall s, In s bin_slots -> splits domain temp s = false)
        \/ exists pre post,
            bin_slots = pre ++ r :: post
            /\ splits domain temp r = true
            /\ (forall s, In s pre -> splits domain temp s = true ->
                          imbalance domain temp r < imbalance domain temp s)
            /\ (forall s, In s post -> splits domain temp s = true ->
                          imbalance domain temp r <= imbalance domain temp s)).
Proof.
  intros Hall. unfold _highest_info_gain.
  rewrite info_gain_loop_spec by assumption. cbn [bind].
  destruct (record_splits_extend domain temp bin_slots [] (faithful_nil _ _))
    as (diffs & Hd & Hf & Hkeys).
  cbn [app] in *. rewrite Hd.
  pose proof (sorted_head_first_min diffs) as Hhead.
  destruct diffs as [|d0 diffs'].
  - exists "". split; [reflexivity|]. left. split; [reflexivity|].
    intros s Hs. destruct (splits domain temp s) eqn:Es; [|reflexivity].
    exfalso. apply (proj2 (Hkeys s)). right. auto.
  - remember (d0 :: diffs') as diffs eqn:Ediffs.
    destruct (py_sorted diff_le diffs) as [|[r z] t] eqn:Esort;
      [subst; discriminate|].
    rewrite py_index_head. cbn [bind ret fst].
    exists r. split; [reflexivity|]. right.
    destruct Hhead as (d1 & d2 & Hsplit & Hlt & Hle). cbn [snd] in *.
    destruct Hf as [Hnd Hval].
    assert (Hrin : In (r, z) diffs)
      by (rewrite Hsplit; apply in_app_iff; right; left; reflexivity).
    destruct (Hval _ _ Hrin) as [Hz Hr].
    assert (Hrslot : In r bin_slots).
    { assert (Hk : In r (dict_keys diffs))
        by (change r with (fst (r, z)); apply in_map; assumption).
      apply Hkeys in Hk. destruct Hk as [[]|[Hk _]]. assumption. }
    destruct (in_split_first r bin_slots Hrslot) as (pre & post & Hslots & Hni).
    exists pre, post. split; [assumption|]. split; [assumption|].
    (* the dictionary after the slots before [r], then [r], then the rest *)
    destruct (record_splits_extend domain temp pre [] (faithful_nil _ _))
      as (dpre & Hdpre & Hfpre & Hkpre).
    cbn [app] in *.
    assert (Hfresh : dict_get dpre r = None).
    { apply (get_none_notin _ String.eqb_eq). intros Hk.
      apply Hkpre in Hk. destruct Hk as [[]|[Hk _]]. contradiction. }
    assert (Hstep : record_split domain temp dpre r
                    = dpre ++ [(r, imbalance domain temp r)]).
    { unfold record_split. rewrite Hr.
      apply (set_absent String.eqb). assumption. }
    assert (Hfstep : faithful domain temp
                       (dpre ++ [(r, imbalance domain temp r)])).
    { destruct (record_split_extends domain temp dpre r Hfpre)
        as (e & He & Hfe & _).
      rewrite Hstep in He. rewrite He. assumption. }
    destruct (record_splits_extend domain temp post _ Hfstep)
      as (ext & Hext & _ & _).
    assert (Hwhole : diffs = dpre ++ (r, imbalance domain temp r) :: ext).
    { rewrite <- Hd, Hslots, fold_left_app. cbn [fold_left].
      rewrite Hdpre, Hstep, Hext, <- app_assoc. reflexivity. }
    assert (Hd1 : dpre = d1).
    { rewrite Hwhole in Hsplit, Hnd.
      destruct (split_unique _ _ _ _ _ _ _ Hnd Hsplit). assumption. }
    subst d1. split.
    + intros s Hs Hss.
      assert (Hk : In s (dict_keys dpre))
        by (apply Hkpre; right; auto).
      unfold dict_keys, PyDict.keys in Hk. apply in_map_iff in Hk.
      destruct Hk as ([s' zs] & Hfst & Hin). cbn [fst] in Hfst. subst s'.
      destruct (proj2 Hfpre _ _ Hin) as [-> _].
      rewrite <- Hz. apply (Hlt _ Hin).
    + intros s Hs Hss.
      assert (Hk : In s (dict_keys diffs)).
      { apply Hkeys. right. split; [|assumption].
        rewrite Hslots. apply in_app_iff. right. right. assumption. }
      unfold dict_keys, PyDict.keys in Hk. apply in_map_iff in Hk.
      destruct Hk as ([s' zs] & Hfst & Hin). cbn [fst] in Hfst. subst s'.
      destruct (Hval _ _ Hin) as [-> _]. rewrite <- Hz.
      rewrite Hsplit in Hin. apply in_app_iff in Hin.
      destruct Hin as [Hin|[Hin|Hin]].
      * apply Hlt in Hin. cbn [snd] in Hin. lia.
      * inversion Hin; subst. lia.
      * apply Hle in Hin. assumption.
Qed.

(** ** The column table *)

Lemma distinct_count_two (l : list Cell) :
  (1 < distinct_count l)%nat <-> exists x y, In x l /\ In y l /\ x <> y.
Proof.
  unfold distinct_count.
  pose proof (NoDup_nodup cell_eq_dec l) as Hnd.
  pose proof (nodup_In cell_eq_dec l) as Hin.
  destruct (nodup cell_eq_dec l) as [|a [|b t]]; cbn [List.length].
  - split; [lia|]. intros (x & y & Hx & _). apply Hin in Hx. destruct Hx.
  - split; [lia|]. intros (x & y & Hx & Hy & Hne).
    apply Hin in Hx. apply Hin in Hy.
    destruct Hx as [<-|[]]. destruct Hy as [<-|[]]. congruence.
  - split; [|lia]. intros _. exists a, b.
    split; [apply Hin; left; reflexivity|].
    split; [apply Hin; right; left; reflexivity|].
    inversion Hnd as [|? ? Hni _]; subst. intros ->. apply Hni. left.
    reflexivity.
Qed.

Lemma dict_mem_in {V} (d : dict V) k :
  dict_mem d k = true <-> In k (dict_keys d).
Proof.
  unfold dict_mem, PyDict.mem.
  pose proof (get_none_notin String.eqb String.eqb_eq d k) as H.
  unfold dict_keys. destruct (PyDict.get String.eqb d k).
  - split; [|reflexivity]. intros _.
    destruct (in_dec string_dec k (PyDict.keys d)) as [Hin|Hni]; [assumption|].
    apply H in Hni. discriminate.
  - split; [discriminate|]. intros Hin. exfalso. apply (proj1 H); auto.
Qed.

Lemma dict_append_found {V} (d : dict (list V)) k col v :
  dict_get d k = Some col -> dict_append d k v = inr (dict_set d k (col ++ [v])).
Proof.
  intros H. unfold dict_append, dict_item. rewrite H. reflexivity.
Qed.

Section ColumnTable.
Variable domain : Domain.

Lemma add_row_spec (row : Row) : forall temp,
  NoDup (dict_keys row) ->
  (forall k, In k (dict_keys row) -> In k (dict_keys temp)) ->
  exists temp',
    add_row domain temp row = inr temp'
    /\ dict_keys temp' = dict_keys temp
    /\ forall k, dict_get temp' k = column_after domain temp row k.
Proof.
  unfold add_row.
  induction row as [|[k0 c0] row IH]; intros temp Hnd Hkeys; cbn [foldM].
  - exists temp. repeat split.
  - inversion Hnd as [|? ? Hni Hnd']; subst. cbn [fst snd].
    assert (Hk0 : In k0 (dict_keys temp)) by (apply Hkeys; left; reflexivity).
    destruct (String.eqb k0 (domain_key domain)) eqn:Epk; cbn [negb bind ret].
    + destruct (IH temp Hnd') as (temp' & -> & Hk & Hget).
      { intros k Hk. apply Hkeys. right. assumption. }
      exists temp'. split; [reflexivity|]. split; [assumption|].
      intros k. rewrite Hget. unfold column_after, dict_get. cbn [PyDict.get].
      destruct (String.eqb_spec k0 k) as [<-|Hne]; [|reflexivity].
      unfold domain_key in Epk. rewrite Epk.
      apply (get_none_notin _ String.eqb_eq) in Hni.
      rewrite Hni. reflexivity.
    + apply dict_mem_in in Hk0.
      assert (exists col0, PyDict.get String.eqb temp k0 = Some col0)
        as (col0 & Eg)
        by (unfold dict_mem, PyDict.mem in Hk0;
            destruct (PyDict.get String.eqb temp k0); [eauto|discriminate]).
      rewrite (dict_append_found _ _ _ _ Eg). cbn [bind].
      destruct (IH (dict_set temp k0 (col0 ++ [c0])) Hnd')
        as (temp' & -> & Hk & Hget).
      { intros k Hk. unfold dict_set, dict_keys.
        rewrite (keys_set String.eqb). unfold PyDict.mem. rewrite Eg.
        apply Hkeys. right. assumption. }
      exists temp'. split; [reflexivity|]. split.
      * rewrite Hk. unfold dict_set, dict_keys.
        rewrite (keys_set String.eqb). unfold PyDict.mem. rewrite Eg.
        reflexivity.
      * intros k. rewrite Hget. unfold column_after, dict_get, dict_set.
        cbn [PyDict.get].
        destruct (String.eqb_spec k0 k) as [<-|Hne].
        -- apply (get_none_notin _ String.eqb_eq) in Hni. rewrite Hni.
           rewrite (get_set_same _ String.eqb_eq).
           unfold domain_key in Epk. rewrite Epk, Eg. reflexivity.
        -- rewrite (get_set_other _ String.eqb_eq) by assumption.
           reflexivity.
Qed.

Lemma add_rows_spec (rows : list Row) : forall temp,
  (forall row, In row rows ->
               NoDup (dict_keys row)
               /\ forall k, In k (dict_keys row) -> In k (dict_keys temp)) ->
  exists temp',
    foldM (add_row domain) rows temp = inr temp'
    /\ dict_keys temp' = dict_keys temp
    /\ forall k col,
        dict_get temp k = Some col ->
        dict_get temp' k
        = Some (col ++ if String.eqb k (get_primary_key domain) then []
                       else cells_of k rows).
Proof.
  induction rows as [|row rows IH]; intros temp Hrows; cbn [foldM].
  - exists temp. repeat split. intros k col ->.
    destruct (String.eqb k _); cbn [cells_of flat_map];
      rewrite app_nil_r; reflexivity.
  - destruct (Hrows row (or_introl eq_refl)) as [Hnd Hkeys].
    destruct (add_row_spec row temp Hnd Hkeys) as (temp1 & -> & Hk1 & Hg1).
    cbn [bind].
    destruct (IH temp1) as (temp' & -> & Hk' & Hg').
    { intros r Hr. destruct (Hrows r (or_intror Hr)) as [Hnd' Hkeys'].
      split; [assumption|]. rewrite Hk1. assumption. }
    exists temp'. split; [reflexivity|]. split; [congruence|].
    intros k col Hcol. specialize (Hg1 k). unfold column_after in Hg1.
    rewrite Hcol in Hg1. cbn [cells_of flat_map].
    destruct (dict_get row k) as [c|] eqn:Erow.
    + destruct (String.eqb k (get_primary_key domain)) eqn:Epk.
      * rewrite (Hg' k col Hg1), Epk. reflexivity.
      * cbn [option_map] in Hg1. rewrite (Hg' k _ Hg1), Epk.
        rewrite <- app_assoc. reflexivity.
    + rewrite (Hg' k col Hg1). cbn [app]. reflexivity.
Qed.

Lemma empty_columns_get keys : forall acc k,
  dict_get (fold_left (fun temp key => dict_set temp key ([] : list Cell))
                      keys acc) k
  = if in_dec string_dec k keys then Some []
    else dict_get acc k.
Proof.
  induction keys as [|k0 keys IH]; intros acc k; cbn [fold_left].
  - reflexivity.
  - rewrite IH. destruct (in_dec string_dec k keys) as [Hin|Hni].
    + destruct (in_dec string_dec k (k0 :: keys)) as [_|Hni'];
        [reflexivity|]. exfalso. apply Hni'. right. assumption.
    + unfold dict_get, dict_set.
      destruct (string_dec k0 k) as [->|Hne].
      * rewrite (get_set_same _ String.eqb_eq).
        destruct (in_dec string_dec k (k :: keys)) as [_|Hni'];
          [reflexivity|]. exfalso. apply Hni'. left. reflexivity.
      * rewrite (get_set_other _ String.eqb_eq) by assumption.
        destruct (in_dec string_dec k (k0 :: keys)) as [[H|H]|_];
          [contradiction|contradiction|reflexivity].
Qed.

Lemma empty_columns_keys keys : forall acc k,
  In k (dict_keys
          (fold_left (fun temp key => dict_set temp key ([] : list Cell))
                     keys acc))
  <-> In k keys \/ In k (dict_keys acc).
Proof.
  intros acc k. rewrite <- !dict_mem_in. unfold dict_mem, PyDict.mem.
  fold (dict_get (fold_left (fun temp key => dict_set temp key ([] : list Cell))
                   keys acc) k).
  rewrite empty_columns_get. fold (dict_get acc k).
  destruct (in_dec string_dec k keys) as [Hin|Hni].
  - split; auto.
  - destruct (dict_get acc k); split; auto; try discriminate;
      intros [H|H]; first [contradiction|discriminate|reflexivity].
Qed.

(** The table [_raw_action] builds from rows with the keys of the
    first one: per key of the first row the cells of all rows, and
    nothing for the primary key. *)
Lemma build_temp_spec (first : Row) (rest : list Row) :
  (forall row, In row (first :: rest) ->
               NoDup (dict_keys row)
               /\ forall k, In k (dict_keys row) -> In k (dict_keys first)) ->
  exists temp,
    build_temp domain (first :: rest) = inr temp
    /\ forall k,
        In k (dict_keys first) ->
        dict_get temp k
        = Some (if String.eqb k (get_primary_key domain) then []
                else cells_of k (first :: rest)).
Proof.
  intros Hrows. unfold build_temp. rewrite py_index_head. cbn [bind].
  destruct (add_rows_spec (first :: rest) (empty_columns first))
    as (temp & -> & _ & Hget).
  - intros row Hrow. destruct (Hrows row Hrow) as [Hnd Hkeys].
    split; [assumption|]. intros k Hk. unfold empty_columns.
    apply empty_columns_keys. left. auto.
  - exists temp. split; [reflexivity|]. intros k Hk.
    rewrite (Hget k []); [reflexivity|].
    unfold empty_columns. rewrite empty_columns_get.
    destruct (in_dec string_dec k (dict_keys first)); [reflexivity|].
    contradiction.
Qed.
End ColumnTable.

Lemma cells_of_in k rows c :
  In c (cells_of k rows) <-> exists row, In row rows /\ dict_get row k = Some c.
Proof.
  unfold cells_of. rewrite in_flat_map. split.
  - intros (row & Hrow & Hc). exists row. split; [assumption|].
    destruct (dict_get row k) as [c'|]; [|destruct Hc].
    destruct Hc as [->|[]]. reflexivity.
  - intros (row & Hrow & Hc). exists row. split; [assumption|].
    rewrite Hc. left. reflexivity.
Qed.

(** The columns of the table are the cells of the rows, except for the
    primary key. *)
Lemma build_temp_columns domain (first : Row) (rest : list Row) :
  uniform_rows first (first :: rest) ->
  exists temp,
    build_temp domain (first :: rest) = inr temp
    /\ forall k,
        In k (dict_keys first) ->
        dict_mem temp k = true
        /\ column_of temp k
           = if String.eqb k (get_primary_key domain) then []
             else cells_of k (first :: rest).
Proof.
  intros Huni.
  destruct (build_temp_spec domain first rest) as (temp & Htemp & Hget).
  - intros row Hrow. destruct (Huni row Hrow) as [Hnd Hkeys].
    split; [assumption|]. intros k. apply Hkeys.
  - exists temp. split; [assumption|]. intros k Hk.
    pose proof (Hget k Hk) as Hcol. unfold column_of. rewrite Hcol.
    split; [|reflexivity].
    unfold dict_mem, PyDict.mem. unfold dict_get in Hcol. rewrite Hcol.
    reflexivity.
Qed.

Lemma first_varying_none temp slots :
  (forall s, In s slots ->
             dict_mem temp s = true
             /\ (distinct_count (column_of temp s) <= 1)%nat) ->
  first_varying temp slots = inr None.
Proof.
  induction slots as [|s slots IH]; intros H; cbn [first_varying];
    [reflexivity|].
  destruct (H s (or_introl eq_refl)) as [Hmem Hcount].
  unfold column_of, dict_mem, PyDict.mem, dict_item, dict_get in *.
  destruct (PyDict.get String.eqb temp s) as [column|]; [|discriminate].
  cbn [bind ret].
  replace (1 <? distinct_count column)%nat with false
    by (symmetry; apply Nat.ltb_ge; assumption).
  apply IH. intros s' Hs'. apply H. right. assumption.
Qed.

Lemma bin_slots_binary domain temp bs :
  (forall s, In s (open_req_slots domain bs) -> dict_mem temp s = true) ->
  Forall (binary_column domain temp) (bin_slots_of domain bs).
Proof.
  intros Hcols. apply Forall_forall. intros s Hs.
  unfold bin_slots_of in Hs. apply filter_In in Hs.
  destruct Hs as [Hin Hlen]. split; [|auto].
  apply Nat.eqb_eq. assumption.
Qed.

Lemma non_bin_slots_open domain bs s :
  In s (non_bin_slots_of domain bs) -> In s (open_req_slots domain bs).
Proof.
  unfold non_bin_slots_of. intros H. apply filter_In in H. tauto.
Qed.

(** C5.  When every open requestable slot is a column of the table and
    no non-binary one takes two different values, [_gen_next_request]
    answers from the binary slots alone: the empty string when no binary
    slot has both of its possible values among the rows, and otherwise a
    slot that has, whose count difference is strictly smaller than that
    of every such slot enumerated before it and at most that of every
    one after it.  The table holds, per key of the rows other than the
    primary key, the cells of all rows.  On five cafes that all have
    wifi and of which three have a terrace, the question is about the
    terrace. *)
Theorem binary_slot_most_even_split :
  (forall domain temp bs,
      (forall s, In s (open_req_slots domain bs) -> dict_mem temp s = true) ->
      (forall s, In s (non_bin_slots_of domain bs) ->
                 (distinct_count (column_of temp s) <= 1)%nat) ->
      exists r,
        _gen_next_request domain temp bs = inr r
        /\ ((r = ""
             /\ forall s, In s (bin_slots_of domain bs) ->
                          splits domain temp s = false)
            \/ exists pre post,
                bin_slots_of domain bs = pre ++ r :: post
                /\ splits domain temp r = true
                /\ (forall s, In s pre -> splits domain temp s = true ->
                              imbalance domain temp r
                              < imbalance domain temp s)
                /\ (forall s, In s post -> splits domain temp s = true ->
                              imbalance domain temp r
                              <= imbalance domain temp s)))
  /\ (forall domain (first : Row) (rest : list Row),
        uniform_rows first (first :: rest) ->
        exists temp,
          build_temp domain (first :: rest) = inr temp
          /\ forall k,
              In k (dict_keys first) ->
              dict_mem temp k = true
              /\ column_of temp k
                 = if String.eqb k (get_primary_key domain) then []
                   else cells_of k (first :: rest))
  /\ (exists temp,
        build_temp Demo.cafe_domain Demo.cafes = inr temp
        /\ bin_slots_of Demo.cafe_domain (Demo.belief [UInform] [] [])
           = ["wifi"; "terrace"]
        /\ occurrences temp "wifi" "yes" = 5
        /\ occurrences temp "wifi" "no" = 0
        /\ occurrences temp "terrace" "yes" = 3
        /\ occurrences temp "terrace" "no" = 2
        /\ _gen_next_request Demo.cafe_domain temp
             (Demo.belief [UInform] [] [])
           = inr "terrace").
Proof.
  split.
  - intros domain temp bs Hcols Hsame.
    unfold _gen_next_request.
    rewrite first_varying_none.
    + cbn [bind]. apply highest_info_gain_spec.
      apply bin_slots_binary. assumption.
    + intros s Hs. split; [|auto].
      apply Hcols, non_bin_slots_open. assumption.
  - split; [exact build_temp_columns|].
    eexists. split; [vm_compute; reflexivity|].
    repeat split; vm_compute; reflexivity.
Qed.

Lemma binary_slot_most_even_split_witness :
  exists r,
    _gen_next_request Demo.cafe_domain
      [("name", []);
       ("kind", [Some "bar"; Some "bar"; Some "bar"; Some "bar"; Some "bar"]);
       ("wifi", [Some "yes"; Some "yes"; Some "yes"; Some "yes"; Some "yes"]);
       ("terrace", [Some "yes"; Some "yes"; Some "yes"; Some "no"; Some "no"])]
      (Demo.belief [UInform] [] [])
    = inr r.
Proof.
  destruct (proj1 binary_slot_most_even_split Demo.cafe_domain
              [("name", []);
               ("kind",
                [Some "bar"; Some "bar"; Some "bar"; Some "bar"; Some "bar"]);
               ("wifi",
                [Some "yes"; Some "yes"; Some "yes"; Some "yes"; Some "yes"]);
               ("terrace",
                [Some "yes"; Some "yes"; Some "yes"; Some "no"; Some "no"])]
              (Demo.belief [UInform] [] []))
    as (r & Hr & _).
  - intros s Hs. vm_compute in Hs.
    destruct Hs as [<-|[<-|[<-|[]]]]; reflexivity.
  - intros s Hs. vm_compute in Hs.
    destruct Hs as [<-|[]]. vm_compute. lia.
  - exists r. exact Hr.
Defined.

(** ** The next question: non-binary slots *)

Lemma first_varying_found temp pre s post col :
  (forall t, In t pre ->
             dict_mem temp t = true
             /\ (distinct_count (column_of temp t) <= 1)%nat) ->
  dict_get temp s = Some col ->
  (1 < distinct_count col)%nat ->
  first_varying temp (pre ++ s :: post) = inr (Some s).
Proof.
  intros Hpre Hs Hcol.
  induction pre as [|t pre IH]; cbn [app first_varying].
  - unfold dict_item. rewrite Hs. cbn [bind ret].
    apply Nat.ltb_lt in Hcol. rewrite Hcol. reflexivity.
  - destruct (Hpre t (or_introl eq_refl)) as [Hmem Hcount].
    unfold column_of, dict_mem, PyDict.mem, dict_item, dict_get in *.
    destruct (PyDict.get String.eqb temp t) as [column|]; [|discriminate].
    cbn [bind ret].
    replace (1 <? distinct_count column)%nat with false
      by (symmetry; apply Nat.ltb_ge; assumption).
    apply IH. intros t' Ht'. apply Hpre. right. assumption.
Qed.

(** The non-binary slots that may be asked about: the system-requestable
    slots, in the domain's order, that are not marked ["dontcare"], are
    no key of the constraints and do not have exactly two possible
    values. *)
Lemma non_bin_slots_filter domain bs :
  non_bin_slots_of domain bs
  = filter (fun s =>
              negb (str_in s (snd (_get_constraints bs)))
              && negb (dict_mem (fst (_get_constraints bs)) s)
              && negb (List.length (get_possible_values domain s) =? 2)%nat)
           (get_system_requestable_slots domain).
Proof.
  unfold non_bin_slots_of, bin_slots_of, open_req_slots.
  destruct (_get_constraints bs) as [constraints dontcare]. cbn [fst snd].
  generalize (get_system_requestable_slots domain). intros l.
  set (p := fun s => negb (str_in s dontcare) && negb (dict_mem constraints s)).
  set (q := fun s => (List.length (get_possible_values domain s) =? 2)%nat).
  transitivity (filter (fun s => negb (q s)) (filter p l)).
  - apply filter_ext_in. intros s Hs. f_equal.
    destruct (q s) eqn:Eq.
    + apply str_in_iff. apply filter_In. auto.
    + destruct (str_in s (filter q (filter p l))) eqn:E; [|reflexivity].
      apply str_in_iff, filter_In in E. destruct E as [_ E]. congruence.
  - induction l as [|a l IH]; cbn [filter]; [reflexivity|].
    change (negb (str_in a dontcare) && negb (dict_mem constraints a))
      with (p a).
    destruct (p a) eqn:Ep; cbn [filter andb]; rewrite IH; reflexivity.
Qed.

(** C6 as stated fails: when the primary key is itself a
    system-requestable slot and the rows differ in nothing else, the
    selector has no question, although the rows differ on that slot. *)
Lemma primary_key_is_never_asked :
  non_bin_slots_of Demo.named_domain (Demo.belief [UInform] [] [])
  = ["name"; "food"]
  /\ dict_get (Demo.venue "Alpha" "thai" "north" "1") "name"
     <> dict_get (Demo.venue "Beta" "thai" "north" "1") "name"
  /\ (exists temp,
        build_temp Demo.named_domain
          [Demo.venue "Alpha" "thai" "north" "1";
           Demo.venue "Beta" "thai" "north" "1"]
        = inr temp
        /\ _gen_next_request Demo.named_domain temp
             (Demo.belief [UInform] [] [])
           = inr "")
  /\ _raw_action Demo.named_domain
       [Demo.venue "Alpha" "thai" "north" "1";
        Demo.venue "Beta" "thai" "north" "1"]
       (Demo.belief [UInform] [] [])
     = inr (set_type new_SysAct InformByName).
Proof.
  split; [reflexivity|]. split; [discriminate|].
  split; [eexists; split; vm_compute; reflexivity|reflexivity].
Qed.

Lemma same_on_distinct k rows :
  same_on k rows -> (distinct_count (cells_of k rows) <= 1)%nat.
Proof.
  intros Hsame.
  destruct (Nat.le_gt_cases (distinct_count (cells_of k rows)) 1) as [H|H];
    [assumption|].
  apply distinct_count_two in H. destruct H as (x & y & Hx & Hy & Hne).
  apply cells_of_in in Hx. apply cells_of_in in Hy.
  destruct Hx as (r1 & Hr1 & Hx). destruct Hy as (r2 & Hr2 & Hy).
  rewrite (Hsame r1 r2 Hr1 Hr2) in Hx. congruence.
Qed.

Lemma differ_on_distinct first k rows r1 r2 :
  uniform_rows first rows ->
  In k (dict_keys first) ->
  In r1 rows -> In r2 rows -> dict_get r1 k <> dict_get r2 k ->
  (1 < distinct_count (cells_of k rows))%nat.
Proof.
  intros Huni Hk Hr1 Hr2 Hne.
  assert (Hhas : forall r, In r rows -> exists c, dict_get r k = Some c).
  { intros r Hr. destruct (Huni r Hr) as [_ Hkeys].
    apply Hkeys, dict_mem_in in Hk.
    unfold dict_mem, PyDict.mem, dict_get in *.
    destruct (PyDict.get String.eqb r k); [eauto|discriminate]. }
  destruct (Hhas r1 Hr1) as (c1 & Hc1). destruct (Hhas r2 Hr2) as (c2 & Hc2).
  apply distinct_count_two. exists c1, c2.
  split; [apply cells_of_in; eauto|].
  split; [apply cells_of_in; eauto|]. congruence.
Qed.

(** C6 (amended).  On a result of more than one row, with no attribute
    requests outstanding, the selector returns the first slot [s], among
    the non-binary open requestable slots in the domain's order, on
    which two rows differ, provided [s] is not the primary key; slots
    before it on which all rows agree are passed over, and so is the
    primary key, whose column is left empty.  [_raw_action] then asks
    for [s].  Three rows that differ in their area only (and name) make
    the policy ask for the area. *)
Theorem first_discriminating_slot :
  (forall domain bs (first : Row) (rest : list Row) pre s post,
      rest <> [] ->
      requests bs = [] ->
      uniform_rows first (first :: rest) ->
      non_bin_slots_of domain bs = pre ++ s :: post ->
      (forall t, In t pre ->
                 In t (dict_keys first)
                 /\ (t = get_primary_key domain
                     \/ same_on t (first :: rest))) ->
      In s (dict_keys first) ->
      s <> get_primary_key domain ->
      (exists r1 r2,
          In r1 (first :: rest) /\ In r2 (first :: rest)
          /\ dict_get r1 s <> dict_get r2 s) ->
      exists temp,
        build_temp domain (first :: rest) = inr temp
        /\ _gen_next_request domain temp bs = inr s
        /\ (s <> "" ->
            _raw_action domain (first :: rest) bs
            = inr (add_value (set_type new_SysAct Request) s None)))
  /\ (forall domain bs,
        non_bin_slots_of domain bs
        = filter (fun s =>
                    negb (str_in s (snd (_get_constraints bs)))
                    && negb (dict_mem (fst (_get_constraints bs)) s)
                    && negb (List.length (get_possible_values domain s)
                             =? 2)%nat)
                 (get_system_requestable_slots domain))
  /\ _raw_action Demo.domain
       [Demo.venue "Alpha" "thai" "north" "1";
        Demo.venue "Beta" "thai" "south" "1";
        Demo.venue "Gamma" "thai" "east" "1"]
       (Demo.belief [UInform] [] [])
     = inr (mkSysAct (Some Request) [("area", [])]).
Proof.
  split; [|split; [exact non_bin_slots_filter|reflexivity]].
  intros domain bs first rest pre s post Hrest Hreq Huni Hslots Hpre Hs Hpk
         (r1 & r2 & Hr1 & Hr2 & Hdiff).
  destruct (build_temp_spec domain first rest) as (temp & Htemp & Hget).
  { intros row Hrow. destruct (Huni row Hrow) as [Hnd Hkeys].
    split; [assumption|]. intros k. apply Hkeys. }
  assert (Hnext : _gen_next_request domain temp bs = inr s).
  { unfold _gen_next_request. rewrite Hslots.
    rewrite (first_varying_found temp pre s post
               (cells_of s (first :: rest))).
    - reflexivity.
    - intros t Ht. destruct (Hpre t Ht) as [Hkey Hsame].
      pose proof (Hget t Hkey) as Hcol. split.
      + unfold dict_mem, PyDict.mem. unfold dict_get in Hcol.
        rewrite Hcol. reflexivity.
      + unfold column_of. rewrite Hcol.
        destruct (String.eqb_spec t (get_primary_key domain)) as [Heq|Hne].
        * unfold distinct_count. simpl. lia.
        * destruct Hsame as [Heq|Hsame]; [contradiction|].
          apply same_on_distinct. assumption.
    - rewrite (Hget s Hs).
      replace (String.eqb s (get_primary_key domain)) with false
        by (symmetry; apply String.eqb_neq; assumption).
      reflexivity.
    - apply (differ_on_distinct first s (first :: rest) r1 r2); assumption. }
  exists temp. split; [assumption|]. split; [assumption|].
  intros Hne. unfold _raw_action. rewrite Hreq. cbn [nonempty negb].
  replace (1 <? List.length (first :: rest))%nat with true
    by (symmetry; apply Nat.ltb_lt; destruct rest; [congruence|simpl; lia]).
  cbn [andb]. rewrite Htemp. cbn [bind]. rewrite Hnext. cbn [bind].
  replace (String.eqb s "") with false
    by (symmetry; apply String.eqb_neq; assumption).
  reflexivity.
Qed.

Lemma first_discriminating_slot_witness :
  exists temp,
    build_temp Demo.domain
      [Demo.venue "Alpha" "thai" "north" "1";
       Demo.venue "Beta" "thai" "south" "1";
       Demo.venue "Gamma" "thai" "east" "1"]
    = inr temp
    /\ _gen_next_request Demo.domain temp (Demo.belief [UInform] [] [])
       = inr "area".
Proof.
  destruct (proj1 first_discriminating_slot Demo.domain
              (Demo.belief [UInform] [] [])
              (Demo.venue "Alpha" "thai" "north" "1")
              [Demo.venue "Beta" "thai" "south" "1";
               Demo.venue "Gamma" "thai" "east" "1"]
              ["food"] "area" [])
    as (temp & Htemp & Hnext & _).
  - discriminate.
  - reflexivity.
  - intros row [<-|[<-|[<-|[]]]];
      (split; [repeat constructor; simpl; intuition discriminate
              |intros k; simpl; tauto]).
  - reflexivity.
  - intros t [<-|[]]. split; [simpl; auto|]. right.
    intros r1 r2 [<-|[<-|[<-|[]]]] [<-|[<-|[<-|[]]]]; reflexivity.
  - simpl. auto.
  - discriminate.
  - exists (Demo.venue "Alpha" "thai" "north" "1"),
      (Demo.venue "Beta" "thai" "south" "1").
    split; [left; reflexivity|]. split; [right; left; reflexivity|].
    discriminate.
  - exists temp. split; assumption.
Defined.

(** * Further properties *)

(** ** Filler suppression, in full *)

Lemma list_remove_in a x l : In x (list_remove a l) -> In x l.
Proof.
  induction l as [|y l IH]; simpl; [tauto|].
  destruct (uact_eqb y a); simpl; [auto|]. intros [H|H]; auto.
Qed.

Lemma list_remove_other a b l :
  a <> b -> act_in b (list_remove a l) = act_in b l.
Proof.
  intros Hne. induction l as [|y l IH]; simpl; [reflexivity|].
  destruct (uact_eqb y a) eqn:E.
  - apply uact_eqb_eq in E. subst y.
    replace (uact_eqb b a) with false; [reflexivity|].
    symmetry. destruct (uact_eqb b a) eqn:E'; [|reflexivity].
    apply uact_eqb_eq in E'. congruence.
  - simpl. rewrite IH. reflexivity.
Qed.

Lemma list_remove_filter a l :
  is_filler a = true ->
  filter (fun x => negb (is_filler x)) (list_remove a l)
  = filter (fun x => negb (is_filler x)) l.
Proof.
  intros Ha. induction l as [|y l IH]; simpl; [reflexivity|].
  destruct (uact_eqb y a) eqn:E.
  - apply uact_eqb_eq in E. subst y. rewrite Ha. reflexivity.
  - simpl. rewrite IH. reflexivity.
Qed.

Lemma no_filler_filter l :
  act_in UThanks l = false -> act_in UBad l = false ->
  act_in UHello l = false ->
  filter (fun x => negb (is_filler x)) l = l.
Proof.
  induction l as [|y l IH]; simpl; [reflexivity|].
  intros Ht Hb Hh.
  apply orb_false_iff in Ht. apply orb_false_iff in Hb.
  apply orb_false_iff in Hh.
  destruct Ht as [Ht1 Ht2], Hb as [Hb1 Hb2], Hh as [Hh1 Hh2].
  rewrite IH by assumption.
  destruct y; try reflexivity; discriminate.
Qed.

(** X1.  As soon as the user actions hold an act other than [Thanks],
    [Bad] and [Hello], filler suppression leaves exactly the acts other
    than these three, in their order. *)
Theorem remove_gen_actions_keeps_substance (l : list UserActionType) :
  (exists a, In a l /\ is_filler a = false) ->
  _remove_gen_actions l = filter (fun x => negb (is_filler x)) l.
Proof.
  funelim (_remove_gen_actions l); intros (a & Hin & Ha).
  - destruct l as [|x [|y l]]; [destruct Hin| |discriminate].
    destruct Hin as [->|[]]. simpl. rewrite Ha. reflexivity.
  - rewrite H; [apply list_remove_filter; reflexivity|].
    exists a. split; [|assumption]. apply act_in_iff.
    rewrite list_remove_other by (intros <-; discriminate).
    apply act_in_iff. assumption.
  - rewrite H; [apply list_remove_filter; reflexivity|].
    exists a. split; [|assumption]. apply act_in_iff.
    rewrite list_remove_other by (intros <-; discriminate).
    apply act_in_iff. assumption.
  - rewrite H; [apply list_remove_filter; reflexivity|].
    exists a. split; [|assumption]. apply act_in_iff.
    rewrite list_remove_other by (intros <-; discriminate).
    apply act_in_iff. assumption.
  - symmetry. apply no_filler_filter; assumption.
Qed.

Lemma remove_gen_actions_keeps_substance_witness :
  _remove_gen_actions [UHello; UInform; UThanks; URequest; UBad]
  = [UInform; URequest].
Proof.
  apply (remove_gen_actions_keeps_substance
           [UHello; UInform; UThanks; URequest; UBad]).
  exists UInform. split; [simpl; auto|reflexivity].
Defined.

Lemma act_in_head a l : l <> [] -> (forall x, In x l -> x = a) -> act_in a l = true.
Proof.
  destruct l as [|y l]; [congruence|]. intros _ H.
  apply act_in_iff. left. apply H. left. reflexivity.
Qed.

Lemma list_remove_longer a l :
  (1 <? List.length l)%nat = true -> list_remove a l <> [].
Proof.
  intros H. apply list_remove_nonempty. apply Nat.ltb_lt. assumption.
Qed.

Lemma fillers_only_survivor (l : list UserActionType) :
  l <> [] ->
  (forall a, In a l -> is_filler a = true) ->
  _remove_gen_actions l = surviving_filler l.
Proof.
  funelim (_remove_gen_actions l); intros Hne Hall.
  - destruct l as [|x [|y l]]; [congruence| |discriminate].
    specialize (Hall x (or_introl eq_refl)).
    destruct x; try discriminate; reflexivity.
  - rewrite H;
      [|apply list_remove_longer; assumption
       |intros a Ha; apply Hall; eapply list_remove_in; eassumption].
    unfold surviving_filler.
    rewrite !list_remove_other by discriminate.
    destruct (act_in UHello l); [reflexivity|].
    destruct (act_in UBad l); reflexivity.
  - rewrite H;
      [|apply list_remove_longer; assumption
       |intros a Ha; apply Hall; eapply list_remove_in; eassumption].
    unfold surviving_filler.
    rewrite list_remove_other by discriminate.
    destruct (act_in UHello l) eqn:Eh; [reflexivity|].
    match goal with E : act_in UBad l = true |- _ => rewrite E end.
    rewrite act_in_head; [reflexivity|apply list_remove_longer; assumption|].
    intros x Hx. apply list_remove_in in Hx.
    pose proof (Hall x Hx) as Hf.
    destruct x; try discriminate Hf; try reflexivity; exfalso;
      apply act_in_iff in Hx; congruence.
  - unfold surviving_filler.
    match goal with E : act_in UHello l = true |- _ => rewrite E end.
    rewrite H;
      [|apply list_remove_longer; assumption
       |intros a Ha; apply Hall; eapply list_remove_in; eassumption].
    unfold surviving_filler.
    rewrite act_in_head; [reflexivity|apply list_remove_longer; assumption|].
    intros x Hx. apply list_remove_in in Hx.
    pose proof (Hall x Hx) as Hf.
    destruct x; try discriminate Hf; try reflexivity; exfalso;
      apply act_in_iff in Hx; congruence.
  - exfalso. destruct l as [|x l]; [congruence|].
    pose proof (Hall x (or_introl eq_refl)) as Hf.
    assert (Hx : In x (x :: l)) by (left; reflexivity).
    apply act_in_iff in Hx.
    destruct x; try discriminate Hf; congruence.
Qed.

(** X2.  User actions that are all fillers are cut down to a single
    act: [Hello] if there is one, else [Bad] if there is one, else
    [Thanks]. *)
Theorem remove_gen_actions_fillers_only (l : list UserActionType) :
  l <> [] ->
  (forall a, In a l -> is_filler a = true) ->
  _remove_gen_actions l = surviving_filler l.
Proof. exact (fillers_only_survivor l). Qed.

Lemma remove_gen_actions_fillers_only_witness :
  _remove_gen_actions [UBad; UThanks; UHello; UThanks] = [UHello].
Proof.
  apply (remove_gen_actions_fillers_only [UBad; UThanks; UHello; UThanks]).
  - discriminate.
  - intros a [<-|[<-|[<-|[<-|[]]]]]; reflexivity.
Defined.

(** ** Turns that hold fillers only *)

(** Past the first-turn [Welcome] the first-turn flag plays no part. *)
Lemma first_turn_irrelevant domain rt self bs db :
  welcomes self bs = false ->
  choose_sys_act domain rt self bs db
  = choose_sys_act domain rt (set_first_turn self false) bs db.
Proof.
  unfold welcomes, choose_sys_act, set_turns, set_first_turn.
  cbn [first_turn turns max_turns current_suggestions s_index].
  destruct (first_turn self); [|reflexivity].
  cbn [andb]. intros Hw. apply orb_false_iff in Hw. destruct Hw as [-> ->].
  reflexivity.
Qed.

(** Unfolds [choose_sys_act] on a policy whose first-turn flag is
    cleared and whose turn budget is not reached. *)
Ltac dispatch Hw Hmax :=
  rewrite (first_turn_irrelevant _ _ _ _ _ Hw);
  unfold choose_sys_act, set_turns, set_first_turn;
  cbn [first_turn turns max_turns current_suggestions s_index user_acts
       set_user_acts andb];
  rewrite (proj2 (Z.leb_gt _ _) Hmax).

(** X3.  A turn whose user actions are all fillers (and which is neither
    answered with the first-turn [Welcome] nor cut off by the turn
    budget) is answered by the surviving filler alone: [GuideUser] if a
    [Hello] is present, even beside a [Bad]; else [Bad] if a [Bad] is
    present; else [RequestMore].  Only the turn count and the first-turn
    flag change. *)
Theorem filler_turn_outcome
    (domain : Domain) (rt : Runtime) (self : Policy) (bs : BeliefState)
    (db : Db) :
  welcomes self bs = false ->
  turns self + 1 < max_turns self ->
  user_acts bs <> [] ->
  (forall a, In a (user_acts bs) -> is_filler a = true) ->
  choose_sys_act domain rt self bs db
  = inr (set_type new_SysAct
           (if act_in UHello (user_acts bs) then GuideUser
            else if act_in UBad (user_acts bs) then Bad
            else RequestMore),
         empty_sys_state,
         mkPolicy (turns self + 1) false (current_suggestions self)
           (s_index self) (max_turns self),
         db).
Proof.
  intros Hw Hmax Hne Hall.
  dispatch Hw Hmax.
  rewrite (fillers_only_survivor _ Hne Hall).
  unfold surviving_filler.
  destruct (act_in UHello (user_acts bs)); [reflexivity|].
  destruct (act_in UBad (user_acts bs)); reflexivity.
Qed.

Lemma filler_turn_outcome_witness :
  choose_sys_act Demo.domain Demo.runtime (mkPolicy 3 false [] 0 25)
    (Demo.belief [UBad; UHello] [] []) []
  = inr (set_type new_SysAct GuideUser, empty_sys_state,
         mkPolicy 4 false [] 0 25, []).
Proof.
  apply (filler_turn_outcome Demo.domain Demo.runtime
           (mkPolicy 3 false [] 0 25) (Demo.belief [UBad; UHello] [] []) []).
  - reflexivity.
  - reflexivity.
  - discriminate.
  - intros a [<-|[<-|[]]]; reflexivity.
Defined.

(** ** What a turn does to the policy object and to the store *)






Lemma modfiy_db_appends domain rt self bs db db' :
  _modfiy_db domain rt self bs db = inr db' ->
  exists ratings reviews,
    db' = db ++ ratings ++ reviews
    /\ (ratings = []
        \/ exists q name,
            ratings = [EnterRating q name]
            /\ truthy (given_rating bs) = true)
    /\ (reviews = []
        \/ exists r name,
            reviews = [EnterReview (blank_quotes r) name]
            /\ review bs = Some r /\ r <> "").
Proof.
  unfold _modfiy_db. intros H.
  rewrite replace_twice_blank_quotes in H.
  destruct (truthy (given_rating bs)) eqn:Erat;
    destruct (truthy (review bs)) eqn:Erev;
    cbn [bind ret] in H;
    try (destruct (py_float rt _) as [e|q]; cbn [bind] in H;
         [discriminate|]);
    try (destruct (_get_name domain self bs) as [e'|name];
         cbn [bind ret] in H; [discriminate|]);
    inversion H; subst; clear H.
  - apply truthy_some in Erev. destruct Erev as (r & Hr & Hne). rewrite Hr.
    exists [EnterRating q name], [EnterReview (blank_quotes r) name].
    rewrite <- app_assoc. split; [reflexivity|].
    split; right; eauto.
  - exists [EnterRating q name], []. rewrite app_nil_r.
    split; [reflexivity|]. split; [right; eauto|left; reflexivity].
  - apply truthy_some in Erev. destruct Erev as (r & Hr & Hne). rewrite Hr.
    exists [], [EnterReview (blank_quotes r) name].
    split; [reflexivity|]. split; [left; reflexivity|right; eauto].
  - exists [], []. rewrite app_nil_r.
    split; [reflexivity|]. split; left; reflexivity.
Qed.

(** X5.  A turn only ever appends to the store: at most one rating
    followed by at most one review, the review being the belief state's
    text with the quote characters blanked; and it writes nothing unless
    [GiveRating] or [WrittenReview] is among the user actions left by
    filler suppression. *)
Theorem turn_writes_are_appended
    (domain : Domain) (rt : Runtime) (self : Policy) (bs : BeliefState)
    (db : Db) (act : SysAct) (st : SysState) (self' : Policy) (db' : Db) :
  choose_sys_act domain rt self bs db = inr (act, st, self', db') ->
  exists ratings reviews,
    db' = db ++ ratings ++ reviews
    /\ (ratings = []
        \/ exists q name,
            ratings = [EnterRating q name]
            /\ truthy (given_rating bs) = true)
    /\ (reviews = []
        \/ exists r name,
            reviews = [EnterReview (blank_quotes r) name]
            /\ quote_free (blank_quotes r)
            /\ review bs = Some r /\ r <> "")
    /\ (ratings ++ reviews <> [] ->
        act_in UGiveRating (_remove_gen_actions (user_acts bs))
        || act_in UWrittenReview (_remove_gen_actions (user_acts bs))
        = true).
Proof.
  unfold choose_sys_act. intros H.
  cbn [user_acts set_user_acts] in H.
  assert (Hnone : exists ratings reviews : list DbWrite,
             db' = db' ++ ratings ++ reviews
             /\ (ratings = []
                 \/ exists q name,
                     ratings = [EnterRating q name]
                     /\ truthy (given_rating bs) = true)
             /\ (reviews = []
                 \/ exists r name,
                     reviews = [EnterReview (blank_quotes r) name]
                     /\ quote_free (blank_quotes r)
                     /\ review bs = Some r /\ r <> "")
             /\ (ratings ++ reviews <> [] ->
                 act_in UGiveRating (_remove_gen_actions (user_acts bs))
                 || act_in UWrittenReview (_remove_gen_actions (user_acts bs))
                 = true)).
  { exists [], []. rewrite app_nil_r. split; [reflexivity|].
    split; [left; reflexivity|]. split; [left; reflexivity|].
    intros Hne. exfalso. apply Hne. reflexivity. }
  exc_inv; try exact Hnone;
    match goal with
    | Hm : _modfiy_db _ _ _ _ _ = inr _ |- _ =>
        apply modfiy_db_appends in Hm;
        destruct Hm as (ratings & reviews & -> & Hrat & Hrev)
    end;
    exists ratings, reviews; (split; [reflexivity|]);
    (split; [exact Hrat|]);
    (split;
     [destruct Hrev as [Hrev|(r & name & Hrev & Hr & Hne)];
      [left; exact Hrev
      |right; exists r, name;
       repeat split; try assumption; apply blank_quotes_quote_free]
     |intros _;
      repeat match goal with
        | E : act_in _ _ = true |- _ => rewrite E
        end;
      rewrite ?orb_true_r; reflexivity]).
Qed.

Lemma turn_writes_are_appended_witness :
  exists ratings reviews,
    [EnterRating (4 # 1) (Some "Alpha")] = [] ++ ratings ++ reviews
    /\ (ratings = []
        \/ exists q name,
            ratings = [EnterRating q name]
            /\ truthy (Some "4") = true)
    /\ (reviews = []
        \/ exists r name,
            reviews = [EnterReview (blank_quotes r) name]
            /\ quote_free (blank_quotes r)
            /\ (None : option string) = Some r /\ r <> "")
    /\ (ratings ++ reviews <> [] ->
        act_in UGiveRating (_remove_gen_actions [UGiveRating])
        || act_in UWrittenReview (_remove_gen_actions [UGiveRating])
        = true).
Proof.
  apply (turn_writes_are_appended Demo.domain Demo.runtime
           (mkPolicy 2 false [Demo.venue "Alpha" "thai" "north" "1"] 0 25)
           (mkBeliefState [UGiveRating] [] [] (Some "4") None None None None
              None)
           []
           (mkSysAct (Some ConfirmGiveRating)
              [("name", [VStr "Alpha"]); ("ratings_givable", [VStr "4"])])
           empty_sys_state
           (mkPolicy 3 false [Demo.venue "Alpha" "thai" "north" "1"] 0 25)
           [EnterRating (4 # 1) (Some "Alpha")]).
  vm_compute. reflexivity.
Defined.

(** ** The focused entity *)

(** The head of [sorted(items, key=score, reverse=True)]: the first
    entry, in the order of the dictionary, with the highest score. *)
Lemma sorted_head_first_max (d : dict Q) :
  match py_sorted score_ge d with
  | [] => d = []
  | x :: _ =>
      exists d1 d2, d = d1 ++ x :: d2
                    /\ (forall y, In y d1 -> Qlt (snd y) (snd x))
                    /\ (forall y, In y d2 -> Qle (snd y) (snd x))
  end.
Proof.
  induction d as [|a d IH]; cbn [py_sorted fold_right]; [reflexivity|].
  fold (py_sorted score_ge d).
  destruct (py_sorted score_ge d) as [|h t]; cbn [insert_sorted].
  - subst d. exists [], []. repeat split; intros y [].
  - destruct IH as (d1 & d2 & -> & Hlt & Hle).
    unfold score_ge at 1. destruct (Qle_bool (snd h) (snd a)) eqn:E.
    + apply Qle_bool_iff in E. exists [], (d1 ++ h :: d2).
      repeat split; [intros y []|].
      intros y Hy. apply in_app_iff in Hy.
      destruct Hy as [Hy|[<-|Hy]].
      * apply Qlt_le_weak. eapply Qlt_le_trans; [apply Hlt; assumption|].
        assumption.
      * assumption.
      * eapply Qle_trans; [apply Hle; assumption|assumption].
    + assert (Hlt' : Qlt (snd a) (snd h)).
      { apply Qnot_le_lt. intros Hc. apply Qle_bool_iff in Hc. congruence. }
      exists (a :: d1), d2. repeat split; [|assumption].
      intros y [<-|Hy]; [assumption|auto].
Qed.

(** X6.  When the belief state holds informs for the primary key, the
    focused entity is read from them alone, whatever candidate the
    cursor points to: it is the first name, in the order of the informs,
    with the highest confidence, and there is none when the informs for
    the primary key are empty. *)
Theorem get_name_prefers_informs
    (domain : Domain) (self : Policy) (bs : BeliefState)
    (names : dict Q) :
  dict_get (informs bs) (get_primary_key domain) = Some names ->
  (names = [] -> _get_name domain self bs = inr None)
  /\ (names <> [] ->
      exists n q d1 d2,
        _get_name domain self bs = inr (Some n)
        /\ names = d1 ++ (n, q) :: d2
        /\ (forall y, In y d1 -> Qlt (snd y) q)
        /\ (forall y, In y d2 -> Qle (snd y) q)).
Proof.
  intros Hnames. unfold _get_name. rewrite Hnames. split.
  - intros ->. reflexivity.
  - intros Hne. pose proof (sorted_head_first_max names) as Hhead.
    destruct names as [|n0 names']; [congruence|].
    destruct (py_sorted score_ge (n0 :: names')) as [|[n q] t];
      [discriminate|].
    rewrite py_index_head. cbn [bind ret fst].
    destruct Hhead as (d1 & d2 & Hsplit & Hlt & Hle).
    exists n, q, d1, d2. auto.
Qed.

Lemma get_name_prefers_informs_witness :
  exists n q d1 d2,
    _get_name Demo.domain
      (mkPolicy 2 false [Demo.venue "Alpha" "thai" "north" "1"] 0 25)
      (Demo.belief [UInform]
         [("name", [("Beta", 1 # 2); ("Gamma", 9 # 10); ("Delta", 9 # 10)])]
         [])
    = inr (Some n)
    /\ [("Beta", 1 # 2); ("Gamma", 9 # 10); ("Delta", 9 # 10)]
       = d1 ++ (n, q) :: d2
    /\ (forall y, In y d1 -> Qlt (snd y) q)
    /\ (forall y, In y d2 -> Qle (snd y) q).
Proof.
  apply (proj2 (get_name_prefers_informs Demo.domain
                  (mkPolicy 2 false [Demo.venue "Alpha" "thai" "north" "1"]
                     0 25)
                  (Demo.belief [UInform]
                     [("name",
                       [("Beta", 1 # 2); ("Gamma", 9 # 10);
                        ("Delta", 9 # 10)])] [])
                  [("Beta", 1 # 2); ("Gamma", 9 # 10); ("Delta", 9 # 10)]
                  eq_refl)).
  discriminate.
Defined.

Lemma py_index_mod {A} (l : list A) i :
  - Z.of_nat (List.length l) <= i < Z.of_nat (List.length l) ->
  py_index l i
  = match nth_error l (Z.to_nat (i mod Z.of_nat (List.length l))) with
    | Some a => inr a
    | None => inl IndexError
    end.
Proof.
  intros Hi. unfold py_index.
  set (n := Z.of_nat (List.length l)) in *.
  destruct (i <? 0) eqn:Eneg.
  - apply Z.ltb_lt in Eneg.
    replace ((0 <=? i + n) && (i + n <? n)) with true
      by (symmetry; apply andb_true_iff; split;
          [apply Z.leb_le|apply Z.ltb_lt]; lia).
    replace (i mod n) with (i + n); [reflexivity|].
    apply Z.mod_unique with (q := -1); lia.
  - apply Z.ltb_ge in Eneg.
    replace ((0 <=? i) && (i <? n)) with true
      by (symmetry; apply andb_true_iff; split;
          [apply Z.leb_le|apply Z.ltb_lt]; lia).
    rewrite Z.mod_small by lia. reflexivity.
Qed.

Lemma py_index_below {A} (l : list A) i :
  i < - Z.of_nat (List.length l) -> py_index l i = inl IndexError.
Proof.
  intros Hi. unfold py_index.
  replace (i <? 0) with true by (symmetry; apply Z.ltb_lt; lia).
  replace (0 <=? i + Z.of_nat (List.length l)) with false
    by (symmetry; apply Z.leb_gt; lia).
  reflexivity.
Qed.

(** X7.  Without informs for the primary key the focused entity is the
    identifier of the candidate under the cursor.  A cursor at or past
    the end gives none; a negative cursor counts from the end of the
    list, as Python indexes, and below [-len] raises [IndexError]; an
    empty candidate record gives none and one without the primary key
    raises [KeyError]. *)
Theorem get_name_follows_cursor
    (domain : Domain) (self : Policy) (bs : BeliefState) :
  dict_get (informs bs) (get_primary_key domain) = None ->
  (Z.of_nat (List.length (current_suggestions self)) <= s_index self ->
   _get_name domain self bs = inr None)
  /\ (s_index self < - Z.of_nat (List.length (current_suggestions self)) ->
      _get_name domain self bs = inl IndexError)
  /\ (forall row,
        - Z.of_nat (List.length (current_suggestions self)) <= s_index self
        < Z.of_nat (List.length (current_suggestions self)) ->
        nth_error (current_suggestions self)
          (Z.to_nat (s_index self
                     mod Z.of_nat (List.length (current_suggestions self))))
        = Some row ->
        (row = [] -> _get_name domain self bs = inr None)
        /\ (forall c, dict_get row (get_primary_key domain) = Some c ->
                      _get_name domain self bs = inr c)
        /\ (row <> [] -> dict_get row (get_primary_key domain) = None ->
            _get_name domain self bs = inl KeyError)).
Proof.
  intros Hnone. unfold _get_name. rewrite Hnone.
  split; [|split].
  - intros Hge.
    replace (s_index self <? Z.of_nat (List.length (current_suggestions self)))
      with false by (symmetry; apply Z.ltb_ge; assumption).
    reflexivity.
  - intros Hlow.
    replace (s_index self <? Z.of_nat (List.length (current_suggestions self)))
      with true by (symmetry; apply Z.ltb_lt; lia).
    rewrite py_index_below by assumption. reflexivity.
  - intros row Hrange Hrow.
    replace (s_index self <? Z.of_nat (List.length (current_suggestions self)))
      with true by (symmetry; apply Z.ltb_lt; lia).
    rewrite py_index_mod by assumption. rewrite Hrow. cbn [bind].
    split; [intros ->; reflexivity|]. split.
    + intros c Hc. destruct row as [|kv row]; [discriminate|].
      unfold domain_key, dict_item. rewrite Hc. reflexivity.
    + intros Hne Hc. destruct row as [|kv row]; [congruence|].
      unfold domain_key, dict_item. rewrite Hc. reflexivity.
Qed.

Lemma get_name_follows_cursor_witness :
  _get_name Demo.domain
    (mkPolicy 3 false
       [Demo.venue "Alpha" "thai" "north" "1";
        Demo.venue "Beta" "thai" "north" "1"] (-1) 25)
    (Demo.belief [UGiveRating] [] [])
  = inr (Some "Beta").
Proof.
  refine (proj1 (proj2 (proj2 (proj2
            (get_name_follows_cursor Demo.domain
               (mkPolicy 3 false
                  [Demo.venue "Alpha" "thai" "north" "1";
                   Demo.venue "Beta" "thai" "north" "1"] (-1) 25)
               (Demo.belief [UGiveRating] [] []) eq_refl))
            (Demo.venue "Beta" "thai" "north" "1") _ eq_refl))
            (Some "Beta") eq_refl).
  simpl. lia.
Defined.

(** X8.  Asking for alternatives when no candidate is cached and the
    query finds nothing answers ["none"] and leaves the cursor at -1 on
    an empty list.  From then on, as long as the primary key is not
    informed, reading the focused entity raises [IndexError], and so
    does every domain decision that gets past the guards of
    [_next_action]. *)
Theorem empty_alternatives_break_focus
    (domain : Domain) (self : Policy) (sys_act : SysAct) (bs : BeliefState) :
  current_suggestions self = [] ->
  -1 <= s_index self ->
  exists self',
    _convert_inform_by_alternatives domain self sys_act [] bs
    = inr (add_constraints
             (add_value (set_type sys_act InformByAlternatives)
                (get_primary_key domain) (Some (VStr "none"))) bs,
           self')
    /\ self' = mkPolicy (turns self) (first_turn self) [] (-1)
                 (max_turns self)
    /\ forall bs',
        dict_get (informs bs') (get_primary_key domain) = None ->
        _get_name domain self' bs' = inl IndexError
        /\ forall rt db,
            act_in UBad (user_acts bs') = false ->
            (requests bs' <> []
             \/ act_in URequestAlternatives (user_acts bs') = false
             \/ fst (_get_constraints bs') <> []) ->
            _next_action domain rt self' bs' db = inl IndexError.
Proof.
  intros Hempty Hlow. eexists. split; [|split; [reflexivity|]].
  - unfold _convert_inform_by_alternatives.
    cbn [nonempty andb current_suggestions s_index turns first_turn
         max_turns].
    rewrite Hempty. cbn [List.length Z.of_nat].
    replace (s_index self + 1 <=? 0 - 1) with false
      by (symmetry; apply Z.leb_gt; lia).
    reflexivity.
  - intros bs' Hpk.
    assert (Hname : _get_name domain
                      (mkPolicy (turns self) (first_turn self) [] (-1)
                         (max_turns self)) bs'
                    = inl IndexError).
    { unfold _get_name. rewrite Hpk. reflexivity. }
    split; [exact Hname|].
    intros rt db Hbad Hguard. unfold _next_action, _query_db.
    rewrite Hbad, Hname.
    unfold dict_mem, PyDict.mem. unfold dict_get in Hpk. rewrite Hpk.
    destruct (requests bs') as [|r rs] eqn:Ereq; cbn [nonempty bind ret];
      [|reflexivity].
    destruct Hguard as [Hg|[Hg|Hg]]; [congruence| |].
    + rewrite Hg. reflexivity.
    + destruct (fst (_get_constraints bs')); [congruence|].
      cbn [nonempty negb]. rewrite andb_false_r. reflexivity.
Qed.

Lemma empty_alternatives_break_focus_witness :
  _next_action Demo.domain Demo.runtime (mkPolicy 2 false [] (-1) 25)
    (Demo.belief [URequest] [] ["area"]) []
  = inl IndexError.
Proof.
  destruct (empty_alternatives_break_focus Demo.domain
              (mkPolicy 2 false [] 0 25) new_SysAct
              (Demo.belief [URequestAlternatives]
                 [("food", [("pizza", 1 # 1)])] []))
    as (self' & _ & -> & Hbreak).
  - reflexivity.
  - simpl. lia.
  - apply (proj2 (Hbreak (Demo.belief [URequest] [] ["area"]) eq_refl)).
    + reflexivity.
    + left. discriminate.
Defined.

(** ** Constraints and don't-care slots *)

Lemma constraint_of_keys dontcare (l : dict (dict Q)) k :
  In k (dict_keys (flat_map (constraint_of dontcare) l)) ->
  In k (dict_keys l).
Proof.
  unfold dict_keys, PyDict.keys.
  induction l as [|[k0 vals] l IH]; cbn [flat_map map]; [tauto|].
  rewrite map_app, in_app_iff. intros [H|H]; [|right; auto].
  left. unfold constraint_of in H. cbn [fst snd] in H.
  destruct (str_in k0 dontcare); [destruct H|].
  destruct vals; [destruct H|]. destruct H as [H|[]]. exact H.
Qed.

Lemma constraint_of_nodup dontcare (l : dict (dict Q)) :
  NoDup (dict_keys l) ->
  NoDup (dict_keys (flat_map (constraint_of dontcare) l)).
Proof.
  induction l as [|[k0 vals] l IH]; cbn [flat_map]; [constructor|].
  intros Hnd. inversion Hnd as [|? ? Hni Hnd']; subst.
  specialize (IH Hnd').
  unfold constraint_of at 1. cbn [fst snd].
  destruct (str_in k0 dontcare); [exact IH|].
  destruct vals as [|v vals]; [exact IH|].
  cbn [app]. unfold dict_keys, PyDict.keys. cbn [map fst].
  constructor; [|exact IH].
  intros Hin. apply Hni. eapply constraint_of_keys. exact Hin.
Qed.

(** X9.  On a well-formed [informs] dictionary the constraints are
    exactly the informed slots that have at least one value and no
    ["dontcare"] among their values, each once and with all its values
    in their order; the don't-care list holds exactly the slots with a
    ["dontcare"] value, and such a slot is no constraint even if it has
    other values too. *)
Theorem constraints_leave_out_dontcare (bs : BeliefState) :
  NoDup (dict_keys (informs bs)) ->
  (forall slot vs,
      In (slot, vs) (fst (_get_constraints bs)) <->
      exists vals, In (slot, vals) (informs bs) /\ vals <> []
                   /\ dict_mem vals "dontcare" = false
                   /\ vs = dict_keys vals)
  /\ NoDup (dict_keys (fst (_get_constraints bs)))
  /\ (forall slot,
        In slot (snd (_get_constraints bs)) <->
        exists vals, In (slot, vals) (informs bs)
                     /\ dict_mem vals "dontcare" = true)
  /\ (forall slot,
        In slot (snd (_get_constraints bs)) ->
        dict_mem (fst (_get_constraints bs)) slot = false).
Proof.
  intros Hnd. split; [|split; [|split]].
  - intros slot vs. apply get_constraints_iff. assumption.
  - rewrite get_constraints_comprehension by assumption.
    apply constraint_of_nodup. assumption.
  - intros slot. apply dontcare_slots_iff.
  - intros slot Hdc.
    destruct (dict_mem (fst (_get_constraints bs)) slot) eqn:E;
      [|reflexivity].
    exfalso. apply dict_mem_in in E.
    unfold dict_keys, PyDict.keys in E. apply in_map_iff in E.
    destruct E as ([s vs] & Hs & Hin). cbn [fst] in Hs. subst s.
    apply get_constraints_iff in Hin; [|assumption].
    destruct Hin as (vals & Hin & _ & Hno & _).
    apply dontcare_slots_iff in Hdc. destruct Hdc as (vals' & Hin' & Hyes).
    rewrite (in_keys_unique _ _ _ _ Hnd Hin Hin') in Hno. congruence.
Qed.

Lemma constraints_leave_out_dontcare_witness :
  dict_mem
    (fst (_get_constraints
            (Demo.belief [UInform]
               [("food", [("thai", 1 # 1); ("greek", 1 # 2)]);
                ("area", [("north", 1 # 1); ("dontcare", 1 # 1)])] [])))
    "area"
  = false.
Proof.
  apply (proj2 (proj2 (proj2
           (constraints_leave_out_dontcare
              (Demo.belief [UInform]
                 [("food", [("thai", 1 # 1); ("greek", 1 # 2)]);
                  ("area", [("north", 1 # 1); ("dontcare", 1 # 1)])] [])
              ltac:(repeat constructor; simpl; intuition discriminate))))).
  simpl. auto.
Defined.

(** ** Request or inform *)

Lemma info_gain_step_keys domain temp d slot d' :
  info_gain_step domain temp d slot = inr d' ->
  forall k, In k (dict_keys d') -> In k (dict_keys d) \/ k = slot.
Proof.
  unfold info_gain_step. intros H k Hk.
  destruct (get_possible_values domain slot) as [|v1 [|v2 [|v3 l]]];
    try discriminate.
  exc_inv; [|auto].
  unfold dict_set, dict_keys in Hk. rewrite (keys_set String.eqb) in Hk.
  destruct (PyDict.mem String.eqb d slot); [auto|].
  apply in_app_iff in Hk. destruct Hk as [Hk|[Hk|[]]]; auto.
Qed.

Lemma info_gain_loop_keys domain temp slots : forall d d',
  foldM (info_gain_step domain temp) slots d = inr d' ->
  forall k, In k (dict_keys d') -> In k (dict_keys d) \/ In k slots.
Proof.
  induction slots as [|s slots IH]; intros d d' H k Hk; cbn [foldM] in H.
  - exc_inv. auto.
  - destruct (info_gain_step domain temp d s) as [e|d1] eqn:E1;
      cbn [bind] in H; [discriminate|].
    destruct (IH _ _ H k Hk) as [Hd1|Hs]; [|right; right; assumption].
    destruct (info_gain_step_keys _ _ _ _ _ E1 k Hd1) as [Hd| ->];
      [auto|right; left; reflexivity].
Qed.

Lemma highest_info_gain_member domain temp slots r :
  _highest_info_gain domain slots temp = inr r -> r = "" \/ In r slots.
Proof.
  unfold _highest_info_gain. intros H.
  destruct (foldM (info_gain_step domain temp) slots []) as [e|diffs] eqn:E;
    cbn [bind] in H; [discriminate|].
  pose proof (sorted_head_first_min diffs) as Hhead.
  destruct diffs as [|d0 diffs']; [exc_inv; auto|].
  destruct (py_sorted diff_le (d0 :: diffs')) as [|[k z] t];
    [discriminate|].
  rewrite py_index_head in H. cbn [bind ret fst] in H. exc_inv.
  destruct Hhead as (d1 & d2 & Hsplit & _).
  right.
  destruct (info_gain_loop_keys _ _ _ _ _ E r) as [[]|Hin]; [|exact Hin].
  rewrite Hsplit. unfold dict_keys, PyDict.keys.
  rewrite map_app, in_app_iff. right. left. reflexivity.
Qed.

Lemma first_varying_member temp slots s :
  first_varying temp slots = inr (Some s) -> In s slots.
Proof.
  induction slots as [|t slots IH]; cbn [first_varying]; intros H.
  - exc_inv.
  - destruct (dict_item temp t) as [e|column]; cbn [bind] in H;
      [discriminate|].
    destruct (1 <? distinct_count column)%nat.
    + exc_inv. left. reflexivity.
    + right. auto.
Qed.

Lemma gen_next_request_member domain temp bs r :
  _gen_next_request domain temp bs = inr r ->
  r = "" \/ In r (open_req_slots domain bs).
Proof.
  unfold _gen_next_request. intros H.
  destruct (first_varying temp (non_bin_slots_of domain bs))
    as [e|[s|]] eqn:E; cbn [bind] in H; [discriminate| |].
  - exc_inv. right. apply non_bin_slots_open.
    eapply first_varying_member. eassumption.
  - apply highest_info_gain_member in H. destruct H as [H|H]; [auto|].
    right. unfold bin_slots_of in H. apply filter_In in H. tauto.
Qed.

Lemma open_req_slots_in domain bs s :
  In s (open_req_slots domain bs) <->
  In s (get_system_requestable_slots domain)
  /\ str_in s (snd (_get_constraints bs)) = false
  /\ dict_mem (fst (_get_constraints bs)) s = false.
Proof.
  unfold open_req_slots.
  destruct (_get_constraints bs) as [constraints dontcare]. cbn [fst snd].
  rewrite filter_In, andb_true_iff, !negb_true_iff. tauto.
Qed.

(** X10.  [_raw_action] returns either a bare [InformByName] or a
    [Request] for a single slot without values; it only asks when the
    result has more than one row and the user requested no attribute,
    and what it asks for is a system-requestable slot that is neither
    marked ["dontcare"] nor constrained.  On at most one row, or with
    attribute requests outstanding, it informs and cannot raise. *)
Theorem raw_action_asks_open_slots
    (domain : Domain) (q_res : list Row) (bs : BeliefState) :
  (forall act,
      _raw_action domain q_res bs = inr act ->
      act = set_type new_SysAct InformByName
      \/ exists slot,
          act = add_value (set_type new_SysAct Request) slot None
          /\ slot <> ""
          /\ In slot (get_system_requestable_slots domain)
          /\ str_in slot (snd (_get_constraints bs)) = false
          /\ dict_mem (fst (_get_constraints bs)) slot = false
          /\ (1 < List.length q_res)%nat
          /\ requests bs = [])
  /\ ((List.length q_res <= 1)%nat \/ requests bs <> [] ->
      _raw_action domain q_res bs = inr (set_type new_SysAct InformByName)).
Proof.
  split.
  - unfold _raw_action. intros act H.
    destruct ((1 <? List.length q_res)%nat
              && negb (nonempty (requests bs))) eqn:Econd;
      [|exc_inv; auto].
    apply andb_true_iff in Econd. destruct Econd as [Hlen Hreq].
    apply Nat.ltb_lt in Hlen. apply negb_true_iff, nonempty_false in Hreq.
    destruct (build_temp domain q_res) as [e|temp]; cbn [bind] in H;
      [discriminate|].
    destruct (_gen_next_request domain temp bs) as [e|next_req] eqn:Enext;
      cbn [bind] in H; [discriminate|].
    destruct (String.eqb_spec next_req "") as [->|Hne];
      cbn [negb bind ret] in H; exc_inv; [auto|].
    right. exists next_req.
    apply gen_next_request_member in Enext.
    destruct Enext as [Heq|Hin]; [contradiction|].
    apply open_req_slots_in in Hin. tauto.
  - intros Hcond. unfold _raw_action.
    replace ((1 <? List.length q_res)%nat && negb (nonempty (requests bs)))
      with false; [reflexivity|].
    symmetry. apply andb_false_iff.
    destruct Hcond as [Hlen|Hreq].
    + left. apply Nat.ltb_ge. assumption.
    + right. apply negb_false_iff.
      destruct (requests bs); [congruence|reflexivity].
Qed.

Lemma raw_action_asks_open_slots_witness :
  (mkSysAct (Some Request) [("area", [])] = set_type new_SysAct InformByName
   \/ exists slot,
       mkSysAct (Some Request) [("area", [])]
       = add_value (set_type new_SysAct Request) slot None
       /\ slot <> ""
       /\ In slot (get_system_requestable_slots Demo.domain)
       /\ str_in slot
            (snd (_get_constraints (Demo.belief [UInform] Demo.wants_thai [])))
          = false
       /\ dict_mem
            (fst (_get_constraints (Demo.belief [UInform] Demo.wants_thai [])))
            slot
          = false
       /\ (1 < List.length
                 [Demo.venue "Alpha" "thai" "north" "1";
                  Demo.venue "Beta" "thai" "south" "1"])%nat
       /\ requests (Demo.belief [UInform] Demo.wants_thai []) = [])
  /\ _raw_action Demo.domain [Demo.venue "Alpha" "thai" "north" "1"]
       (Demo.belief [UInform] Demo.wants_thai [])
     = inr (set_type new_SysAct InformByName).
Proof.
  split.
  - apply (proj1 (raw_action_asks_open_slots Demo.domain
                    [Demo.venue "Alpha" "thai" "north" "1";
                     Demo.venue "Beta" "thai" "south" "1"]
                    (Demo.belief [UInform] Demo.wants_thai []))).
    reflexivity.
  - apply (proj2 (raw_action_asks_open_slots Demo.domain
                    [Demo.venue "Alpha" "thai" "north" "1"]
                    (Demo.belief [UInform] Demo.wants_thai []))).
    left. simpl. lia.
Defined.

Lemma build_temp_keys domain (first : Row) (rest : list Row) :
  uniform_rows first (first :: rest) ->
  exists temp,
    build_temp domain (first :: rest) = inr temp
    /\ forall k, In k (dict_keys temp) <-> In k (dict_keys first).
Proof.
  intros Huni. unfold build_temp. rewrite py_index_head. cbn [bind].
  destruct (add_rows_spec domain (first :: rest) (empty_columns first))
    as (temp & -> & Hkeys & _).
  - intros row Hrow. destruct (Huni row Hrow) as [Hnd Hk].
    split; [assumption|]. intros k Hin. unfold empty_columns.
    apply empty_columns_keys. left. apply Hk. assumption.
  - exists temp. split; [reflexivity|]. intros k. rewrite Hkeys.
    unfold empty_columns. rewrite empty_columns_keys. cbn [dict_keys].
    split; [intros [H|[]]; exact H|auto].
Qed.

Lemma first_varying_missing temp pre s post :
  (forall t, In t pre ->
             dict_mem temp t = true
             /\ (distinct_count (column_of temp t) <= 1)%nat) ->
  dict_get temp s = None ->
  first_varying temp (pre ++ s :: post) = inl KeyError.
Proof.
  intros Hpre Hs.
  induction pre as [|t pre IH]; cbn [app first_varying].
  - unfold dict_item. rewrite Hs. reflexivity.
  - destruct (Hpre t (or_introl eq_refl)) as [Hmem Hcount].
    unfold column_of, dict_mem, PyDict.mem, dict_item, dict_get in *.
    destruct (PyDict.get String.eqb temp t) as [column|]; [|discriminate].
    cbn [bind ret].
    replace (1 <? distinct_count column)%nat with false
      by (symmetry; apply Nat.ltb_ge; assumption).
    apply IH. intros t' Ht'. apply Hpre. right. assumption.
Qed.

(** X11.  A question cannot be chosen when an open non-binary
    requestable slot is no column of the result: on more than one row
    and without attribute requests, [_raw_action] raises [KeyError] as
    soon as its scan reaches such a slot, that is, when all rows agree
    on every slot scanned before it. *)
Theorem raw_action_missing_column
    (domain : Domain) (bs : BeliefState) (first : Row) (rest : list Row)
    (pre : list string) (s : string) (post : list string) :
  rest <> [] ->
  requests bs = [] ->
  uniform_rows first (first :: rest) ->
  non_bin_slots_of domain bs = pre ++ s :: post ->
  (forall t, In t pre ->
             In t (dict_keys first)
             /\ (t = get_primary_key domain \/ same_on t (first :: rest))) ->
  ~ In s (dict_keys first) ->
  _raw_action domain (first :: rest) bs = inl KeyError.
Proof.
  intros Hrest Hreq Huni Hslots Hpre Hs.
  destruct (build_temp_keys domain first rest Huni) as (temp & Htemp & Hkeys).
  destruct (build_temp_columns domain first rest Huni)
    as (temp' & Htemp' & Hcols).
  rewrite Htemp in Htemp'. inversion Htemp'; subst temp'. clear Htemp'.
  unfold _raw_action. rewrite Hreq. cbn [nonempty negb].
  replace (1 <? List.length (first :: rest))%nat with true
    by (symmetry; apply Nat.ltb_lt; destruct rest; [congruence|simpl; lia]).
  cbn [andb]. rewrite Htemp. cbn [bind].
  unfold _gen_next_request. rewrite Hslots.
  rewrite first_varying_missing; [reflexivity| |].
  - intros t Ht. destruct (Hpre t Ht) as [Hkey Hsame].
    destruct (Hcols t Hkey) as [Hmem Hcol]. split; [assumption|].
    rewrite Hcol.
    destruct (String.eqb_spec t (get_primary_key domain)) as [Heq|Hne].
    + unfold distinct_count. simpl. lia.
    + destruct Hsame as [Heq|Hsame]; [contradiction|].
      apply same_on_distinct. assumption.
  - apply (get_none_notin _ String.eqb_eq). intros Hin.
    apply Hs, Hkeys. exact Hin.
Qed.

Lemma raw_action_missing_column_witness :
  _raw_action Demo.cafe_domain
    [[("name", Some "Uno"); ("wifi", Some "yes")];
     [("name", Some "Due"); ("wifi", Some "no")]]
    (Demo.belief [UInform] [] [])
  = inl KeyError.
Proof.
  apply (raw_action_missing_column Demo.cafe_domain
           (Demo.belief [UInform] [] [])
           [("name", Some "Uno"); ("wifi", Some "yes")]
           [[("name", Some "Due"); ("wifi", Some "no")]]
           [] "kind" []).
  - discriminate.
  - reflexivity.
  - intros row [<-|[<-|[]]];
      (split; [repeat constructor; simpl; intuition discriminate
              |intros k; simpl; tauto]).
  - reflexivity.
  - intros t [].
  - simpl. intuition discriminate.
Defined.

(** ** Entity details, beyond the sentinel *)

(** X12.  An entity-detail inform looks at the first row only and at its
    first four attributes only: no other slot of the action changes,
    except the primary key, which, when it is not among these four, gets
    the focused entity's identifier (or no value if there is none). *)
Theorem primkey_inform_first_four
    (domain : Domain) (rt : Runtime) (self : Policy) (result : Row)
    (rest : list Row) (sys_act : SysAct) (bs : BeliefState) (act : SysAct) :
  _convert_inform_by_primkey domain rt self (result :: rest) sys_act bs
  = inr act ->
  (forall k,
      ~ In k (dict_keys (firstn 4 result)) ->
      k <> get_primary_key domain ->
      get_values act k = get_values sys_act k)
  /\ (~ In (get_primary_key domain) (dict_keys (firstn 4 result)) ->
      exists name,
        _get_name domain self bs = inr name
        /\ get_values act (get_primary_key domain)
           = get_values sys_act (get_primary_key domain)
             ++ match name with Some n => [VStr n] | None => [] end).
Proof.
  unfold _convert_inform_by_primkey. intros H.
  destruct (foldM (primkey_step rt) (firstn 4 result)
              (set_type sys_act InformByName)) as [e|a1] eqn:Efold;
    cbn [bind] in H; [discriminate|].
  assert (Hother : forall k, ~ In k (dict_keys (firstn 4 result)) ->
                             get_values a1 k = get_values sys_act k).
  { intros k Hk. rewrite (primkey_fold_other rt _ _ _ k Efold Hk).
    apply get_values_set_type. }
  destruct (str_in (domain_key domain) (dict_keys (firstn 4 result)))
    eqn:Ekey; cbn [negb] in H.
  - exc_inv. apply str_in_iff in Ekey. unfold domain_key in Ekey.
    split; [intros k Hk _; auto|]. intros Hni. contradiction.
  - destruct (_get_name domain self bs) as [e|name] eqn:Ename;
      cbn [bind ret] in H; [discriminate|]. exc_inv.
    assert (Hni : ~ In (get_primary_key domain)
                    (dict_keys (firstn 4 result))).
    { intros Hin. apply str_in_iff in Hin. unfold domain_key in Ekey.
      congruence. }
    split.
    + intros k Hk Hne. unfold domain_key.
      rewrite get_values_add_other by congruence. auto.
    + intros _. exists name. split; [reflexivity|]. unfold domain_key.
      destruct name as [n|]; cbn [opt_value].
      * rewrite get_values_add_same, Hother by assumption. reflexivity.
      * rewrite get_values_add_none, Hother by assumption.
        rewrite app_nil_r. reflexivity.
Qed.

Lemma primkey_inform_first_four_witness :
  get_values
    (mkSysAct (Some InformByName)
       [("name", [VStr "Alpha"]); ("phone", [VStr "not available"]);
        ("address", [VStr "not available"]); ("parking_lot", [VStr "a"])])
    "food"
  = get_values new_SysAct "food".
Proof.
  refine (proj1 (primkey_inform_first_four Demo.domain Demo.runtime
                   (new_policy 25)
                   [("name", Some "Alpha"); ("phone", None);
                    ("address", Some ""); ("parking_lot", Some "1");
                    ("food", Some "thai")]
                   [] new_SysAct (Demo.belief [URequest] [] ["phone"])
                   _ eq_refl) "food" _ _).
  - simpl. intuition discriminate.
  - discriminate.
Defined.

Lemma available_some s :
  s <> "" -> s <> "None" -> available (Some s) = true.
Proof.
  intros H1 H2. cbn [available].
  apply String.eqb_neq in H1. apply String.eqb_neq in H2.
  rewrite H1, H2. reflexivity.
Qed.

Ltac eqb_false :=
  repeat match goal with
    | H : ?x <> ?y |- context [String.eqb ?x ?y] =>
        rewrite (proj2 (String.eqb_neq x y) H)
    end.

Lemma primkey_step_verbatim rt a k s :
  available (Some s) = true ->
  k <> "opening_hours" -> k <> "reviews" -> k <> "parking_lot" ->
  k <> "manner" -> k <> "description" ->
  primkey_step rt a (k, Some s) = inr (add_value a k (Some (VStr s))).
Proof.
  intros Hs H1 H2 H3 H4 H5. unfold primkey_step. cbn [fst snd].
  rewrite Hs. eqb_false. cbn [andb bind ret]. reflexivity.
Qed.

Lemma primkey_step_parking rt a s :
  available (Some s) = true ->
  primkey_step rt a ("parking_lot", Some s)
  = inr (add_value a "parking_lot"
           (Some (VStr (if String.eqb s "0" then "no"
                        else if String.eqb s "1" then "a" else s)))).
Proof.
  intros Hs. unfold primkey_step. cbn [fst snd]. rewrite Hs.
  repeat first [ progress eqb_ground | progress cbn [andb negb bind ret] ].
  destruct (String.eqb_spec s "not available") as [->|Hna];
    [reflexivity|].
  cbn [negb].
  destruct (String.eqb_spec s "0") as [->|H0]; [reflexivity|].
  destruct (String.eqb s "1"); reflexivity.
Qed.

Lemma primkey_step_description rt a s :
  available (Some s) = true -> s <> "not available" ->
  primkey_step rt a ("description", Some s)
  = inr (add_value a "description" (Some (VStr (String.append nl s)))).
Proof.
  intros Hs Hna. unfold primkey_step. cbn [fst snd]. rewrite Hs.
  repeat first [ progress eqb_ground | progress cbn [andb negb bind ret] ].
  eqb_false. reflexivity.
Qed.

Lemma primkey_fold_value rt keys : forall a a' kv v,
  NoDup (dict_keys keys) ->
  foldM (primkey_step rt) keys a = inr a' ->
  In kv keys ->
  (forall b, primkey_step rt b kv = inr (add_value b (fst kv) (Some v))) ->
  get_values a' (fst kv) = get_values a (fst kv) ++ [v].
Proof.
  induction keys as [|kv0 keys IH]; intros a a' kv v Hnd H Hin Hstep;
    cbn [foldM] in H; [contradiction|].
  inversion Hnd as [|? ? Hni Hnd']; subst.
  destruct (primkey_step rt a kv0) as [e|a1] eqn:E1; cbn [bind] in H;
    [discriminate|].
  destruct Hin as [->|Hin].
  - rewrite Hstep in E1. inversion E1; subst.
    rewrite (primkey_fold_other _ _ _ _ _ H) by exact Hni.
    apply get_values_add_same.
  - rewrite (IH _ _ _ _ Hnd' H Hin Hstep).
    apply primkey_step_shape in E1. destruct E1 as (res & ->).
    rewrite get_values_add_other; [reflexivity|].
    intros Heq. apply Hni. rewrite Heq. apply in_map. assumption.
Qed.

(** X13.  What an entity-detail inform says about an attribute of the
    first four whose cell holds a text (not empty, not ["None"]), in an
    action that had no value for it: the text itself, unless a
    formatting rule applies; for the parking flag ["no"] for ["0"] and
    ["a"] for ["1"]; for the description the text after a line break. *)
Theorem primkey_inform_renders
    (domain : Domain) (rt : Runtime) (self : Policy) (result : Row)
    (rest : list Row) (sys_act : SysAct) (bs : BeliefState) (act : SysAct)
    (k s : string) :
  _convert_inform_by_primkey domain rt self (result :: rest) sys_act bs
  = inr act ->
  NoDup (dict_keys result) ->
  In (k, Some s) (firstn 4 result) ->
  s <> "" -> s <> "None" ->
  get_values sys_act k = [] ->
  (k <> "opening_hours" -> k <> "reviews" -> k <> "parking_lot" ->
   k <> "manner" -> k <> "description" ->
   get_values act k = [VStr s])
  /\ (k = "parking_lot" ->
      get_values act k
      = [VStr (if String.eqb s "0" then "no"
               else if String.eqb s "1" then "a" else s)])
  /\ (k = "description" -> s <> "not available" ->
      get_values act k = [VStr (String.append nl s)]).
Proof.
  unfold _convert_inform_by_primkey. intros H Hnd Hin Hs1 Hs2 Hempty.
  pose proof (available_some s Hs1 Hs2) as Hav.
  destruct (foldM (primkey_step rt) (firstn 4 result)
              (set_type sys_act InformByName)) as [e|a1] eqn:Efold;
    cbn [bind] in H; [discriminate|].
  assert (Hkey : In k (dict_keys (firstn 4 result)))
    by (change k with (fst (k, Some s)); apply in_map; assumption).
  assert (Hact : get_values act k = get_values a1 k).
  { destruct (str_in (domain_key domain) (dict_keys (firstn 4 result)))
      eqn:Ekey; cbn [negb] in H; [exc_inv; reflexivity|].
    destruct (_get_name domain self bs) as [e|name]; cbn [bind ret] in H;
      [discriminate|]. exc_inv.
    apply get_values_add_other. intros Heq. subst k.
    apply str_in_iff in Hkey. congruence. }
  assert (Hval : forall v,
             (forall b, primkey_step rt b (k, Some s)
                        = inr (add_value b k (Some v))) ->
             get_values act k = [v]).
  { intros v Hstep. rewrite Hact.
    pose proof (primkey_fold_value rt _ _ _ (k, Some s) v
                  (firstn_keys_nodup _ 4 Hnd) Efold Hin Hstep) as Hv.
    cbn [fst] in Hv. rewrite Hv, get_values_set_type, Hempty.
    reflexivity. }
  split; [|split].
  - intros H1 H2 H3 H4 H5. apply Hval. intros b.
    apply primkey_step_verbatim; assumption.
  - intros ->. apply Hval. intros b. apply primkey_step_parking. assumption.
  - intros -> Hna. apply Hval. intros b.
    apply primkey_step_description; assumption.
Qed.

Lemma primkey_inform_renders_witness :
  get_values
    (mkSysAct (Some InformByName)
       [("name", [VStr "Alpha"]); ("phone", [VStr "not available"]);
        ("address", [VStr "not available"]); ("parking_lot", [VStr "a"])])
    "parking_lot"
  = [VStr "a"].
Proof.
  refine (proj1 (proj2 (primkey_inform_renders Demo.domain Demo.runtime
                   (new_policy 25)
                   [("name", Some "Alpha"); ("phone", None);
                    ("address", Some ""); ("parking_lot", Some "1");
                    ("food", Some "thai")]
                   [] new_SysAct (Demo.belief [URequest] [] ["phone"])
                   _ "parking_lot" "1" eq_refl _ _ _ _ eq_refl)) eq_refl).
  - repeat constructor; simpl; intuition discriminate.
  - simpl. auto.
  - discriminate.
  - discriminate.
Defined.

(** ** Offers, scrolling and the focused entity *)

Lemma py_index_nth {A} (l : list A) i a :
  0 <= i -> nth_error l (Z.to_nat i) = Some a -> py_index l i = inr a.
Proof.
  intros Hi Hnth. unfold py_index.
  assert (Hlt : (Z.to_nat i < List.length l)%nat)
    by (apply nth_error_Some; congruence).
  replace (i <? 0) with false by (symmetry; apply Z.ltb_ge; lia).
  replace ((0 <=? i) && (i <? Z.of_nat (List.length l))) with true
    by (symmetry; apply andb_true_iff; split;
        [apply Z.leb_le|apply Z.ltb_lt]; lia).
  rewrite Hnth. reflexivity.
Qed.

Lemma get_name_at domain self bs row c :
  dict_get (informs bs) (get_primary_key domain) = None ->
  0 <= s_index self ->
  nth_error (current_suggestions self) (Z.to_nat (s_index self)) = Some row ->
  dict_get row (get_primary_key domain) = Some c ->
  _get_name domain self bs = inr c.
Proof.
  intros Hpk Hi Hnth Hc. unfold _get_name. rewrite Hpk.
  assert (Hlt : (Z.to_nat (s_index self)
                 < List.length (current_suggestions self))%nat)
    by (apply nth_error_Some; congruence).
  replace (s_index self <? Z.of_nat (List.length (current_suggestions self)))
    with true by (symmetry; apply Z.ltb_lt; lia).
  rewrite (py_index_nth _ _ _ Hi Hnth). cbn [bind].
  destruct row as [|kv row]; [discriminate|].
  unfold domain_key, dict_item. rewrite Hc. reflexivity.
Qed.

(** X14.  A constraint-based inform on a non-empty result replaces the
    candidate list by the result, whatever was cached, puts the cursor
    on its first row and offers that row's identifier in an
    [InformByName]; afterwards, unless the primary key is informed, the
    focused entity is the offered one. *)
Theorem offer_sets_focus
    (domain : Domain) (self : Policy) (row : Row) (rest : list Row)
    (sys_act : SysAct) (bs : BeliefState) (c : Cell) :
  dict_get row (get_primary_key domain) = Some c ->
  _convert_inform_by_constraints domain self (row :: rest) sys_act bs
  = inr (add_constraints
           (set_type
              (add_value sys_act (get_primary_key domain) (opt_value c))
              InformByName) bs,
         mkPolicy (turns self) (first_turn self) (row :: rest) 0
           (max_turns self))
  /\ forall bs',
      dict_get (informs bs') (get_primary_key domain) = None ->
      _get_name domain
        (mkPolicy (turns self) (first_turn self) (row :: rest) 0
           (max_turns self)) bs'
      = inr c.
Proof.
  intros Hc. split.
  - unfold _convert_inform_by_constraints.
    cbn [nonempty app current_suggestions s_index turns first_turn
         max_turns].
    rewrite py_index_head. cbn [bind]. unfold domain_key, dict_item.
    rewrite Hc. reflexivity.
  - intros bs' Hpk. apply (get_name_at domain _ bs' row c Hpk).
    + cbn. lia.
    + reflexivity.
    + exact Hc.
Qed.

Lemma offer_sets_focus_witness :
  _get_name Demo.domain
    (mkPolicy 1 false
       [Demo.venue "Alpha" "thai" "north" "1";
        Demo.venue "Beta" "thai" "north" "1"] 0 25)
    (Demo.belief [UGiveRating] [] [])
  = inr (Some "Alpha").
Proof.
  apply (proj2 (offer_sets_focus Demo.domain (mkPolicy 1 false [] 0 25)
                  (Demo.venue "Alpha" "thai" "north" "1")
                  [Demo.venue "Beta" "thai" "north" "1"]
                  new_SysAct (Demo.belief [UInform] Demo.wants_thai [])
                  (Some "Alpha") eq_refl)).
  reflexivity.
Defined.

(** X15.  Scrolling through alternatives.  With no candidate cached, a
    non-empty result is cached and its first row is offered in an
    [InformByName], wherever the cursor stood.  With candidates cached
    the result of the query is not looked at: the cursor moves one step
    and, while it stays in the list, that candidate is offered in an
    [InformByAlternatives].  In both cases the offered candidate is the
    focused entity afterwards, unless the primary key is informed. *)
Theorem alternatives_scroll_the_cache
    (domain : Domain) (self : Policy) (sys_act : SysAct) (bs : BeliefState)
    (row : Row) (c : Cell) :
  dict_get row (get_primary_key domain) = Some c ->
  (forall rest,
      current_suggestions self = [] ->
      _convert_inform_by_alternatives domain self sys_act (row :: rest) bs
      = inr (add_constraints
               (add_value (set_type sys_act InformByName)
                  (get_primary_key domain) (opt_value c)) bs,
             mkPolicy (turns self) (first_turn self) (row :: rest) 0
               (max_turns self))
      /\ forall bs',
          dict_get (informs bs') (get_primary_key domain) = None ->
          _get_name domain
            (mkPolicy (turns self) (first_turn self) (row :: rest) 0
               (max_turns self)) bs'
          = inr c)
  /\ (forall q_res,
        current_suggestions self <> [] ->
        0 <= s_index self ->
        nth_error (current_suggestions self) (Z.to_nat (s_index self + 1))
        = Some row ->
        _convert_inform_by_alternatives domain self sys_act q_res bs
        = inr (add_constraints
                 (add_value (set_type sys_act InformByAlternatives)
                    (get_primary_key domain) (opt_value c)) bs,
               mkPolicy (turns self) (first_turn self)
                 (current_suggestions self) (s_index self + 1)
                 (max_turns self))
        /\ forall bs',
            dict_get (informs bs') (get_primary_key domain) = None ->
            _get_name domain
              (mkPolicy (turns self) (first_turn self)
                 (current_suggestions self) (s_index self + 1)
                 (max_turns self)) bs'
            = inr c).
Proof.
  intros Hc. split.
  - intros rest Hempty. split.
    + unfold _convert_inform_by_alternatives. rewrite Hempty.
      cbn [nonempty negb andb app current_suggestions s_index turns
           first_turn max_turns].
      replace (-1 + 1 <=? Z.of_nat (List.length (row :: rest)) - 1) with true
        by (symmetry; apply Z.leb_le; cbn [List.length]; lia).
      change (-1 + 1) with 0. rewrite py_index_head. cbn [bind].
      unfold domain_key, dict_item. rewrite Hc. reflexivity.
    + intros bs' Hpk. apply (get_name_at domain _ bs' row c Hpk).
      * cbn. lia.
      * reflexivity.
      * exact Hc.
  - intros q_res Hne Hi Hnth. split.
    + unfold _convert_inform_by_alternatives.
      replace (nonempty (current_suggestions self)) with true
        by (destruct (current_suggestions self); [congruence|reflexivity]).
      rewrite andb_false_r.
      cbn [current_suggestions s_index turns first_turn max_turns].
      assert (Hlt : (Z.to_nat (s_index self + 1)
                     < List.length (current_suggestions self))%nat)
        by (apply nth_error_Some; congruence).
      replace (s_index self + 1
               <=? Z.of_nat (List.length (current_suggestions self)) - 1)
        with true by (symmetry; apply Z.leb_le; lia).
      replace (s_index self + 1 =? 0) with false
        by (symmetry; apply Z.eqb_neq; lia).
      assert (Hi' : 0 <= s_index self + 1) by lia.
      rewrite (py_index_nth _ _ _ Hi' Hnth). cbn [bind].
      unfold domain_key, dict_item. rewrite Hc. reflexivity.
    + intros bs' Hpk. apply (get_name_at domain _ bs' row c Hpk).
      * cbn. lia.
      * exact Hnth.
      * exact Hc.
Qed.

Lemma alternatives_scroll_the_cache_witness :
  _get_name Demo.domain
    (mkPolicy 2 false
       [Demo.venue "Alpha" "thai" "north" "1";
        Demo.venue "Beta" "thai" "north" "1"] (0 + 1) 25)
    (Demo.belief [UGiveRating] [] [])
  = inr (Some "Beta").
Proof.
  refine (proj2 (proj2 (alternatives_scroll_the_cache Demo.domain
                   (mkPolicy 2 false
                      [Demo.venue "Alpha" "thai" "north" "1";
                       Demo.venue "Beta" "thai" "north" "1"] 0 25)
                   new_SysAct
                   (Demo.belief [URequestAlternatives] Demo.wants_thai [])
                   (Demo.venue "Beta" "thai" "north" "1") (Some "Beta")
                   eq_refl)
                 [] _ _ eq_refl) (Demo.belief [UGiveRating] [] []) eq_refl).
  - discriminate.
  - simpl. lia.
Defined.

(** X16.  Scrolling past the last candidate answers ["none"], yet the
    cursor stays on the last candidate: unless the primary key is
    informed, the focused entity is then that candidate, not none. *)
Theorem past_end_keeps_last_in_focus
    (domain : Domain) (self : Policy) (sys_act : SysAct)
    (q_res : list Row) (bs : BeliefState) (row : Row) (c : Cell) :
  Z.of_nat (List.length (current_suggestions self)) - 1 <= s_index self ->
  nth_error (current_suggestions self)
    (List.length (current_suggestions self) - 1) = Some row ->
  dict_get row (get_primary_key domain) = Some c ->
  exists act self',
    _convert_inform_by_alternatives domain self sys_act q_res bs
    = inr (act, self')
    /\ In (VStr "none") (get_values act (get_primary_key domain))
    /\ current_suggestions self' = current_suggestions self
    /\ forall bs',
        dict_get (informs bs') (get_primary_key domain) = None ->
        _get_name domain self' bs' = inr c.
Proof.
  intros Hend Hnth Hc.
  assert (Hlt : (List.length (current_suggestions self) - 1
                 < List.length (current_suggestions self))%nat)
    by (apply nth_error_Some; congruence).
  assert (Hne : current_suggestions self <> [])
    by (intros E; rewrite E in Hlt; simpl in Hlt; lia).
  rewrite (alternatives_past_end domain self sys_act q_res bs Hne Hend).
  eexists. eexists. split; [reflexivity|]. split; [|split].
  - apply add_constraints_spec. rewrite get_values_add_same.
    apply in_or_app. right. left. reflexivity.
  - reflexivity.
  - intros bs' Hpk. apply (get_name_at domain _ bs' row c Hpk).
    + cbn. lia.
    + cbn [s_index current_suggestions].
      replace (Z.to_nat (Z.of_nat (List.length (current_suggestions self)) - 1))
        with (List.length (current_suggestions self) - 1)%nat by lia.
      exact Hnth.
    + exact Hc.
Qed.

Lemma past_end_keeps_last_in_focus_witness :
  exists act self',
    _convert_inform_by_alternatives Demo.domain
      (mkPolicy 3 false
         [Demo.venue "Alpha" "thai" "north" "1";
          Demo.venue "Beta" "thai" "north" "1"] 1 25)
      new_SysAct []
      (Demo.belief [URequestAlternatives] Demo.wants_thai [])
    = inr (act, self')
    /\ In (VStr "none") (get_values act "name")
    /\ current_suggestions self'
       = [Demo.venue "Alpha" "thai" "north" "1";
          Demo.venue "Beta" "thai" "north" "1"]
    /\ forall bs',
        dict_get (informs bs') "name" = None ->
        _get_name Demo.domain self' bs' = inr (Some "Beta").
Proof.
  apply (past_end_keeps_last_in_focus Demo.domain
           (mkPolicy 3 false
              [Demo.venue "Alpha" "thai" "north" "1";
               Demo.venue "Beta" "thai" "north" "1"] 1 25)
           new_SysAct []
           (Demo.belief [URequestAlternatives] Demo.wants_thai [])
           (Demo.venue "Beta" "thai" "north" "1") (Some "Beta")).
  - simpl. lia.
  - reflexivity.
  - reflexivity.
Defined.

(** ** The domain-specific decision *)

Lemma raw_action_type domain q_res bs act :
  _raw_action domain q_res bs = inr act ->
  is_type act Request = true \/ is_type act InformByName = true.
Proof.
  unfold _raw_action. intros H.
  exc_inv; unfold is_type; rewrite ?act_type_add_value; cbn; auto.
Qed.

(** X17.  An inform that [_next_action] builds from a query (not the
    by-name shortcut) always names an entity: either the inform builder
    put a value into the primary-key slot, and the first such value is
    recorded as [lastInformedPrimKeyVal]; or it put none, and then the
    slot holds ["none"] and nothing is recorded. *)
Theorem next_action_inform_names_entity
    (domain : Domain) (rt : Runtime) (self : Policy) (bs : BeliefState)
    (db : Db) (act : SysAct) (st : SysState) (self' : Policy) :
  _next_action domain rt self bs db = inr (act, st, self') ->
  is_type act Bad = false ->
  is_type act Request = false ->
  dict_mem (informs bs) (get_primary_key domain)
  && negb (nonempty (requests bs)) = false ->
  lastRequestSlot st = None
  /\ ((exists v rest,
          get_values act (get_primary_key domain) = v :: rest
          /\ lastInformedPrimKeyVal st = Some v)
      \/ (get_values act (get_primary_key domain) = [VStr "none"]
          /\ lastInformedPrimKeyVal st = None)).
Proof.
  unfold _next_action. intros H Hbad Hreq Hfast.
  rewrite Hfast in H.
  assert (Hrej : forall reject : bool,
             (if reject
              then ret (set_type new_SysAct Bad, empty_sys_state, self)
              else inl KeyError)
             = inr (act, st, self') -> False).
  { clear H. intros [|] Hr; [|discriminate]. inversion Hr; subst.
    unfold is_type, set_type in Hbad. cbn in Hbad. discriminate. }
  destruct (act_in UBad (user_acts bs)); cbn [bind ret] in H;
    [exfalso; apply (Hrej true); exact H|].
  destruct (nonempty (requests bs)); cbn [bind ret] in H.
  - destruct (_get_name domain self bs) as [e|name]; cbn [bind ret] in H;
      [discriminate|].
    destruct (negb (truthy name));
      [exfalso; apply (Hrej true); exact H|].
    exc_inv; try (unfold is_type, set_type in Hbad; cbn in Hbad; discriminate); try congruence.
    + split; [reflexivity|]. right. split; [|reflexivity].
      rewrite get_values_add_same.
      match goal with E : get_values _ _ = [] |- _ => rewrite E end.
      reflexivity.
    + split; [reflexivity|]. left. eauto.
    + exfalso.
      match goal with
      | Hr : _raw_action _ _ _ = inr _ |- _ =>
          destruct (raw_action_type _ _ _ _ Hr); congruence
      end.
  - exc_inv; try (unfold is_type, set_type in Hbad; cbn in Hbad; discriminate); try congruence.
    + split; [reflexivity|]. right. split; [|reflexivity].
      rewrite get_values_add_same.
      match goal with E : get_values _ _ = [] |- _ => rewrite E end.
      reflexivity.
    + split; [reflexivity|]. left. eauto.
    + exfalso.
      match goal with
      | Hr : _raw_action _ _ _ = inr _ |- _ =>
          destruct (raw_action_type _ _ _ _ Hr); congruence
      end.
Qed.

Lemma next_action_inform_names_entity_witness :
  lastRequestSlot (mkSysState None (Some (VStr "none"))) = None
  /\ ((exists v rest,
          get_values
            (mkSysAct (Some InformByName)
               [("name", [VStr "none"]); ("food", [VList ["pizza"]])])
            "name" = v :: rest
          /\ lastInformedPrimKeyVal (mkSysState None (Some (VStr "none")))
             = Some v)
      \/ (get_values
            (mkSysAct (Some InformByName)
               [("name", [VStr "none"]); ("food", [VList ["pizza"]])])
            "name" = [VStr "none"]
          /\ lastInformedPrimKeyVal (mkSysState None (Some (VStr "none")))
             = None)).
Proof.
  apply (next_action_inform_names_entity Demo.domain Demo.runtime
           (new_policy 25)
           (Demo.belief [UInform] [("food", [("pizza", 1 # 1)])] []) []
           (mkSysAct (Some InformByName)
              [("name", [VStr "none"]); ("food", [VList ["pizza"]])])
           (mkSysState None (Some (VStr "none"))) (new_policy 25));
    reflexivity.
Defined.

(** X18.  Two requests are turned down with a bare [Bad], without a
    query and without touching the policy object: attributes requested
    while no entity is in focus (no informs for the primary key and the
    cursor at or past the end of the candidate list), and alternatives
    requested while there is no constraint. *)
Theorem next_action_turns_down
    (domain : Domain) (rt : Runtime) (self : Policy) (bs : BeliefState)
    (db : Db) :
  (requests bs <> [] ->
   dict_get (informs bs) (get_primary_key domain) = None ->
   Z.of_nat (List.length (current_suggestions self)) <= s_index self ->
   _next_action domain rt self bs db
   = inr (set_type new_SysAct Bad, empty_sys_state, self))
  /\ (requests bs = [] ->
      act_in URequestAlternatives (user_acts bs) = true ->
      fst (_get_constraints bs) = [] ->
      _next_action domain rt self bs db
      = inr (set_type new_SysAct Bad, empty_sys_state, self)).
Proof.
  split.
  - intros Hreq Hpk Hcur. unfold _next_action.
    assert (Hname : _get_name domain self bs = inr None).
    { unfold _get_name. rewrite Hpk.
      replace (s_index self
               <? Z.of_nat (List.length (current_suggestions self)))
        with false by (symmetry; apply Z.ltb_ge; assumption).
      reflexivity. }
    rewrite Hname.
    destruct (requests bs); [congruence|]. cbn [nonempty bind ret].
    destruct (act_in UBad (user_acts bs)); reflexivity.
  - intros Hreq Halt Hcons. unfold _next_action.
    rewrite Hreq, Halt, Hcons. cbn [nonempty negb andb bind ret].
    destruct (act_in UBad (user_acts bs)); reflexivity.
Qed.

Lemma next_action_turns_down_witness :
  _next_action Demo.domain Demo.runtime (new_policy 25)
    (Demo.belief [URequest] [] ["area"]) []
  = inr (set_type new_SysAct Bad, empty_sys_state, new_policy 25)
  /\ _next_action Demo.domain Demo.runtime (new_policy 25)
       (Demo.belief [URequestAlternatives] [] []) []
     = inr (set_type new_SysAct Bad, empty_sys_state, new_policy 25).
Proof.
  split.
  - apply (proj1 (next_action_turns_down Demo.domain Demo.runtime
                    (new_policy 25) (Demo.belief [URequest] [] ["area"]) [])).
    + discriminate.
    + reflexivity.
    + simpl. lia.
  - apply (proj2 (next_action_turns_down Demo.domain Demo.runtime
                    (new_policy 25)
                    (Demo.belief [URequestAlternatives] [] []) []));
      reflexivity.
Defined.

(** X19.  An entity the user names is informed by name as it stands:
    when the primary key has informs and no attribute is requested,
    [_next_action] answers [InformByName] with the best-scored name,
    whatever the store holds, and leaves the policy object alone. *)
Theorem next_action_informs_by_name
    (domain : Domain) (rt : Runtime) (self : Policy) (bs : BeliefState)
    (db : Db) (names : dict Q) :
  dict_get (informs bs) (get_primary_key domain) = Some names ->
  names <> [] ->
  requests bs = [] ->
  act_in UBad (user_acts bs) = false ->
  act_in URequestAlternatives (user_acts bs) = false
  \/ fst (_get_constraints bs) <> [] ->
  exists n q d1 d2,
    _next_action domain rt self bs db
    = inr (add_value (set_type new_SysAct InformByName)
             (get_primary_key domain) (Some (VStr n)),
           empty_sys_state, self)
    /\ names = d1 ++ (n, q) :: d2
    /\ (forall y, In y d1 -> Qlt (snd y) q)
    /\ (forall y, In y d2 -> Qle (snd y) q).
Proof.
  intros Hnames Hne Hreq Hbad Halt.
  assert (Hname : exists n q d1 d2,
             _get_name domain self bs = inr (Some n)
             /\ names = d1 ++ (n, q) :: d2
             /\ (forall y, In y d1 -> Qlt (snd y) q)
             /\ (forall y, In y d2 -> Qle (snd y) q)).
  { unfold _get_name. rewrite Hnames.
    pose proof (sorted_head_first_max names) as Hhead.
    destruct names as [|n0 names']; [congruence|].
    destruct (py_sorted score_ge (n0 :: names')) as [|[n q] t];
      [discriminate|].
    rewrite py_index_head. cbn [bind ret fst].
    destruct Hhead as (d1 & d2 & Hsplit & Hlt & Hle).
    exists n, q, d1, d2. auto. }
  destruct Hname as (n & q & d1 & d2 & Hn & Hsplit & Hlt & Hle).
  exists n, q, d1, d2. split; [|auto].
  unfold _next_action. rewrite Hbad, Hreq. cbn [nonempty bind ret].
  replace (act_in URequestAlternatives (user_acts bs)
           && negb (nonempty (fst (_get_constraints bs)))) with false.
  2:{ symmetry. apply andb_false_iff. destruct Halt as [->|Hc]; [auto|].
      right. destruct (fst (_get_constraints bs)); [congruence|reflexivity]. }
  unfold dict_mem, PyDict.mem. unfold dict_get in Hnames. rewrite Hnames.
  cbn [negb andb]. rewrite Hn. reflexivity.
Qed.

Lemma next_action_informs_by_name_witness :
  exists n q d1 d2,
    _next_action Demo.domain Demo.runtime (new_policy 25)
      (Demo.belief [UInform] [("name", [("Nowhere", 1 # 1)])] []) []
    = inr (add_value (set_type new_SysAct InformByName) "name"
             (Some (VStr n)),
           empty_sys_state, new_policy 25)
    /\ [("Nowhere", 1 # 1)] = d1 ++ (n, q) :: d2
    /\ (forall y, In y d1 -> Qlt (snd y) q)
    /\ (forall y, In y d2 -> Qle (snd y) q).
Proof.
  apply (next_action_informs_by_name Demo.domain Demo.runtime
           (new_policy 25)
           (Demo.belief [UInform] [("name", [("Nowhere", 1 # 1)])] []) []
           [("Nowhere", 1 # 1)]).
  - reflexivity.
  - discriminate.
  - reflexivity.
  - reflexivity.
  - left. reflexivity.
Defined.

(** ** Starting over *)

(** X20.  A [NewDialogue] act that reaches the dispatcher (no first-turn
    [Welcome], budget not reached, none of [Bad], [Bye] and [Thanks]
    left by filler suppression) is answered with [Welcome] and resets
    the policy as [dialog_start] does; a following turn without user
    actions is welcomed again, and after it the session stands at turn
    one with no candidate cached. *)
Theorem new_dialogue_starts_over
    (domain : Domain) (rt : Runtime) (self : Policy) (bs bs2 : BeliefState)
    (db : Db) :
  welcomes self bs = false ->
  turns self + 1 < max_turns self ->
  act_in UBad (_remove_gen_actions (user_acts bs)) = false ->
  act_in UBye (_remove_gen_actions (user_acts bs)) = false ->
  act_in UThanks (_remove_gen_actions (user_acts bs)) = false ->
  act_in UNewDialogue (_remove_gen_actions (user_acts bs)) = true ->
  user_acts bs2 = [] ->
  choose_sys_act domain rt self bs db
  = inr (set_type new_SysAct Welcome, empty_sys_state, dialog_start self, db)
  /\ run domain rt self db [bs; bs2]
     = inr ([set_type new_SysAct Welcome; set_type new_SysAct Welcome],
            mkPolicy 1 false [] 0 (max_turns self), db).
Proof.
  intros Hw Hmax Hbad Hbye Hthanks Hnew Hempty.
  assert (Hfirst : choose_sys_act domain rt self bs db
                   = inr (set_type new_SysAct Welcome, empty_sys_state,
                          dialog_start self, db)).
  { dispatch Hw Hmax. rewrite Hbad, Hbye, Hthanks, Hnew. reflexivity. }
  split; [exact Hfirst|].
  cbn [run]. rewrite Hfirst. cbn [bind].
  unfold choose_sys_act at 1.
  unfold set_turns, dialog_start.
  cbn [first_turn turns max_turns current_suggestions s_index set_first_turn].
  rewrite Hempty. cbn [nonempty negb andb bind ret]. reflexivity.
Qed.

Lemma new_dialogue_starts_over_witness :
  run Demo.domain Demo.runtime
    (mkPolicy 4 false [Demo.venue "Alpha" "thai" "north" "1"] 0 25) []
    [Demo.belief [UThanks; UNewDialogue] Demo.wants_thai [];
     Demo.belief [] [] []]
  = inr ([set_type new_SysAct Welcome; set_type new_SysAct Welcome],
         mkPolicy 1 false [] 0 25, []).
Proof.
  apply (proj2 (new_dialogue_starts_over Demo.domain Demo.runtime
                  (mkPolicy 4 false [Demo.venue "Alpha" "thai" "north" "1"]
                     0 25)
                  (Demo.belief [UThanks; UNewDialogue] Demo.wants_thai [])
                  (Demo.belief [] [] []) []
                  eq_refl eq_refl eq_refl eq_refl eq_refl eq_refl eq_refl)).
Defined.

(** ** Applicable templates *)

Lemma remove_name_perm x l :
  In x l -> Permutation (x :: Template.remove_name x l) l.
Proof.
  induction l as [|y l IH]; [intros []|].
  cbn [Template.remove_name].
  destruct (String.eqb_spec y x) as [->|Hne]; [reflexivity|].
  intros [H|H]; [contradiction|].
  rewrite perm_swap. apply perm_skip. apply IH. assumption.
Qed.

Lemma check_slots_perm slot_names : forall names left,
  Template.check_slots slot_names names = Some left ->
  Permutation (slot_names ++ left) names.
Proof.
  induction slot_names as [|s slot_names IH]; intros names left H;
    cbn [Template.check_slots] in H.
  - inversion H. reflexivity.
  - destruct (str_in s names) eqn:E; cbn [negb] in H; [|discriminate].
    apply str_in_iff in E. apply IH in H. cbn [app].
    rewrite <- (remove_name_perm s names E). apply perm_skip. assumption.
Qed.

Lemma check_slots_complete slot_names : forall names extra,
  Permutation (slot_names ++ extra) names ->
  exists left, Template.check_slots slot_names names = Some left
               /\ Permutation left extra.
Proof.
  induction slot_names as [|s slot_names IH]; intros names extra H;
    cbn [Template.check_slots].
  - exists names. split; [reflexivity|]. symmetry. assumption.
  - assert (Hin : In s names)
      by (eapply Permutation_in; [exact H|left; reflexivity]).
    replace (str_in s names) with true
      by (symmetry; apply str_in_iff; assumption).
    cbn [negb]. apply IH.
    apply Permutation_cons_inv with (a := s).
    rewrite (remove_name_perm s names Hin). exact H.
Qed.

(** X21.  A template applies to a set of variables exactly when its slot
    names, counted with their repetitions, are all among the variables'
    names and either no name is left over or the template has a free
    parameter to take the rest; order plays no part. *)
Theorem template_applies_to_its_slots
    (slot_names : list string) (free_parameter : option string)
    (variables : list string) :
  Template.is_applicable slot_names free_parameter variables = true <->
  exists extra,
    Permutation (slot_names ++ extra) variables
    /\ (extra = [] \/ free_parameter <> None).
Proof.
  unfold Template.is_applicable. split.
  - destruct (Template.check_slots slot_names variables) as [left|] eqn:E;
      [|discriminate].
    intros H. exists left. split; [apply check_slots_perm; assumption|].
    apply orb_true_iff in H. destruct H as [H|H].
    + left. destruct left; [reflexivity|discriminate].
    + right. destruct free_parameter; [discriminate|discriminate].
  - intros (extra & Hperm & Hextra).
    destruct (check_slots_complete _ _ _ Hperm) as (left & -> & Hleft).
    apply orb_true_iff. destruct Hextra as [->|Hfree].
    + left. apply Permutation_sym, Permutation_nil in Hleft. subst. reflexivity.
    + right. destruct free_parameter; [reflexivity|congruence].
Qed.
